(** * tekcap: GPIB-serial Tektronix hardcopy capture

    A shallow embedding of [main] of [main.c].  The Windows calls the
    program makes (CreateFile, SetCommState, WriteFile, ReadFile,
    GetTickCount, ...) are answered by a [world]: a record that fixes,
    call by call, what the operating system returns.  The program is a
    computation in a small state-and-exit monad; the state is the list of
    calls made so far, the bytes written to the output file, and how many
    answers of each kind have been consumed. *)

From Stdlib Require Import ZArith List String Ascii Lia Bool Arith DecimalString DecimalZ.
Import ListNotations.
Open Scope Z_scope.

Definition byte : Type := Byte.byte.

(** ** Constants of the translation unit *)

(** [#define MAX_TIMEOUTS 1] *)
Definition MAX_TIMEOUTS : Z := 1.

(** [char strBuf[1024]]: [sizeof(strBuf)] *)
Definition sizeof_strBuf : nat := 1024.

(** [char portname[256]], [char filename[256]] *)
Definition sizeof_portname : nat := 256.
Definition sizeof_filename : nat := 256.

(** Carriage return, written ["\r"] in the source. *)
Definition CR : string := String "013"%char EmptyString.

(** [DWORD] arithmetic is modulo 2^32; a [long] of the Windows ABI has
    the same width and is signed. *)
Definition DWORD_mod : Z := 2 ^ 32.
Definition to_DWORD (x : Z) : Z := x mod DWORD_mod.
Definition to_long (x : Z) : Z := (x + 2 ^ 31) mod DWORD_mod - 2 ^ 31.

Definition LONG_MAX : Z := 2 ^ 31 - 1.
Definition LONG_MIN : Z := - 2 ^ 31.

(** ** C library functions used by the argument loop *)

Module CLib.

Definition isspace (c : ascii) : bool :=
  let n := nat_of_ascii c in
  ((9 <=? n) && (n <=? 13) || (n =? 32))%nat.

Definition digit_of (c : ascii) : option Z :=
  let n := nat_of_ascii c in
  if ((48 <=? n) && (n <=? 57))%nat then Some (Z.of_nat n - 48) else None.

Fixpoint skip_space (s : string) : string :=
  match s with
  | String c s' => if isspace c then skip_space s' else s
  | EmptyString => s
  end.

(** The longest run of decimal digits at the head of [s], read as a
    number, continuing from [acc]. *)
Fixpoint digits (s : string) (acc : Z) : Z :=
  match s with
  | String c s' =>
      match digit_of c with
      | Some d => digits s' (10 * acc + d)
      | None => acc
      end
  | EmptyString => acc
  end.

Definition clamp_long (v : Z) : Z :=
  if LONG_MAX <? v then LONG_MAX
  else if v <? LONG_MIN then LONG_MIN
  else v.

(** [strtol(s, NULL, 10)]: white space, an optional sign, digits; the
    value is clamped to the range of [long]; no digits give 0. *)
Definition strtol (s : string) : Z :=
  match skip_space s with
  | String "-"%char s' => clamp_long (- digits s' 0)
  | String "+"%char s' => clamp_long (digits s' 0)
  | s' => clamp_long (digits s' 0)
  end.

(** [printf("%i")] of an [int]. *)
Definition itoa (z : Z) : string := NilZero.string_of_int (Z.to_int z).

(** What [%s] prints of a buffer: the bytes before the first NUL. *)
Fixpoint until_nul (bs : list byte) : list byte :=
  match bs with
  | [] => []
  | b :: bs' => if Byte.eqb b Byte.x00 then [] else b :: until_nul bs'
  end.

(** [*PathFindExtensionA(path) == 0]: no ["."] after the last
    backslash or space of [path]. *)
Fixpoint ext_scan (s : string) (found : bool) : bool :=
  match s with
  | EmptyString => found
  | String c s' =>
      if Ascii.eqb c "."%char then ext_scan s' true
      else if Ascii.eqb c "\"%char || Ascii.eqb c " "%char then ext_scan s' false
      else ext_scan s' found
  end.
Definition no_extension (path : string) : bool := negb (ext_scan path false).

End CLib.

(** ** Command line *)

(** The globals the argument loop assigns, with their initialisers:
    [portname = "\\\\.\\COM14"], [baud = 230400], [address = 1]. *)
Record config : Type := Config {
  portname : string;
  baud : Z;
  address : Z
}.

Definition device_prefix : string := "\\.\".

Definition default_config : config :=
  {| portname := device_prefix ++ "COM14"; baud := 230400; address := 1 |}.

Definition argc (argv : list string) : nat := List.length argv.

(** [argv[i]]; [None] stands for the null pointer [argv[argc]] and
    anything beyond it. *)
Definition arg (argv : list string) (i : nat) : option string := nth_error argv i.

Definition is_flag (a : string) (flag : string) : bool := String.eqb a flag.

(** One pass through the body of [for (i = 1; i < argc - 1; i++)],
    without the final [i++].  The three [if]s are tried in order, each on
    the current [argv[i]].  [None]: the body passes a null pointer to
    [strcmp] or [strtol], or [strncpy_s] cannot store its source in what
    is left of [portname]. *)
Definition parse_body (argv : list string) (i : nat) (c : config)
  : option (nat * config) :=
  match arg argv i with
  | None => None
  | Some a =>
      match
        (if is_flag a "-p" then
           match arg argv (S i) with
           | Some v =>
               if (String.length v + 4 <? sizeof_portname)%nat
               then Some (S i, {| portname := device_prefix ++ v;
                                  baud := baud c; address := address c |})
               else None
           | None => None
           end
         else Some (i, c))
      with
      | None => None
      | Some (i1, c1) =>
          match arg argv i1 with
          | None => None
          | Some a1 =>
              match
                (if is_flag a1 "-b" then
                   match arg argv (S i1) with
                   | Some v => Some (S i1, {| portname := portname c1;
                                              baud := CLib.strtol v;
                                              address := address c1 |})
                   | None => None
                   end
                 else Some (i1, c1))
              with
              | None => None
              | Some (i2, c2) =>
                  match arg argv i2 with
                  | None => None
                  | Some a2 =>
                      if is_flag a2 "-a" then
                        match arg argv (S i2) with
                        | Some v => Some (S i2, {| portname := portname c2;
                                                   baud := baud c2;
                                                   address := CLib.strtol v |})
                        | None => None
                        end
                      else Some (i2, c2)
                  end
              end
          end
      end
  end.

(** The [for] loop; [n] bounds the number of passes and [argc] passes
    always suffice, since every pass increases [i]. *)
Fixpoint parse_loop (n : nat) (argv : list string) (i : nat) (c : config)
  : option (nat * config) :=
  if (i <? argc argv - 1)%nat then
    match n with
    | O => None
    | S n' =>
        match parse_body argv i c with
        | Some (i', c') => parse_loop n' argv (S i') c'
        | None => None
        end
    end
  else Some (i, c).

Definition parse_args (argv : list string) : option (nat * config) :=
  parse_loop (argc argv) argv 1%nat default_config.

(** ** Console output and system calls *)

(** One constructor per [printf] of the source; the banner and the usage
    text are each one message. *)
Inductive message : Type :=
| MsgBanner
| MsgUsage
| MsgFilenameRequired                 (* "Filename required.\n" *)
| MsgAddressRange (a : Z)             (* "Address %i out of range.\n" *)
| MsgBaudRange (b : Z)                (* "Baud rate %li out of range.\n" *)
| MsgOpenPort (port : string)         (* "Error opening port %s.\n" *)
| MsgConfigPort (port : string)       (* "IO error configuring port %s.\n" *)
| MsgClearInput                       (* "IO Error clearing input buffer.\n" *)
| MsgTestPort                         (* "IO error testing port.\n" *)
| MsgVersion (reply : list byte)      (* "GPIB adapter version: %s\n" *)
| MsgOpenFile (file : string)         (* "IO error opening file %s.\n" *)
| MsgWriteCommand                     (* "IO error writing command.\n" *)
| MsgRetryWrite                       (* "IO error during timeout retry.\n" *)
| MsgReadData                         (* "IO error reading data.\n" *)
| MsgWriteOutput                      (* "IO error writing output.\n" *)
| MsgColon                            (* ":" *)
| MsgDot                              (* "." *)
| MsgDone                             (* "\nDone.\n" *)
| MsgSystemError.                     (* the FormatMessage text, or its code *)

(** The calls [main] makes, in the order it makes them. *)
Inductive event : Type :=
| EvPrint (m : message)
| EvOpenPort (name : string)          (* CreateFile(portname, ...) *)
| EvSetCommState (baudrate : Z)
| EvSetCommTimeouts
| EvSetupComm
| EvCommWrite (data : list byte)      (* WriteFile(hComm, ...) *)
| EvCommRead (got : option (list byte)) (* ReadFile(hComm, ...) and its answer *)
| EvSleep (ms : Z)
| EvTick (value : Z)                  (* GetTickCount() and its answer *)
| EvOpenFile (name : string)          (* CreateFile(filename, ...) *)
| EvFileWrite (data : list byte)      (* WriteFile(hOutput, ...): bytes stored *)
| EvLastError                         (* GetLastError / FormatMessage *)
| EvCloseComm
| EvCloseFile.

(** What the operating system answers.  Calls of one kind are numbered
    from 0 in the order the program makes them. *)
Record world : Type := World {
  port_opens : bool;                      (* hComm != INVALID_HANDLE_VALUE *)
  comm_state_ok : bool;                   (* SetCommState *)
  comm_timeouts_ok : bool;                (* SetCommTimeouts *)
  setup_comm_ok : bool;                   (* SetupComm *)
  comm_write : nat -> bool;               (* k-th WriteFile(hComm) *)
  comm_read : nat -> option (list byte);  (* k-th ReadFile(hComm): FALSE, or the bytes pending *)
  file_opens : bool;                      (* hOutput != INVALID_HANDLE_VALUE *)
  file_write : nat -> nat -> option nat;  (* k-th WriteFile(hOutput) of n bytes: FALSE, or bytes written *)
  tick : nat -> Z                         (* k-th GetTickCount() *)
}.

Record state : Type := State {
  n_comm_write : nat;
  n_comm_read : nat;
  n_file_write : nat;
  n_tick : nat;
  trace : list event;
  sink : list byte          (* bytes stored in the output file by this run *)
}.

Definition initial : state :=
  {| n_comm_write := 0; n_comm_read := 0; n_file_write := 0; n_tick := 0;
     trace := []; sink := [] |}.

(** ** The monad *)

Inductive res (A : Type) : Type :=
| Val (a : A)          (* the statement completed *)
| Goto (err : Z)       (* [err = n; goto mainOut;] *)
| Abort                (* undefined behaviour, or the CRT's invalid-parameter handler *)
| Fuel.                (* the model's loop budget ran out *)
Arguments Val {A} a.
Arguments Goto {A} err.
Arguments Abort {A}.
Arguments Fuel {A}.

Definition M (A : Type) : Type := state -> res A * state.

Definition ret {A} (a : A) : M A := fun s => (Val a, s).

Definition bind {A B} (c : M A) (k : A -> M B) : M B :=
  fun s =>
    match c s with
    | (Val a, s') => k a s'
    | (Goto e, s') => (Goto e, s')
    | (Abort, s') => (Abort, s')
    | (Fuel, s') => (Fuel, s')
    end.

Definition goto {A} (err : Z) : M A := fun s => (Goto err, s).
Definition abort {A} : M A := fun s => (Abort, s).
Definition out_of_fuel {A} : M A := fun s => (Fuel, s).

(** The label [mainOut]: the value of [err] on arrival. *)
Definition at_mainOut (c : M unit) : M Z :=
  fun s =>
    match c s with
    | (Val _, s') => (Val 0, s')
    | (Goto e, s') => (Val e, s')
    | (Abort, s') => (Abort, s')
    | (Fuel, s') => (Fuel, s')
    end.

Declare Scope monad_scope.
Delimit Scope monad_scope with monad.
Notation "x <- c ;; k" := (bind c (fun x => k))
  (at level 61, c at next level, right associativity) : monad_scope.
Notation "c ;; k" := (bind c (fun _ => k))
  (at level 61, right associativity) : monad_scope.
Open Scope monad_scope.

Definition emit (e : event) : M unit :=
  fun s => (Val tt,
            {| n_comm_write := n_comm_write s; n_comm_read := n_comm_read s;
               n_file_write := n_file_write s; n_tick := n_tick s;
               trace := trace s ++ [e]; sink := sink s |}).

Definition printf (m : message) : M unit := emit (EvPrint m).
Definition Sleep (ms : Z) : M unit := emit (EvSleep ms).

(** ** Adapter commands *)

Definition bytes_of (s : string) : list byte := list_byte_of_string s.

(** ["\r\r+read\r"], ["+ver\r"], ["+read\r"], ["\r"] and the
    [sprintf_s] of ["++addr %i\r++mode 1\rHARDC STAR\r"]. *)
Definition probe_cmd : list byte := bytes_of (CR ++ CR ++ "+read" ++ CR).
Definition ver_cmd : list byte := bytes_of ("+ver" ++ CR).
Definition read_cmd : list byte := bytes_of ("+read" ++ CR).
Definition terminator_cmd : list byte := bytes_of CR.
Definition arm_cmd (addr : Z) : list byte :=
  bytes_of ("++addr " ++ CLib.itoa addr ++ CR ++ "++mode 1" ++ CR
            ++ "HARDC STAR" ++ CR).

(** Locals of the receive loop. *)
Record locals : Type := Locals {
  lastTicks : Z;      (* long int *)
  bytesTilDot : Z;    (* int *)
  timeout : Z         (* int *)
}.

Section Program.

Variable W : world.

(** *** System calls against the world *)

Definition CreateFile_port (name : string) : M bool :=
  emit (EvOpenPort name);; ret (port_opens W).

Definition SetCommState (baudrate : Z) : M bool :=
  emit (EvSetCommState baudrate);; ret (comm_state_ok W).

Definition SetCommTimeouts : M bool :=
  emit EvSetCommTimeouts;; ret (comm_timeouts_ok W).

Definition SetupComm : M bool :=
  emit EvSetupComm;; ret (setup_comm_ok W).

Definition CreateFile_output (name : string) : M bool :=
  emit (EvOpenFile name);; ret (file_opens W).

(** [WriteFile(hComm, data, len, &numBytes, NULL)] *)
Definition WriteFile_comm (data : list byte) : M bool :=
  fun s =>
    (Val (comm_write W (n_comm_write s)),
     {| n_comm_write := S (n_comm_write s); n_comm_read := n_comm_read s;
        n_file_write := n_file_write s; n_tick := n_tick s;
        trace := trace s ++ [EvCommWrite data]; sink := sink s |}).

(** [ReadFile(hComm, strBuf, sizeof(strBuf), &numBytes, NULL)]: at most
    [sizeof(strBuf)] bytes are delivered; [numBytes] is their number. *)
Definition ReadFile_comm : M (option (list byte)) :=
  fun s =>
    let r := option_map (firstn sizeof_strBuf) (comm_read W (n_comm_read s)) in
    (Val r,
     {| n_comm_write := n_comm_write s; n_comm_read := S (n_comm_read s);
        n_file_write := n_file_write s; n_tick := n_tick s;
        trace := trace s ++ [EvCommRead r]; sink := sink s |}).

(** [WriteFile(hOutput, strBuf, numBytes, &numBytes, NULL)]: the answer
    is the new [numBytes], the number of bytes stored. *)
Definition WriteFile_output (data : list byte) : M (option nat) :=
  fun s =>
    match file_write W (n_file_write s) (List.length data) with
    | None =>
        (Val None,
         {| n_comm_write := n_comm_write s; n_comm_read := n_comm_read s;
            n_file_write := S (n_file_write s); n_tick := n_tick s;
            trace := trace s ++ [EvFileWrite []]; sink := sink s |})
    | Some m =>
        let stored := firstn m data in
        (Val (Some (List.length stored)),
         {| n_comm_write := n_comm_write s; n_comm_read := n_comm_read s;
            n_file_write := S (n_file_write s); n_tick := n_tick s;
            trace := trace s ++ [EvFileWrite stored];
            sink := sink s ++ stored |})
    end.

Definition GetTickCount : M Z :=
  fun s =>
    let t := to_DWORD (tick W (n_tick s)) in
    (Val t,
     {| n_comm_write := n_comm_write s; n_comm_read := n_comm_read s;
        n_file_write := n_file_write s; n_tick := S (n_tick s);
        trace := trace s ++ [EvTick t]; sink := sink s |}).

(** *** Lines 108-164: open and configure the port *)

Definition open_port (c : config) : M unit :=
  h <- CreateFile_port (portname c);;
  if negb h then printf (MsgOpenPort (portname c));; goto 4
  else ret tt.

Definition configure_port (c : config) : M unit :=
  err <- SetCommState (baud c);;
  err <- (if err then SetCommTimeouts else ret false);;
  err <- (if err then SetupComm else ret false);;
  if negb err then printf (MsgConfigPort (portname c));; goto 5
  else ret tt.

(** *** Lines 166-184: probe, clear the input, ask for the version *)

(** [do { Sleep(10); ReadFile ... } while (numBytes > 0);] *)
Fixpoint flush (fuel : nat) : M unit :=
  match fuel with
  | O => out_of_fuel
  | S fuel' =>
      Sleep 10;;
      r <- ReadFile_comm;;
      match r with
      | None => printf MsgClearInput;; goto 12
      | Some bs =>
          if (0 <? List.length bs)%nat then flush fuel' else ret tt
      end
  end.

(** [strBuf[numBytes] = 0]: defined only for an index inside [strBuf]. *)
Definition terminate_strBuf (numBytes : nat) : M unit :=
  if (numBytes <? sizeof_strBuf)%nat then ret tt else abort.

Definition identify (fuel : nat) : M unit :=
  err <- WriteFile_comm probe_cmd;;
  flush fuel;;
  err <- (if err then WriteFile_comm ver_cmd else ret false);;
  Sleep 100;;
  r <- (if err then ReadFile_comm else ret None);;
  match r with
  | None => printf MsgTestPort;; goto 6
  | Some reply =>
      terminate_strBuf (List.length reply);;
      printf (MsgVersion (CLib.until_nul reply))
  end.

(** *** Lines 186-215: open the output file, arm the instrument *)

(** [strcat_s(filename, sizeof(filename) - 1, ".bmp")] when
    [PathFindExtensionA] finds no extension. *)
Definition add_extension (file : string) : M string :=
  if CLib.no_extension file then
    if (String.length file + 4 <? sizeof_filename - 1)%nat
    then ret (file ++ ".bmp")%string
    else abort
  else ret file.

Definition open_output (file : string) : M unit :=
  h <- CreateFile_output file;;
  if negb h then printf (MsgOpenFile file);; goto 7
  else ret tt.

Definition arm (c : config) : M unit :=
  ok <- WriteFile_comm (arm_cmd (address c));;
  if negb ok then printf MsgWriteCommand;; goto 8
  else
    Sleep 500;;
    ok <- WriteFile_comm read_cmd;;
    if negb ok then printf MsgWriteCommand;; goto 8
    else ret tt.

(** *** Lines 217-254: the receive loop *)

(** [if (GetTickCount() - lastTicks > 1000) { ... }]: the difference
    is taken in [DWORD]. *)
Definition retry_if_silent (l : locals) : M locals :=
  now <- GetTickCount;;
  if 1000 <? to_DWORD (now - lastTicks l) then
    ok <- WriteFile_comm read_cmd;;
    if negb ok then printf MsgRetryWrite;; goto 11
    else
      t <- GetTickCount;;
      printf MsgColon;;
      Sleep 10;;
      ret {| lastTicks := to_long t; bytesTilDot := bytesTilDot l;
             timeout := timeout l + 1 |}
  else ret l.

(** [if (numBytes > 0) { ... }] *)
Definition store_chunk (l : locals) (chunk : list byte) : M locals :=
  if (0 <? List.length chunk)%nat then
    w <- WriteFile_output chunk;;
    match w with
    | None => printf MsgWriteOutput;; goto 10
    | Some numBytes =>
        let b := bytesTilDot l + Z.of_nat numBytes in
        b' <- (if Z.of_nat sizeof_strBuf <? b
               then printf MsgDot;; ret (b - Z.of_nat sizeof_strBuf)
               else ret b);;
        t <- GetTickCount;;
        ret {| lastTicks := to_long t; bytesTilDot := b'; timeout := 0 |}
    end
  else ret l.

(** The body of [do { ... } while (timeout < MAX_TIMEOUTS);] *)
Definition receive_body (l : locals) : M locals :=
  l1 <- retry_if_silent l;;
  r <- ReadFile_comm;;
  match r with
  | None => printf MsgReadData;; goto 9
  | Some chunk =>
      l2 <- store_chunk l1 chunk;;
      Sleep 20;;
      ret l2
  end.

Fixpoint receive_loop (fuel : nat) (l : locals) : M locals :=
  match fuel with
  | O => out_of_fuel
  | S fuel' =>
      l' <- receive_body l;;
      if timeout l' <? MAX_TIMEOUTS then receive_loop fuel' l' else ret l'
  end.

Definition receive (fuel : nat) : M unit :=
  t <- GetTickCount;;
  receive_loop fuel {| lastTicks := to_long t; bytesTilDot := 0; timeout := 0 |};;
  WriteFile_comm terminator_cmd;;
  printf MsgDone.

(** *** Lines 108-256: everything that can [goto mainOut] *)

(** Lines 186-256: what follows the version query. *)
Definition transfer (fuel : nat) (c : config) (file : string) : M unit :=
  file' <- add_extension file;;
  open_output file';;
  arm c;;
  receive fuel.

Definition session (fuel : nat) (c : config) (file : string) : M unit :=
  open_port c;;
  configure_port c;;
  identify fuel;;
  transfer fuel c file.

(** *** Lines 257-284: [mainOut] *)

Definition cleanup (err : Z) : M Z :=
  (if err =? 0 then ret tt else emit EvLastError;; printf MsgSystemError);;
  emit EvCloseComm;;
  emit EvCloseFile;;
  Sleep 500;;
  ret err.

(** *** [main] *)

(** [strcpy_s(filename, sizeof(filename) - 1, argv[i])] *)
Definition copy_filename (a : string) : M string :=
  if (String.length a <? sizeof_filename - 1)%nat then ret a else abort.

Definition main (fuel : nat) (argv : list string) : M Z :=
  printf MsgBanner;;
  if (argc argv <=? 1)%nat then printf MsgUsage;; ret 0
  else
    match parse_args argv with
    | None => abort
    | Some (i, c) =>
        if (argc argv <=? i)%nat then printf MsgFilenameRequired;; ret 1
        else if (30 <? address c) || (address c <? 0)
        then printf (MsgAddressRange (address c));; ret 2
        else if (baud c <? 0) || (6000000 <? baud c)
        then printf (MsgBaudRange (baud c));; ret 3
        else
          match arg argv i with
          | None => abort
          | Some a =>
              file <- copy_filename a;;
              err <- at_mainOut (session fuel c file);;
              cleanup err
          end
    end.

End Program.

(** ** Reading traces *)

Definition count (p : event -> bool) (tr : list event) : nat :=
  List.length (filter p tr).

Definition bytes_eqb (a b : list byte) : bool :=
  if list_eq_dec Byte.byte_eq_dec a b then true else false.

(** A [+read] request on the wire. *)
Definition is_read_request (e : event) : bool :=
  match e with
  | EvCommWrite d => bytes_eqb d read_cmd
  | _ => false
  end.

(** The progress marker ["."] and the retry marker [":"]. *)
Definition is_dot (e : event) : bool :=
  match e with EvPrint MsgDot => true | _ => false end.
Definition is_colon (e : event) : bool :=
  match e with EvPrint MsgColon => true | _ => false end.

Definition is_comm_read (e : event) : bool :=
  match e with EvCommRead _ => true | _ => false end.

Definition is_open_file (e : event) : bool :=
  match e with EvOpenFile _ => true | _ => false end.

(** Console output is the only thing that is not a system call on the
    port, the clock or the file. *)
Definition is_print (e : event) : bool :=
  match e with EvPrint _ => true | _ => false end.

(** A read that delivered nothing. *)
Definition is_empty_read (e : event) : bool :=
  match e with
  | EvCommRead (Some []) => true
  | _ => false
  end.

(** The payload of the last write to the port in a trace. *)
Fixpoint last_comm_write (tr : list event) : option (list byte) :=
  match tr with
  | [] => None
  | e :: tr' =>
      match last_comm_write tr', e with
      | Some d, _ => Some d
      | None, EvCommWrite d => Some d
      | None, _ => None
      end
  end.

(** ** Assumptions on the world that several results share *)

(** The command line passes the sanity checks of lines 93-104 and names
    an output file that [strcpy_s] can store, also with [".bmp"] added. *)
Definition accepted (argv : list string) (c : config) (file : string) : Prop :=
  exists i,
    (1 < argc argv)%nat /\
    parse_args argv = Some (i, c) /\
    arg argv i = Some file /\
    0 <= address c <= 30 /\
    0 <= baud c <= 6000000 /\
    (String.length file + 4 < sizeof_filename - 1)%nat.

(** The port opens and takes its settings. *)
Definition port_ready (W : world) : Prop :=
  port_opens W = true /\ comm_state_ok W = true /\
  comm_timeouts_ok W = true /\ setup_comm_ok W = true.

(** Every write to the port succeeds. *)
Definition port_writable (W : world) : Prop := forall k, comm_write W k = true.

(** Every write to the output file succeeds and stores all its bytes. *)
Definition file_writable (W : world) : Prop := forall k n, file_write W k n = Some n.

(** After any reading of the clock, some later reading is more than
    1000 ms ahead of it (in [DWORD] arithmetic). *)
Definition clock_advances (W : world) : Prop :=
  forall c, exists j, (c < j)%nat /\ 1000 < to_DWORD (tick W j - tick W c).

(** From call [k] on, every read of the port succeeds with no bytes. *)
Definition silent_from (W : world) (k : nat) : Prop :=
  forall j, (k <= j)%nat -> comm_read W j = Some [].

(** Calls [k], [k+1], ... of [ReadFile] on the port deliver the chunks
    [cs], one each. *)
Fixpoint delivers (W : world) (k : nat) (cs : list (list byte)) : Prop :=
  match cs with
  | [] => True
  | c :: cs' => comm_read W k = Some c /\ delivers W (S k) cs'
  end.

(** A chunk [ReadFile] can deliver into [strBuf]: not empty, not larger
    than the buffer. *)
Definition chunk_ok (c : list byte) : Prop :=
  (0 < List.length c <= sizeof_strBuf)%nat.

(** ** Failure kinds

    The kinds of failure the interface names, the exit code each is
    given, and the kind each failure message of the source reports. *)

Inductive failure_kind : Type :=
| MissingFilename
| AddressOutOfRange
| BaudOutOfRange
| PortOpenFailure
| PortConfigFailure
| VersionQueryFailure
| OutputOpenFailure
| CommandWriteFailure
| DataReadFailure
| OutputWriteFailure
| RetryWriteFailure
| InputFlushFailure.

Definition exit_code_of (k : failure_kind) : Z :=
  match k with
  | MissingFilename => 1
  | AddressOutOfRange => 2
  | BaudOutOfRange => 3
  | PortOpenFailure => 4
  | PortConfigFailure => 5
  | VersionQueryFailure => 6
  | OutputOpenFailure => 7
  | CommandWriteFailure => 8
  | DataReadFailure => 9
  | OutputWriteFailure => 10
  | RetryWriteFailure => 11
  | InputFlushFailure => 12
  end.

Definition kind_of_message (m : message) : option failure_kind :=
  match m with
  | MsgFilenameRequired => Some MissingFilename
  | MsgAddressRange _ => Some AddressOutOfRange
  | MsgBaudRange _ => Some BaudOutOfRange
  | MsgOpenPort _ => Some PortOpenFailure
  | MsgConfigPort _ => Some PortConfigFailure
  | MsgTestPort => Some VersionQueryFailure
  | MsgOpenFile _ => Some OutputOpenFailure
  | MsgWriteCommand => Some CommandWriteFailure
  | MsgReadData => Some DataReadFailure
  | MsgWriteOutput => Some OutputWriteFailure
  | MsgRetryWrite => Some RetryWriteFailure
  | MsgClearInput => Some InputFlushFailure
  | _ => None
  end.

Definition failure_of (e : event) : option failure_kind :=
  match e with
  | EvPrint m => kind_of_message m
  | _ => None
  end.

(** The failures a trace reports, in order. *)
Fixpoint failures (tr : list event) : list failure_kind :=
  match tr with
  | [] => []
  | e :: tr' =>
      match failure_of e with
      | Some k => k :: failures tr'
      | None => failures tr'
      end
  end.

(** ** Properties of computations *)

(** The trace only grows. *)
Definition grows (s s' : state) : Prop := exists tr, trace s' = trace s ++ tr.

Definition monotone (A : Type) (c : M A) : Prop := forall s, grows s (snd (c s)).

(** A computation that leaves for [mainOut] has just reported one
    failure, and carries the exit code of that failure's kind; one that
    does not leave has reported none. *)
Definition reports (A : Type) (c : M A) : Prop :=
  forall s,
    match c s with
    | (Goto e, s') =>
        exists k, failures (trace s') = failures (trace s) ++ [k] /\ e = exit_code_of k
    | (_, s') => failures (trace s') = failures (trace s)
    end.

(** A computation leaves for [mainOut] only with the code of a kind in
    [K]. *)
Definition leaves_with (K : failure_kind -> Prop) (A : Type) (c : M A) : Prop :=
  forall s e s', c s = (Goto e, s') -> exists k, K k /\ e = exit_code_of k.

(** ** The receive loop, read off its trace *)

(** The bytes the port delivered, in order. *)
Fixpoint bytes_read (tr : list event) : list byte :=
  match tr with
  | [] => []
  | EvCommRead (Some bs) :: tr' => bs ++ bytes_read tr'
  | _ :: tr' => bytes_read tr'
  end.

(** A read that delivered at least one byte. *)
Definition is_data (e : event) : bool :=
  match e with
  | EvCommRead (Some (_ :: _)) => true
  | _ => false
  end.

(** Whether [n] more bytes make the progress count pass
    [sizeof(strBuf)], and the count afterwards (lines 243-247). *)
Definition dot_due (b : Z) (n : nat) : bool :=
  Z.of_nat sizeof_strBuf <? b + Z.of_nat n.

Definition next_bytesTilDot (b : Z) (n : nat) : Z :=
  if dot_due b n then b + Z.of_nat n - Z.of_nat sizeof_strBuf else b + Z.of_nat n.

(** The markers due for the chunks [cs], starting from count [b]. *)
Fixpoint dots (b : Z) (cs : list (list byte)) : nat :=
  match cs with
  | [] => 0
  | c :: cs' =>
      ((if dot_due b (List.length c) then 1 else 0)
       + dots (next_bytesTilDot b (List.length c)) cs')%nat
  end.

(** [lastTicks] holds the latest reading of the clock. *)
Definition clock_mark (W : world) (l : locals) (s : state) : Prop :=
  exists c, n_tick s = S c /\ lastTicks l = to_long (to_DWORD (tick W c)).

(** What the input-clearing loop does when the port holds the chunks
    [stale]: one read per chunk, and the read that finds nothing. *)
Fixpoint flush_trace (stale : list (list byte)) : list event :=
  match stale with
  | [] => [EvSleep 10; EvCommRead (Some [])]
  | c :: stale' => EvSleep 10 :: EvCommRead (Some c) :: flush_trace stale'
  end.

(** The progress count once the chunks [cs] are stored. *)
Fixpoint rest_count (b : Z) (cs : list (list byte)) : Z :=
  match cs with
  | [] => b
  | c :: cs' => rest_count (next_bytesTilDot b (List.length c)) cs'
  end.

(** The state [main] is in after the banner. *)
Definition banner_state : state := snd (printf MsgBanner initial).

(** The name the output file is opened under. *)
Definition output_name (file : string) : string :=
  if CLib.no_extension file then (file ++ ".bmp")%string else file.

(** What the output file holds after the run, when it held [old] at
    the time it was opened ([[]] if it did not exist).  [CreateFile] with
    [OPEN_ALWAYS] (lines 192-198) keeps what the file holds and puts the
    file pointer at its start; every [WriteFile] on it stores at the
    pointer and moves it on; nothing truncates the file. *)
Definition file_content (old : list byte) (s : state) : list byte :=
  sink s ++ skipn (List.length (sink s)) old.

(** The state once the probe is written and the input cleared. *)
Definition after_flush (s : state) (stale : list (list byte)) : state :=
  {| n_comm_write := S (n_comm_write s);
     n_comm_read := n_comm_read s + S (List.length stale);
     n_file_write := n_file_write s; n_tick := n_tick s;
     trace := trace s ++ EvCommWrite probe_cmd :: flush_trace stale;
     sink := sink s |}.

(** The locals and the state on entry to the receive loop (line 217). *)
Definition loop_entry (W : world) (s : state) : locals * state :=
  ({| lastTicks := to_long (to_DWORD (tick W (n_tick s)));
      bytesTilDot := 0; timeout := 0 |},
   snd (GetTickCount W s)).

(** The window test of line 221. *)
Definition window_elapsed (W : world) (l : locals) (s : state) : bool :=
  1000 <? to_DWORD (to_DWORD (tick W (n_tick s)) - lastTicks l).

(** The state once the port is open and configured. *)
Definition configured_state (c : config) : state :=
  {| n_comm_write := 0; n_comm_read := 0; n_file_write := 0; n_tick := 0;
     trace := [EvPrint MsgBanner; EvOpenPort (portname c);
               EvSetCommState (baud c); EvSetCommTimeouts; EvSetupComm];
     sink := [] |}.

(** ** Sample worlds and command lines *)

(** A bench where every call succeeds, the port delivers [reads] and is
    silent afterwards, and successive readings of the clock are 300 ms
    apart. *)
Definition lab_world (reads : list (option (list byte))) : world :=
  {| port_opens := true; comm_state_ok := true; comm_timeouts_ok := true;
     setup_comm_ok := true;
     comm_write := fun _ => true;
     comm_read := fun k => nth k reads (Some []);
     file_opens := true;
     file_write := fun _ n => Some n;
     tick := fun k => 300 * Z.of_nat k |}.

(** The same bench with a port that does not open, a port that does not
    take its settings, one failing write to the port, a file that does not
    open, a file that cannot be written. *)
Definition port_closed (W : world) : world :=
  {| port_opens := false; comm_state_ok := comm_state_ok W;
     comm_timeouts_ok := comm_timeouts_ok W; setup_comm_ok := setup_comm_ok W;
     comm_write := comm_write W; comm_read := comm_read W;
     file_opens := file_opens W; file_write := file_write W; tick := tick W |}.

Definition config_refused (W : world) : world :=
  {| port_opens := port_opens W; comm_state_ok := false;
     comm_timeouts_ok := comm_timeouts_ok W; setup_comm_ok := setup_comm_ok W;
     comm_write := comm_write W; comm_read := comm_read W;
     file_opens := file_opens W; file_write := file_write W; tick := tick W |}.

Definition write_fails_at (j : nat) (W : world) : world :=
  {| port_opens := port_opens W; comm_state_ok := comm_state_ok W;
     comm_timeouts_ok := comm_timeouts_ok W; setup_comm_ok := setup_comm_ok W;
     comm_write := fun k => if (k =? j)%nat then false else comm_write W k;
     comm_read := comm_read W;
     file_opens := file_opens W; file_write := file_write W; tick := tick W |}.

Definition file_closed (W : world) : world :=
  {| port_opens := port_opens W; comm_state_ok := comm_state_ok W;
     comm_timeouts_ok := comm_timeouts_ok W; setup_comm_ok := setup_comm_ok W;
     comm_write := comm_write W; comm_read := comm_read W;
     file_opens := false; file_write := file_write W; tick := tick W |}.

Definition file_read_only (W : world) : world :=
  {| port_opens := port_opens W; comm_state_ok := comm_state_ok W;
     comm_timeouts_ok := comm_timeouts_ok W; setup_comm_ok := setup_comm_ok W;
     comm_write := comm_write W; comm_read := comm_read W;
     file_opens := file_opens W; file_write := fun _ _ => None; tick := tick W |}.

(** A reply to the version query that fills [strBuf]. *)
Definition full_reply : list byte := repeat Byte.x41 sizeof_strBuf.

(** Three chunks of 512, 512 and 10 bytes, after an empty input buffer
    and a one-byte reply to the version query. *)
Definition chunk_a : list byte := repeat Byte.x01 512.
Definition chunk_b : list byte := repeat Byte.x02 512.
Definition chunk_c : list byte := repeat Byte.x03 10.
Definition scenario_A : world :=
  lab_world [Some []; Some [Byte.x41]; Some chunk_a; Some chunk_b; Some chunk_c].

(** Two short chunks, as stale input or as data. *)
Definition two_chunks : list (list byte) :=
  [[Byte.x41; Byte.x42; Byte.x43]; [Byte.x44]].
Definition two_chunks_world : world := lab_world (map Some two_chunks).

(** The locals on entry to the receive loop when the clock reads 0. *)
Definition fresh_locals : locals :=
  {| lastTicks := 0; bytesTilDot := 0; timeout := 0 |}.

(** Command lines: the defaults; an address of 31; a baud rate of
    7000000; a baud rate of 0; no file name after the value of [-a]. *)
Definition sample_argv : list string := ["tekcap"; "out.bmp"]%string.
Definition argv_address_31 : list string := ["tekcap"; "-a"; "31"; "out.bmp"]%string.
Definition argv_baud_7000000 : list string := ["tekcap"; "-b"; "7000000"; "out.bmp"]%string.
Definition argv_no_file : list string := ["tekcap"; "-a"; "5"]%string.

(** A file of 2000 bytes that is there before the run. *)
Definition old_file : list byte := repeat Byte.xff 2000.

(** The world and the command line on which [main] fails in kind [k]. *)
Definition failing_run (k : failure_kind) : world * list string :=
  match k with
  | MissingFilename => (lab_world [], argv_no_file)
  | AddressOutOfRange => (lab_world [], argv_address_31)
  | BaudOutOfRange => (lab_world [], argv_baud_7000000)
  | PortOpenFailure => (port_closed (lab_world []), sample_argv)
  | PortConfigFailure => (config_refused (lab_world []), sample_argv)
  | VersionQueryFailure => (write_fails_at 1 (lab_world []), sample_argv)
  | OutputOpenFailure => (file_closed (lab_world []), sample_argv)
  | CommandWriteFailure => (write_fails_at 2 (lab_world []), sample_argv)
  | DataReadFailure => (lab_world [Some []; Some [Byte.x41]; None], sample_argv)
  | OutputWriteFailure =>
      (file_read_only (lab_world [Some []; Some [Byte.x41]; Some [Byte.x42]]),
       sample_argv)
  | RetryWriteFailure => (write_fails_at 4 (lab_world []), sample_argv)
  | InputFlushFailure => (lab_world [None], sample_argv)
  end.

(** ** Command lines of the shape the usage text gives *)

(** The three options. *)
Inductive flag : Type := FlagP | FlagB | FlagA.

Definition flag_name (f : flag) : string :=
  match f with
  | FlagP => "-p"
  | FlagB => "-b"
  | FlagA => "-a"
  end.

(** A word that one of the three [strcmp]s of the loop recognises. *)
Definition is_option (a : string) : bool :=
  is_flag a "-p" || is_flag a "-b" || is_flag a "-a".

(** What stands between the program name and the last argument: an
    option with its value, or a word that is no option. *)
Inductive item : Type :=
| Opt (f : flag) (v : string)
| Stray (w : string).

Definition item_words (it : item) : list string :=
  match it with
  | Opt f v => [flag_name f; v]
  | Stray w => [w]
  end.

(** The assignment each of the three [if]s makes (lines 77, 82, 87). *)
Definition set_item (c : config) (it : item) : config :=
  match it with
  | Opt FlagP v =>
      {| portname := device_prefix ++ v; baud := baud c; address := address c |}
  | Opt FlagB v =>
      {| portname := portname c; baud := CLib.strtol v; address := address c |}
  | Opt FlagA v =>
      {| portname := portname c; baud := baud c; address := CLib.strtol v |}
  | Stray _ => c
  end.

(** A value or a stray word is not itself the name of an option, and a
    port name fits what is left of [portname]. *)
Definition item_ok (it : item) : Prop :=
  match it with
  | Opt f v =>
      is_option v = false /\
      (f = FlagP -> (String.length v + 4 < sizeof_portname)%nat)
  | Stray w => is_option w = false
  end.

Definition command_line (prog : string) (items : list item) (file : string)
  : list string :=
  prog :: flat_map item_words items ++ [file].

(** A character [strtol] can start a number with: white space, a sign
    or a digit. *)
Definition number_start (c : ascii) : bool :=
  CLib.isspace c
  || match CLib.digit_of c with Some _ => true | None => false end
  || Ascii.eqb c "-" || Ascii.eqb c "+".

(** ** Calls a phase does not make *)

(** The calls and the message of [mainOut] (lines 257-281). *)
Definition is_mainOut_call (e : event) : bool :=
  match e with
  | EvLastError | EvCloseComm | EvCloseFile | EvPrint MsgSystemError => true
  | _ => false
  end.

Definition is_file_write (e : event) : bool :=
  match e with EvFileWrite _ => true | _ => false end.

(** A progress marker or a write to the output file: what only the
    receive loop does. *)
Definition is_loop_output (e : event) : bool := is_dot e || is_file_write e.

(** A computation that makes no call in [p]; and if every write to the
    output file is in [p], it leaves the file as it is. *)
Definition avoids (p : event -> bool) (A : Type) (c : M A) : Prop :=
  forall s, exists tr,
    trace (snd (c s)) = trace s ++ tr /\
    count p tr = 0%nat /\
    ((forall d, p (EvFileWrite d) = true) -> sink (snd (c s)) = sink s).

(** ** Traces of the phases around the receive loop *)

(** What [mainOut] appends to the trace for the exit code [e]. *)
Definition mainOut_trace (e : Z) : list event :=
  (if e =? 0 then [] else [EvLastError; EvPrint MsgSystemError])
  ++ [EvCloseComm; EvCloseFile; EvSleep 500].

(** What the three configuration calls leave in the trace: each is made
    only if the one before it succeeded (lines 150-160). *)
Definition configure_trace (W : world) (c : config) : list event :=
  EvSetCommState (baud c)
  :: (if comm_state_ok W
      then EvSetCommTimeouts
           :: (if comm_timeouts_ok W then [EvSetupComm] else [])
      else []).

(** The state once the version query is answered by [reply], after the
    stale chunks [stale] were cleared (line 184). *)
Definition identified_state (c : config) (stale : list (list byte))
    (reply : list byte) : state :=
  {| n_comm_write := 2; n_comm_read := S (S (List.length stale));
     n_file_write := 0; n_tick := 0;
     trace := trace (configured_state c)
              ++ EvCommWrite probe_cmd :: flush_trace stale
              ++ [EvCommWrite ver_cmd; EvSleep 100; EvCommRead (Some reply);
                  EvPrint (MsgVersion (CLib.until_nul reply))];
     sink := [] |}.

(** What the input-clearing loop does when the read after the chunks
    [stale] fails. *)
Fixpoint flush_fail_trace (stale : list (list byte)) : list event :=
  match stale with
  | [] => [EvSleep 10; EvCommRead None; EvPrint MsgClearInput]
  | c :: stale' => EvSleep 10 :: EvCommRead (Some c) :: flush_fail_trace stale'
  end.

(** The iteration that ends the receive loop: the window has elapsed,
    [+read] is written once more, and the read after it brings nothing
    (lines 221-233 and 250). *)
Definition last_iteration (t0 t1 : Z) : list event :=
  [EvTick t0; EvCommWrite read_cmd; EvTick t1; EvPrint MsgColon; EvSleep 10;
   EvCommRead (Some []); EvSleep 20].

(** The end of an iteration whose write to the output file fails: the
    read that brought the chunk [lost], the write, the message (lines
    233-241). *)
Definition failed_store (lost : list byte) : list event :=
  [EvCommRead (Some lost); EvFileWrite []; EvPrint MsgWriteOutput].

(** [err = 10]: the exit of line 241. *)
Definition write_failed (A : Type) (r : res A) : bool :=
  match r with
  | Goto e => e =? 10
  | _ => false
  end.
Arguments write_failed {A} r.

(** What the output file has taken of the bytes read in [tr], from state
    [s] to state [s']: all of them; or, when the write failed, all that
    were read before the chunk [lost] of the last read. *)
Definition file_keeps (failed : bool) (s s' : state) (tr : list event) : Prop :=
  if failed then
    exists pre lost,
      tr = pre ++ failed_store lost /\
      lost <> [] /\
      (List.length lost <= sizeof_strBuf)%nat /\
      sink s' = sink s ++ bytes_read pre
  else sink s' = sink s ++ bytes_read tr.

(** ** Further assumptions on the world *)

(** A write to the output file, when it succeeds, stores all its bytes. *)
Definition whole_writes (W : world) : Prop :=
  forall k n m, file_write W k n = Some m -> (n <= m)%nat.

(** From call [k] on, every read of the port brings data. *)
Definition talking_from (W : world) (k : nat) : Prop :=
  forall j, (k <= j)%nat -> exists c, comm_read W j = Some c /\ chunk_ok c.

(** The markers keep step with the bytes stored: [total] bytes, [dots]
    markers, and the progress count [b] (lines 243-247). *)
Definition in_step (total dots : nat) (b : Z) : Prop :=
  Z.of_nat total = Z.of_nat sizeof_strBuf * Z.of_nat dots + b /\
  0 <= b <= Z.of_nat sizeof_strBuf /\
  ((0 < total)%nat -> 0 < b).

(** ** More sample worlds and command lines *)

(** The bench with a port that has one byte for every read. *)
Definition chatty_world : world :=
  {| port_opens := true; comm_state_ok := true; comm_timeouts_ok := true;
     setup_comm_ok := true;
     comm_write := fun _ => true;
     comm_read := fun _ => Some [Byte.x41];
     file_opens := true;
     file_write := fun _ n => Some n;
     tick := fun k => 300 * Z.of_nat k |}.

(** The bench with a port that is silent for four reads and has a byte
    for the fifth. *)
Definition late_world : world :=
  lab_world [Some []; Some []; Some []; Some []; Some [Byte.x41]].

(** The bench with an empty input buffer and a one-byte reply to the
    version query. *)
Definition replying_world : world := lab_world [Some []; Some [Byte.x41]].

(** Options in the order [-a], [-p], [-a], with a word that is no option
    between them. *)
Definition sample_items : list item :=
  [Opt FlagA "5"; Opt FlagP "COM3"; Stray "verbose"; Opt FlagA "7"]%string.

(** A file name of [n] characters, without extension. *)
Definition name_of_length (n : nat) : string :=
  string_of_list_ascii (repeat "a"%char n).

(** The bench 600 ms after the tick count has wrapped, and the locals of
    a loop that last saw data 500 ms before it wrapped. *)
Definition wrapped_world : world :=
  {| port_opens := true; comm_state_ok := true; comm_timeouts_ok := true;
     setup_comm_ok := true;
     comm_write := fun _ => true;
     comm_read := fun _ => Some [];
     file_opens := true;
     file_write := fun _ n => Some n;
     tick := fun k => 2 ^ 32 + 600 + 300 * Z.of_nat k |}.

Definition wrap_locals : locals :=
  {| lastTicks := to_long (to_DWORD (2 ^ 32 - 500)); bytesTilDot := 0;
     timeout := 0 |}.

(** ** Basic facts *)

Lemma count_app p tr1 tr2 : count p (tr1 ++ tr2) = (count p tr1 + count p tr2)%nat.
Proof. unfold count. rewrite filter_app, length_app. reflexivity. Qed.

Lemma to_long_congr x : to_DWORD (to_long x) = to_DWORD x.
Proof.
  unfold to_long, to_DWORD, DWORD_mod.
  rewrite Zminus_mod, Zmod_mod, <- Zminus_mod.
  replace (x + 2 ^ 31 - 2 ^ 31) with x by ring. reflexivity.
Qed.

(** The difference the loop tests does not depend on the detour of
    [lastTicks] through [long]. *)
Lemma elapsed_eq a b :
  to_DWORD (to_DWORD a - to_long (to_DWORD b)) = to_DWORD (a - b).
Proof.
  unfold to_DWORD at 1. rewrite Zminus_mod.
  fold (to_DWORD (to_long (to_DWORD b))). rewrite to_long_congr.
  unfold to_DWORD. rewrite !Zmod_mod, <- Zminus_mod. reflexivity.
Qed.

Lemma firstn_chunk c : chunk_ok c -> firstn sizeof_strBuf c = c.
Proof. intros [_ H]. apply firstn_all2. exact H. Qed.

Lemma bind_val A B (c : M A) (k : A -> M B) s a s1 :
  c s = (Val a, s1) -> bind c k s = k a s1.
Proof. intro H. unfold bind. rewrite H. reflexivity. Qed.

Lemma count_nil p : count p [] = 0%nat.
Proof. reflexivity. Qed.

Lemma count_cons p e tr :
  count p (e :: tr) = ((if p e then 1 else 0) + count p tr)%nat.
Proof. unfold count. simpl. destruct (p e); reflexivity. Qed.

Section Facts.

Variable W : world.

(** The three [if]s never move [i] backwards. *)
Lemma parse_body_advances argv i c i' c' :
  parse_body argv i c = Some (i', c') -> (i <= i')%nat.
Proof.
  unfold parse_body.
  destruct (arg argv i) as [a|]; [|discriminate].
  destruct (is_flag a "-p").
  - destruct (arg argv (S i)) as [v|]; [|discriminate].
    destruct (String.length v + 4 <? sizeof_portname)%nat; [|discriminate].
    destruct (arg argv (S i)) as [a1|]; [|discriminate].
    destruct (is_flag a1 "-b").
    + destruct (arg argv (S (S i))) as [v1|]; [|discriminate].
      destruct (arg argv (S (S i))) as [a2|]; [|discriminate].
      destruct (is_flag a2 "-a").
      * destruct (arg argv (S (S (S i)))); [|discriminate].
        intro H. inversion H. lia.
      * intro H. inversion H. lia.
    + destruct (arg argv (S i)) as [a2|]; [|discriminate].
      destruct (is_flag a2 "-a").
      * destruct (arg argv (S (S i))); [|discriminate].
        intro H. inversion H. lia.
      * intro H. inversion H. lia.
  - destruct (arg argv i) as [a1|]; [|discriminate].
    destruct (is_flag a1 "-b").
    + destruct (arg argv (S i)) as [v1|]; [|discriminate].
      destruct (arg argv (S i)) as [a2|]; [|discriminate].
      destruct (is_flag a2 "-a").
      * destruct (arg argv (S (S i))); [|discriminate].
        intro H. inversion H. lia.
      * intro H. inversion H. lia.
    + destruct (arg argv i) as [a2|]; [|discriminate].
      destruct (is_flag a2 "-a").
      * destruct (arg argv (S i)); [|discriminate].
        intro H. inversion H. lia.
      * intro H. inversion H. lia.
Qed.

(** The bound of [parse_loop] is never what stops it: from [argc - 1 - i]
    passes on, more passes change nothing. *)
Lemma parse_loop_enough n : forall argv i c m,
  (argc argv - 1 - i <= n)%nat -> (n <= m)%nat ->
  parse_loop m argv i c = parse_loop n argv i c.
Proof.
  induction n as [|n IH]; intros argv i c m Hn Hm.
  - destruct m; simpl;
      replace (i <? argc argv - 1)%nat with false
        by (symmetry; apply Nat.ltb_ge; lia); reflexivity.
  - destruct m as [|m]; [lia|]. simpl.
    destruct (i <? argc argv - 1)%nat eqn:E; [|reflexivity].
    destruct (parse_body argv i c) as [[i' c']|] eqn:B; [|reflexivity].
    apply parse_body_advances in B. apply Nat.ltb_lt in E.
    apply IH; lia.
Qed.

(** A command line that passes the checks reaches the session. *)
Lemma main_accepted fuel argv c file :
  accepted argv c file ->
  main W fuel argv initial =
  (err <- at_mainOut (session W fuel c file);; cleanup err) banner_state.
Proof.
  intros (i & Hargc & Hparse & Harg & Haddr & Hbaud & Hlen).
  unfold main, bind at 1. simpl.
  apply Nat.leb_gt in Hargc. rewrite Hargc, Hparse.
  assert (Hi : (argc argv <=? i)%nat = false).
  { apply Nat.leb_gt. apply nth_error_Some. unfold arg in Harg. congruence. }
  rewrite Hi.
  replace (30 <? address c) with false by (symmetry; apply Z.ltb_ge; lia).
  replace (address c <? 0) with false by (symmetry; apply Z.ltb_ge; lia).
  replace (baud c <? 0) with false by (symmetry; apply Z.ltb_ge; lia).
  replace (6000000 <? baud c) with false by (symmetry; apply Z.ltb_ge; lia).
  simpl. rewrite Harg. unfold copy_filename.
  replace (String.length file <? sizeof_filename - 1)%nat with true
    by (symmetry; apply Nat.ltb_lt; lia).
  reflexivity.
Qed.

End Facts.

(** ** What holds of every computation of the session

    A property of computations that holds of the system calls and of the
    failure exits, and that sequencing preserves, holds of the session. *)

Section Compositional.

Variable W : world.
Variable P : forall A : Type, M A -> Prop.

(** The failure kinds the property allows. *)
Variable K : failure_kind -> Prop.
Hypothesis K_open : K PortOpenFailure.
Hypothesis K_config : K PortConfigFailure.
Hypothesis K_flush : K InputFlushFailure.
Hypothesis K_version : K VersionQueryFailure.
Hypothesis K_output : K OutputOpenFailure.
Hypothesis K_command : K CommandWriteFailure.
Hypothesis K_read : K DataReadFailure.
Hypothesis K_write : K OutputWriteFailure.
Hypothesis K_retry : K RetryWriteFailure.

Hypothesis P_ret : forall A (a : A), P A (ret a).
Hypothesis P_bind : forall A B (c : M A) (k : A -> M B),
  P A c -> (forall a, P B (k a)) -> P B (bind c k).
Hypothesis P_abort : forall A, P A abort.
Hypothesis P_fuel : forall A, P A out_of_fuel.
Hypothesis P_emit : forall e, failure_of e = None -> P unit (emit e).
Hypothesis P_fail : forall A m k,
  kind_of_message m = Some k -> K k -> P A (printf m;; goto (exit_code_of k)).
Hypothesis P_comm_write : forall d, P bool (WriteFile_comm W d).
Hypothesis P_comm_read : P _ (ReadFile_comm W).
Hypothesis P_file_write : forall d, P _ (WriteFile_output W d).
Hypothesis P_tick : P Z (GetTickCount W).

Ltac fail_site :=
  first
    [ apply (P_fail _ _ PortOpenFailure) | apply (P_fail _ _ PortConfigFailure)
    | apply (P_fail _ _ VersionQueryFailure) | apply (P_fail _ _ OutputOpenFailure)
    | apply (P_fail _ _ CommandWriteFailure) | apply (P_fail _ _ DataReadFailure)
    | apply (P_fail _ _ OutputWriteFailure) | apply (P_fail _ _ RetryWriteFailure)
    | apply (P_fail _ _ InputFlushFailure) ];
  [ reflexivity | assumption ].

Ltac step :=
  first
    [ apply P_ret | apply P_abort | apply P_fuel
    | apply P_comm_write | apply P_comm_read | apply P_file_write | apply P_tick
    | apply P_emit; reflexivity
    | fail_site
    | apply P_bind; [ | intro ]
    | match goal with
      | |- P _ (if ?b then _ else _) => destruct b
      | |- P _ (match ?x with _ => _ end) => destruct x
      end ].

Lemma P_open_port c : P unit (open_port W c).
Proof. unfold open_port, CreateFile_port. repeat step. Qed.

Lemma P_configure_port c : P unit (configure_port W c).
Proof.
  unfold configure_port, SetCommState, SetCommTimeouts, SetupComm.
  repeat step.
Qed.

Lemma P_flush fuel : P unit (flush W fuel).
Proof.
  induction fuel as [|fuel IH]; simpl; [step|].
  unfold Sleep. repeat first [exact IH | step].
Qed.

Lemma P_identify fuel : P unit (identify W fuel).
Proof.
  unfold identify, Sleep, terminate_strBuf, printf.
  repeat first [apply P_flush | step].
Qed.

Lemma P_add_extension file : P string (add_extension file).
Proof. unfold add_extension. repeat step. Qed.

Lemma P_open_output file : P unit (open_output W file).
Proof. unfold open_output, CreateFile_output. repeat step. Qed.

Lemma P_arm c : P unit (arm W c).
Proof. unfold arm, Sleep. repeat step. Qed.

Lemma P_retry_if_silent l : P locals (retry_if_silent W l).
Proof. unfold retry_if_silent, Sleep, printf. repeat step. Qed.

Lemma P_store_chunk l chunk : P locals (store_chunk W l chunk).
Proof. unfold store_chunk, printf. repeat step. Qed.

Lemma P_receive_body l : P locals (receive_body W l).
Proof.
  unfold receive_body, Sleep.
  repeat first [apply P_retry_if_silent | apply P_store_chunk | step].
Qed.

Lemma P_receive_loop fuel : forall l, P locals (receive_loop W fuel l).
Proof.
  induction fuel as [|fuel IH]; intro l; simpl; [step|].
  repeat first [apply P_receive_body | apply IH | step].
Qed.

Lemma P_receive fuel : P unit (receive W fuel).
Proof. unfold receive, printf. repeat first [apply P_receive_loop | step]. Qed.

Lemma P_transfer fuel c file : P unit (transfer W fuel c file).
Proof.
  unfold transfer.
  repeat first
    [ apply P_add_extension | apply P_open_output | apply P_arm
    | apply P_receive | step ].
Qed.

Lemma P_session fuel c file : P unit (session W fuel c file).
Proof.
  unfold session.
  repeat first
    [ apply P_open_port | apply P_configure_port | apply P_identify
    | apply P_transfer | step ].
Qed.

End Compositional.

(** ** The trace grows; failures are reported with their own code *)

Lemma failures_app tr1 tr2 : failures (tr1 ++ tr2) = failures tr1 ++ failures tr2.
Proof.
  induction tr1 as [|e tr1 IH]; simpl; [reflexivity|].
  destruct (failure_of e); simpl; rewrite IH; reflexivity.
Qed.

Lemma failures_quiet tr e :
  failure_of e = None -> failures (tr ++ [e]) = failures tr.
Proof.
  intro H. rewrite failures_app. simpl. rewrite H. apply app_nil_r.
Qed.

Lemma grows_refl s : grows s s.
Proof. exists []. symmetry. apply app_nil_r. Qed.

Lemma grows_trans s1 s2 s3 : grows s1 s2 -> grows s2 s3 -> grows s1 s3.
Proof.
  intros [t1 H1] [t2 H2]. exists (t1 ++ t2).
  rewrite H2, H1. symmetry. apply app_assoc.
Qed.


Lemma grows_one s e tr' sk nw nr nf nt :
  grows s {| n_comm_write := nw; n_comm_read := nr; n_file_write := nf;
             n_tick := nt; trace := trace s ++ e :: tr'; sink := sk |}.
Proof. exists (e :: tr'). reflexivity. Qed.

Section Session.

Variable W : world.

Lemma monotone_ret A (a : A) : monotone A (ret a).
Proof. intro s. apply grows_refl. Qed.

Lemma monotone_bind A B (c : M A) (k : A -> M B) :
  monotone A c -> (forall a, monotone B (k a)) -> monotone B (bind c k).
Proof.
  intros Hc Hk s. unfold bind. specialize (Hc s).
  destruct (c s) as [[a|e| |] s1]; simpl in *; try exact Hc.
  eapply grows_trans; [exact Hc | apply Hk].
Qed.

Lemma monotone_abort A : monotone A abort.
Proof. intro s. apply grows_refl. Qed.

Lemma monotone_fuel A : monotone A out_of_fuel.
Proof. intro s. apply grows_refl. Qed.

Lemma monotone_emit e : failure_of e = None -> monotone unit (emit e).
Proof. intros _ s. apply grows_one. Qed.

Lemma monotone_fail A m k :
  kind_of_message m = Some k -> True -> monotone A (printf m;; goto (exit_code_of k)).
Proof. intros _ _ s. apply grows_one. Qed.

Lemma monotone_comm_write d : monotone bool (WriteFile_comm W d).
Proof. intro s. apply grows_one. Qed.

Lemma monotone_comm_read : monotone _ (ReadFile_comm W).
Proof. intro s. apply grows_one. Qed.

Lemma monotone_file_write d : monotone _ (WriteFile_output W d).
Proof.
  intro s. unfold WriteFile_output. destruct (file_write W _ _); apply grows_one.
Qed.

Lemma monotone_tick : monotone Z (GetTickCount W).
Proof. intro s. apply grows_one. Qed.

Ltac monotone_facts :=
  first [ exact I | exact monotone_ret | exact monotone_bind | exact monotone_abort
        | exact monotone_fuel | exact monotone_emit | exact monotone_fail
        | exact monotone_comm_write | exact monotone_comm_read
        | exact monotone_file_write | exact monotone_tick ].



Lemma reports_bind A B (c : M A) (k : A -> M B) :
  reports A c -> (forall a, reports B (k a)) -> reports B (bind c k).
Proof.
  intros Hc Hk s. unfold bind. specialize (Hc s).
  destruct (c s) as [[a|e| |] s1]; try exact Hc.
  specialize (Hk a s1). rewrite Hc in Hk. exact Hk.
Qed.

Lemma session_reports fuel c file : reports unit (session W fuel c file).
Proof.
  apply (P_session W reports (fun _ => True)); try exact I; clear fuel c file.
  - intros A a s. reflexivity.
  - exact reports_bind.
  - intros A s. reflexivity.
  - intros A s. reflexivity.
  - intros e He s. simpl. apply failures_quiet, He.
  - intros A m k Hm _ s. simpl. exists k. split; [|reflexivity].
    rewrite failures_app. simpl. rewrite Hm. reflexivity.
  - intros d s. simpl. apply failures_quiet. reflexivity.
  - intros s. simpl. apply failures_quiet. reflexivity.
  - intros d s. unfold WriteFile_output.
    destruct (file_write W _ _); simpl; apply failures_quiet; reflexivity.
  - intros s. simpl. apply failures_quiet. reflexivity.
Qed.

Lemma leaves_with_bind K A B (c : M A) (k : A -> M B) :
  leaves_with K A c -> (forall a, leaves_with K B (k a)) ->
  leaves_with K B (bind c k).
Proof.
  intros Hc Hk s e s'. unfold bind. specialize (Hc s).
  destruct (c s) as [[a|e1| |] s1]; try discriminate.
  - apply Hk.
  - intro H. inversion H. subst. apply (Hc e s'). reflexivity.
Qed.


(** The session leaves only with the codes 4 to 12. *)
Lemma session_leaves fuel c file :
  leaves_with (fun k => 4 <= exit_code_of k) unit (session W fuel c file).
Proof.
  apply (P_session W (leaves_with (fun k => 4 <= exit_code_of k))
           (fun k => 4 <= exit_code_of k));
    try discriminate; clear fuel c file.
  - apply leaves_with_bind.
  - intros A m k _ Hk s e s' H. inversion H. exists k. split; [exact Hk | reflexivity].
  - intros d s e s'. unfold WriteFile_output.
    destruct (file_write W _ _); intro H; discriminate H.
Qed.

(** The first thing the session does is open the port. *)
Lemma session_opens_port fuel c file s :
  exists tr,
    trace (snd (session W fuel c file s)) = trace s ++ EvOpenPort (portname c) :: tr.
Proof.
  unfold session, bind at 1, open_port, CreateFile_port.
  unfold bind at 1. simpl. unfold bind at 1. simpl.
  destruct (port_opens W); simpl.
  - match goal with |- context [bind ?c ?k ?s1] =>
      assert (G : grows s1 (snd (bind c k s1)))
    end.
    { apply monotone_bind; [|intro; apply monotone_bind; intros].
      - apply (P_configure_port W monotone (fun _ => True)); monotone_facts.
      - apply (P_identify W monotone (fun _ => True)); monotone_facts.
      - apply (P_transfer W monotone (fun _ => True)); monotone_facts. }
    destruct G as [tr G]. exists tr. rewrite G. simpl. rewrite <- app_assoc. reflexivity.
  - exists [EvPrint (MsgOpenPort (portname c))]. rewrite <- app_assoc. reflexivity.
Qed.

Lemma exit_code_of_pos k : 1 <= exit_code_of k <= 12.
Proof. destruct k; simpl; lia. Qed.

Lemma exit_code_of_inj k1 k2 : exit_code_of k1 = exit_code_of k2 -> k1 = k2.
Proof. destruct k1, k2; simpl; intro H; try reflexivity; discriminate H. Qed.

(** Every return of [main]: code 0 and no failure reported, or exactly
    one failure reported and the code of its kind. *)
Lemma main_reports fuel argv e s :
  main W fuel argv initial = (Val e, s) ->
  (e = 0 /\ failures (trace s) = []) \/
  (exists k, e = exit_code_of k /\ failures (trace s) = [k]).
Proof.
  unfold main, bind at 1. simpl.
  destruct (argc argv <=? 1)%nat.
  { intro H. inversion H. left. split; reflexivity. }
  destruct (parse_args argv) as [[i c]|]; [|discriminate].
  destruct (argc argv <=? i)%nat.
  { intro H. inversion H. right. exists MissingFilename. split; reflexivity. }
  destruct ((30 <? address c) || (address c <? 0)).
  { intro H. inversion H. right. exists AddressOutOfRange. split; reflexivity. }
  destruct ((baud c <? 0) || (6000000 <? baud c)).
  { intro H. inversion H. right. exists BaudOutOfRange. split; reflexivity. }
  destruct (arg argv i) as [a|]; [|discriminate].
  unfold copy_filename. destruct (_ <? _)%nat; [|discriminate].
  unfold bind at 1, ret at 1. unfold bind at 1, at_mainOut.
  pose proof (session_reports fuel c a
                {| n_comm_write := 0; n_comm_read := 0; n_file_write := 0;
                   n_tick := 0; trace := [EvPrint MsgBanner]; sink := [] |}) as R.
  destruct (session W fuel c a _) as [[[]|e'| |] s1]; try discriminate.
  - simpl in R. intro H. inversion H. left. split; [reflexivity|].
    simpl. rewrite !failures_app, R. reflexivity.
  - destruct R as (k & Hk & He). simpl in Hk. subst e'.
    unfold cleanup.
    replace (exit_code_of k =? 0) with false
      by (symmetry; apply Z.eqb_neq; pose proof (exit_code_of_pos k); lia).
    intro H. inversion H. right. exists k. split; [reflexivity|].
    simpl. rewrite !failures_app, Hk. reflexivity.
Qed.

End Session.

(** ** The receive loop, step by step *)

Local Opaque sizeof_strBuf.

Section Receive.

Variable W : world.

Ltac run :=
  unfold receive_body, retry_if_silent, store_chunk, bind, GetTickCount,
    ReadFile_comm, WriteFile_comm, WriteFile_output, printf, Sleep, emit, ret, goto;
  simpl.

Lemma retry_if_silent_ok l s :
  port_writable W ->
  exists l1 s1 tr,
    retry_if_silent W l s = (Val l1, s1) /\
    trace s1 = trace s ++ tr /\
    sink s1 = sink s /\
    n_comm_read s1 = n_comm_read s /\
    (n_tick s < n_tick s1)%nat /\
    bytesTilDot l1 = bytesTilDot l /\
    count is_dot tr = 0%nat /\
    count is_comm_read tr = 0%nat.
Proof.
  intro Hw. run.
  destruct (1000 <? _).
  - rewrite Hw. simpl. do 3 eexists. split; [reflexivity|]. simpl.
    rewrite <- !app_assoc. simpl.
    repeat split; try reflexivity. lia.
  - do 3 eexists. split; [reflexivity|]. simpl.
    repeat split; try reflexivity. lia.
Qed.

Lemma store_chunk_ok l s chunk :
  file_writable W -> (0 < List.length chunk)%nat ->
  exists l2 s2 tr,
    store_chunk W l chunk s = (Val l2, s2) /\
    trace s2 = trace s ++ tr /\
    sink s2 = sink s ++ chunk /\
    n_comm_read s2 = n_comm_read s /\
    n_tick s2 = S (n_tick s) /\
    lastTicks l2 = to_long (to_DWORD (tick W (n_tick s))) /\
    timeout l2 = 0 /\
    bytesTilDot l2 = next_bytesTilDot (bytesTilDot l) (List.length chunk) /\
    count is_dot tr = (if dot_due (bytesTilDot l) (List.length chunk) then 1 else 0)%nat /\
    count is_comm_read tr = 0%nat.
Proof.
  intros Hf Hlen. unfold store_chunk.
  replace (0 <? List.length chunk)%nat with true by (symmetry; apply Nat.ltb_lt; exact Hlen).
  unfold bind at 1, WriteFile_output. rewrite Hf, firstn_all.
  unfold next_bytesTilDot, dot_due.
  destruct (Z.of_nat sizeof_strBuf <? _); run;
    do 3 eexists; (split; [reflexivity|]); simpl; rewrite <- !app_assoc; simpl;
    repeat split; reflexivity.
Qed.

(** An iteration that receives a chunk. *)
Lemma receive_body_data l s chunk :
  port_writable W -> file_writable W -> chunk_ok chunk ->
  comm_read W (n_comm_read s) = Some chunk ->
  exists l' s' tr,
    receive_body W l s = (Val l', s') /\
    trace s' = trace s ++ tr /\
    sink s' = sink s ++ chunk /\
    n_comm_read s' = S (n_comm_read s) /\
    clock_mark W l' s' /\
    timeout l' = 0 /\
    bytesTilDot l' = next_bytesTilDot (bytesTilDot l) (List.length chunk) /\
    count is_dot tr = (if dot_due (bytesTilDot l) (List.length chunk) then 1 else 0)%nat /\
    count is_comm_read tr = 1%nat.
Proof.
  intros Hw Hf Hc Hr. unfold receive_body.
  destruct (retry_if_silent_ok l s Hw)
    as (l1 & s1 & tr1 & E1 & T1 & S1 & R1 & _ & B1 & D1 & C1).
  rewrite (bind_val _ _ _ _ _ _ _ E1).
  unfold bind at 1, ReadFile_comm. rewrite R1, Hr. unfold option_map.
  rewrite (firstn_chunk _ Hc). cbv beta iota zeta.
  match goal with |- context [bind (store_chunk W l1 chunk) _ ?s2] => set (s2' := s2) end.
  destruct (store_chunk_ok l1 s2' chunk Hf (proj1 Hc))
    as (l2 & s3 & tr3 & E3 & T3 & S3 & R3 & K3 & L3 & O3 & B3 & D3 & C3).
  rewrite (bind_val _ _ _ _ _ _ _ E3). run.
  do 3 eexists. split; [reflexivity|]. simpl.
  rewrite T3. subst s2'. simpl. rewrite T1, <- !app_assoc.
  repeat split.
  - rewrite S3. simpl. rewrite S1. reflexivity.
  - rewrite R3. reflexivity.
  - exists (n_tick s1). rewrite K3. split; [reflexivity|]. exact L3.
  - exact O3.
  - rewrite B3, B1. reflexivity.
  - rewrite !count_app, D1, D3, B1. simpl. unfold count. simpl. lia.
  - rewrite !count_app, C1, C3. reflexivity.
Qed.

Lemma data_phase cs : forall s l,
  port_writable W -> file_writable W -> Forall chunk_ok cs ->
  delivers W (n_comm_read s) cs ->
  clock_mark W l s -> timeout l = 0 ->
  exists l' s' tr,
    (forall fuel, receive_loop W (List.length cs + fuel) l s = receive_loop W fuel l' s') /\
    trace s' = trace s ++ tr /\
    sink s' = sink s ++ List.concat cs /\
    n_comm_read s' = (n_comm_read s + List.length cs)%nat /\
    clock_mark W l' s' /\
    timeout l' = 0 /\
    bytesTilDot l' = rest_count (bytesTilDot l) cs /\
    count is_dot tr = dots (bytesTilDot l) cs /\
    count is_comm_read tr = List.length cs.
Proof.
  induction cs as [|c cs IH]; intros s l Hw Hf Hcs Hd Hm Ht.
  - exists l, s, []. simpl. rewrite !app_nil_r, Nat.add_0_r.
    repeat split; try reflexivity; assumption.
  - inversion Hcs as [|? ? Hc Hcs']; subst. destruct Hd as [Hr Hd].
    destruct (receive_body_data l s c Hw Hf Hc Hr)
      as (l1 & s1 & tr1 & E1 & T1 & S1 & R1 & M1 & O1 & B1 & D1 & C1).
    rewrite <- R1 in Hd.
    destruct (IH s1 l1 Hw Hf Hcs' Hd M1 O1)
      as (l2 & s2 & tr2 & E2 & T2 & S2 & R2 & M2 & O2 & B2 & D2 & C2).
    exists l2, s2, (tr1 ++ tr2). repeat split.
    + intro fuel. simpl. rewrite (bind_val _ _ _ _ _ _ _ E1), O1. simpl. apply E2.
    + rewrite T2, T1, app_assoc. reflexivity.
    + rewrite S2, S1. simpl. rewrite app_assoc. reflexivity.
    + rewrite R2, R1. simpl. lia.
    + exact M2.
    + exact O2.
    + rewrite B2, B1. reflexivity.
    + rewrite count_app, D1, D2, B1. reflexivity.
    + rewrite count_app, C1, C2. reflexivity.
Qed.

(** An iteration in silence, before the window has elapsed. *)
Lemma receive_body_wait l s :
  comm_read W (n_comm_read s) = Some [] ->
  (1000 <? to_DWORD (to_DWORD (tick W (n_tick s)) - lastTicks l)) = false ->
  receive_body W l s =
  (Val l,
   {| n_comm_write := n_comm_write s; n_comm_read := S (n_comm_read s);
      n_file_write := n_file_write s; n_tick := S (n_tick s);
      trace := trace s ++ [EvTick (to_DWORD (tick W (n_tick s)));
                           EvCommRead (Some []); EvSleep 20];
      sink := sink s |}).
Proof.
  intros Hr Ht. run. rewrite Ht. simpl. rewrite Hr. simpl.
  rewrite !firstn_nil. simpl. rewrite <- !app_assoc. reflexivity.
Qed.

(** An iteration in silence, once the window has elapsed. *)
Lemma receive_body_retry l s :
  comm_read W (n_comm_read s) = Some [] ->
  (1000 <? to_DWORD (to_DWORD (tick W (n_tick s)) - lastTicks l)) = true ->
  comm_write W (n_comm_write s) = true ->
  receive_body W l s =
  (Val {| lastTicks := to_long (to_DWORD (tick W (S (n_tick s))));
          bytesTilDot := bytesTilDot l; timeout := timeout l + 1 |},
   {| n_comm_write := S (n_comm_write s); n_comm_read := S (n_comm_read s);
      n_file_write := n_file_write s; n_tick := S (S (n_tick s));
      trace := trace s ++ [EvTick (to_DWORD (tick W (n_tick s)));
                           EvCommWrite read_cmd;
                           EvTick (to_DWORD (tick W (S (n_tick s))));
                           EvPrint MsgColon; EvSleep 10;
                           EvCommRead (Some []); EvSleep 20];
      sink := sink s |}).
Proof.
  intros Hr Ht Hw. run. rewrite Ht. simpl. rewrite Hw. simpl. rewrite Hr. simpl.
  rewrite !firstn_nil. simpl. rewrite <- !app_assoc. reflexivity.
Qed.

Lemma read_cmd_is_request : is_read_request (EvCommWrite read_cmd) = true.
Proof. reflexivity. Qed.

(** Silence: the loop waits until the window has elapsed, asks once
    more, and ends. *)
Lemma silent_phase d : forall s l c,
  port_writable W -> silent_from W (n_comm_read s) ->
  timeout l = 0 ->
  lastTicks l = to_long (to_DWORD (tick W c)) ->
  1000 < to_DWORD (tick W (n_tick s + d) - tick W c) ->
  exists l' s' tr,
    (forall fuel, (d < fuel)%nat -> receive_loop W fuel l s = (Val l', s')) /\
    trace s' = trace s ++ tr /\
    sink s' = sink s /\
    count is_read_request tr = 1%nat /\
    count is_colon tr = 1%nat /\
    count is_dot tr = 0%nat /\
    bytesTilDot l' = bytesTilDot l /\
    timeout l' = MAX_TIMEOUTS.
Proof.
  induction d as [|d IH]; intros s l c Hw Hs Ht Hl Hd;
    destruct (1000 <? to_DWORD (to_DWORD (tick W (n_tick s)) - lastTicks l)) eqn:E.
  1, 3: (do 3 eexists; split;
    [ intros [|fuel] Hfuel; [lia|]; simpl;
      rewrite (bind_val _ _ _ _ _ _ _
                 (receive_body_retry l s (Hs _ (Nat.le_refl _)) E (Hw _)));
      simpl; rewrite Ht; reflexivity
    | simpl; repeat split; try reflexivity; rewrite Ht; reflexivity ]).
  - rewrite Hl, elapsed_eq, Nat.add_0_r in *. apply Z.ltb_ge in E. lia.
  - pose proof (receive_body_wait l s (Hs _ (Nat.le_refl _)) E) as B.
    match type of B with _ = (_, ?s1) => set (s1' := s1) in * end.
    destruct (IH s1' l c Hw) as (l' & s' & tr & R & T & K & C1 & C2 & C3 & B' & O);
      try assumption.
    + intros j Hj. apply Hs. simpl in Hj. lia.
    + simpl. rewrite Nat.add_succ_r in Hd. exact Hd.
    + exists l', s', ([EvTick (to_DWORD (tick W (n_tick s))); EvCommRead (Some []); EvSleep 20] ++ tr).
      split.
      { intros [|fuel] Hfuel; [lia|]. simpl.
        rewrite (bind_val _ _ _ _ _ _ _ B), Ht. simpl. apply R. lia. }
      rewrite T. simpl. rewrite <- app_assoc.
      repeat split; try assumption; try reflexivity.
Qed.

Lemma bytes_read_app tr1 tr2 : bytes_read (tr1 ++ tr2) = bytes_read tr1 ++ bytes_read tr2.
Proof.
  induction tr1 as [|e tr1 IH]; simpl; [reflexivity|].
  destruct e; try exact IH.
  destruct got; [|exact IH]. rewrite IH. apply app_assoc.
Qed.

(** Whatever the clock and the port do, an iteration that completes has
    stored exactly the bytes it read. *)
Lemma retry_if_silent_quiet l s l1 s1 :
  retry_if_silent W l s = (Val l1, s1) ->
  exists tr, trace s1 = trace s ++ tr /\ sink s1 = sink s /\ bytes_read tr = [].
Proof.
  run. destruct (1000 <? _); [destruct (comm_write W _)|]; simpl;
    intro H; inversion H; subst; clear H; simpl;
    rewrite <- ?app_assoc; eexists; repeat split; reflexivity.
Qed.

Lemma store_chunk_faithful l s chunk l2 s2 :
  file_writable W ->
  store_chunk W l chunk s = (Val l2, s2) ->
  exists tr, trace s2 = trace s ++ tr /\ sink s2 = sink s ++ chunk /\ bytes_read tr = [].
Proof.
  intro Hf. unfold store_chunk.
  destruct chunk as [|b chunk].
  - simpl. unfold ret. intro H. inversion H. exists []. rewrite !app_nil_r.
    repeat split; reflexivity.
  - cbn [List.length Nat.ltb Nat.leb].
    unfold bind at 1, WriteFile_output. rewrite Hf, firstn_all.
    destruct (Z.of_nat sizeof_strBuf <? _); run;
      intro H; inversion H; subst; clear H; simpl;
      rewrite <- ?app_assoc; eexists; repeat split; reflexivity.
Qed.

Lemma receive_body_faithful l s l' s' :
  file_writable W ->
  receive_body W l s = (Val l', s') ->
  exists tr, trace s' = trace s ++ tr /\ sink s' = sink s ++ bytes_read tr.
Proof.
  intros Hf. unfold receive_body, bind at 1.
  destruct (retry_if_silent W l s) as [[l1| | |] s1] eqn:E1; try discriminate.
  destruct (retry_if_silent_quiet _ _ _ _ E1) as (tr1 & T1 & S1 & B1).
  unfold bind at 1, ReadFile_comm.
  destruct (option_map _ (comm_read W (n_comm_read s1))) as [chunk|]; [|discriminate].
  unfold bind at 1.
  match goal with |- context [store_chunk W l1 chunk ?s2] => set (s2' := s2) end.
  destruct (store_chunk W l1 chunk s2') as [[l2| | |] s3] eqn:E3; try discriminate.
  destruct (store_chunk_faithful _ _ _ _ _ Hf E3) as (tr3 & T3 & S3 & B3).
  run. intro H. inversion H. subst. clear H. simpl.
  exists (tr1 ++ [EvCommRead (Some chunk)] ++ tr3 ++ [EvSleep 20]). split.
  - rewrite T3. subst s2'. simpl. rewrite T1, <- !app_assoc. reflexivity.
  - rewrite S3. subst s2'. simpl. rewrite S1, bytes_read_app, B1. simpl.
    rewrite bytes_read_app, B3. simpl. rewrite app_nil_r. reflexivity.
Qed.

Lemma receive_loop_faithful fuel : forall l s l' s',
  file_writable W ->
  receive_loop W fuel l s = (Val l', s') ->
  exists tr, trace s' = trace s ++ tr /\ sink s' = sink s ++ bytes_read tr.
Proof.
  induction fuel as [|fuel IH]; intros l s l' s' Hf; simpl; [discriminate|].
  unfold bind at 1.
  destruct (receive_body W l s) as [[l1| | |] s1] eqn:E1; try discriminate.
  destruct (receive_body_faithful _ _ _ _ Hf E1) as (tr1 & T1 & S1).
  destruct (timeout l1 <? MAX_TIMEOUTS).
  - intro H. destruct (IH _ _ _ _ Hf H) as (tr2 & T2 & S2).
    exists (tr1 ++ tr2). rewrite T2, T1, S2, S1, bytes_read_app, !app_assoc.
    split; reflexivity.
  - unfold ret. intro H. inversion H. subst. exists tr1. split; assumption.
Qed.

(** [receive] is the loop between one reading of the clock and the
    terminator. *)
Lemma receive_of_loop fuel s l' s1 :
  receive_loop W fuel (fst (loop_entry W s)) (snd (loop_entry W s)) = (Val l', s1) ->
  receive W fuel s =
  (Val tt,
   {| n_comm_write := S (n_comm_write s1); n_comm_read := n_comm_read s1;
      n_file_write := n_file_write s1; n_tick := n_tick s1;
      trace := trace s1 ++ [EvCommWrite terminator_cmd; EvPrint MsgDone];
      sink := sink s1 |}).
Proof.
  intro H. unfold receive, bind at 1. simpl. simpl in H.
  unfold bind at 1. rewrite H. run. rewrite <- !app_assoc. reflexivity.
Qed.

Lemma receive_inv fuel s s' :
  receive W fuel s = (Val tt, s') ->
  exists l' s1,
    receive_loop W fuel (fst (loop_entry W s)) (snd (loop_entry W s)) = (Val l', s1) /\
    trace s' = trace s1 ++ [EvCommWrite terminator_cmd; EvPrint MsgDone] /\
    sink s' = sink s1.
Proof.
  unfold receive, bind at 1. simpl. unfold bind at 1.
  destruct (receive_loop W fuel _ _) as [[l1| | |] s1] eqn:E; try discriminate.
  run. intro H. inversion H. subst. clear H. simpl.
  exists l1, s1. rewrite <- !app_assoc. repeat split; reflexivity.
Qed.

Lemma loop_entry_mark s : clock_mark W (fst (loop_entry W s)) (snd (loop_entry W s)).
Proof. exists (n_tick s). split; reflexivity. Qed.

(** Chunks, then silence: the loop ends, and this is what it leaves. *)
Lemma loop_chunks_then_silence s l cs :
  port_writable W -> file_writable W -> clock_advances W ->
  Forall chunk_ok cs ->
  delivers W (n_comm_read s) cs ->
  silent_from W (n_comm_read s + List.length cs) ->
  clock_mark W l s -> timeout l = 0 ->
  exists fuel0 l' s' tr,
    (forall fuel, (fuel0 <= fuel)%nat -> receive_loop W fuel l s = (Val l', s')) /\
    trace s' = trace s ++ tr /\
    sink s' = sink s ++ List.concat cs /\
    count is_dot tr = dots (bytesTilDot l) cs /\
    bytesTilDot l' = rest_count (bytesTilDot l) cs.
Proof.
  intros Hw Hf Hc Hcs Hd Hs Hm Ht.
  destruct (data_phase cs s l Hw Hf Hcs Hd Hm Ht)
    as (l1 & s1 & tr1 & E1 & T1 & S1 & R1 & (c1 & N1 & L1) & O1 & B1 & D1 & _).
  destruct (Hc c1) as (j & Hj & Hgap).
  destruct (silent_phase (j - S c1) s1 l1 c1 Hw)
    as (l2 & s2 & tr2 & E2 & T2 & S2 & _ & _ & D2 & B2 & _);
    try assumption.
  { rewrite R1. exact Hs. }
  { rewrite N1. replace (S c1 + (j - S c1))%nat with j by lia. exact Hgap. }
  exists (List.length cs + S (j - S c1))%nat, l2, s2, (tr1 ++ tr2).
  split; [|split; [|split; [|split]]].
  - intros fuel Hfuel.
    replace fuel with (List.length cs + (fuel - List.length cs))%nat by lia.
    rewrite E1. apply E2. lia.
  - rewrite T2, T1, <- app_assoc. reflexivity.
  - rewrite S2, S1. reflexivity.
  - rewrite count_app, D1, D2. lia.
  - rewrite B2, B1. reflexivity.
Qed.

Lemma receive_chunks_then_silence s cs :
  port_writable W -> file_writable W -> clock_advances W ->
  Forall chunk_ok cs ->
  delivers W (n_comm_read s) cs ->
  silent_from W (n_comm_read s + List.length cs) ->
  exists fuel0 s' tr,
    (forall fuel, (fuel0 <= fuel)%nat -> receive W fuel s = (Val tt, s')) /\
    trace s' = trace s ++ tr /\
    sink s' = sink s ++ List.concat cs /\
    count is_dot tr = dots 0 cs.
Proof.
  intros Hw Hf Hc Hcs Hd Hs.
  destruct (loop_chunks_then_silence (snd (loop_entry W s)) (fst (loop_entry W s)) cs
              Hw Hf Hc Hcs Hd Hs (loop_entry_mark s) eq_refl)
    as (fuel0 & l2 & s2 & tr & E & T & K & D & _).
  exists fuel0. eexists.
  exists ([EvTick (to_DWORD (tick W (n_tick s)))] ++ tr
          ++ [EvCommWrite terminator_cmd; EvPrint MsgDone]).
  split; [|split; [|split]].
  - intros fuel Hfuel. apply receive_of_loop with (l' := l2). apply E, Hfuel.
  - simpl. rewrite T. simpl. rewrite <- !app_assoc. reflexivity.
  - simpl. rewrite K. reflexivity.
  - rewrite !count_app, D. simpl. unfold count. simpl. lia.
Qed.

End Receive.

(** ** From the port to the receive loop *)

Section Prelude.

Variable W : world.

Ltac run :=
  unfold open_port, configure_port, identify, transfer, add_extension, open_output,
    arm, terminate_strBuf, CreateFile_port, CreateFile_output, SetCommState,
    SetCommTimeouts, SetupComm, bind, GetTickCount,
    ReadFile_comm, WriteFile_comm, WriteFile_output, printf, Sleep, emit, ret, goto;
  simpl.

Lemma flush_drains stale : forall s fuel,
  Forall chunk_ok stale ->
  delivers W (n_comm_read s) stale ->
  comm_read W (n_comm_read s + List.length stale) = Some [] ->
  (List.length stale < fuel)%nat ->
  flush W fuel s =
  (Val tt,
   {| n_comm_write := n_comm_write s;
      n_comm_read := n_comm_read s + S (List.length stale);
      n_file_write := n_file_write s; n_tick := n_tick s;
      trace := trace s ++ flush_trace stale; sink := sink s |}).
Proof.
  induction stale as [|c stale IH]; intros s [|fuel] Hok Hd He Hfuel;
    try (simpl in Hfuel; lia).
  - simpl in *. rewrite Nat.add_0_r in He. run. rewrite He. simpl.
    rewrite firstn_nil. simpl. rewrite <- !app_assoc.
    repeat f_equal. lia.
  - inversion Hok as [|? ? Hc Hok']; subst. destruct Hd as [Hr Hd].
    cbn [flush]. run. rewrite Hr. simpl. rewrite (firstn_chunk _ Hc).
    replace (0 <? List.length c)%nat with true
      by (symmetry; apply Nat.ltb_lt; apply Hc).
    rewrite IH; simpl; try assumption.
    + rewrite <- !app_assoc. simpl. repeat f_equal. lia.
    + rewrite <- He. f_equal. simpl. lia.
    + simpl in Hfuel. lia.
Qed.

Lemma identify_flushes s fuel stale :
  Forall chunk_ok stale ->
  delivers W (n_comm_read s) stale ->
  comm_read W (n_comm_read s + List.length stale) = Some [] ->
  (List.length stale < fuel)%nat ->
  identify W fuel s =
  (err <- (if comm_write W (n_comm_write s) then WriteFile_comm W ver_cmd else ret false);;
   Sleep 100;;
   r <- (if err then ReadFile_comm W else ret None);;
   match r with
   | None => printf MsgTestPort;; goto 6
   | Some reply =>
       terminate_strBuf (List.length reply);;
       printf (MsgVersion (CLib.until_nul reply))
   end) (after_flush s stale).
Proof.
  intros Hok Hd He Hfuel. unfold identify.
  unfold bind at 1. unfold WriteFile_comm at 1.
  unfold bind at 1. rewrite (flush_drains stale); try assumption.
  simpl. unfold after_flush. rewrite <- app_assoc. reflexivity.
Qed.

Lemma identify_replied s fuel stale reply :
  Forall chunk_ok stale ->
  delivers W (n_comm_read s) stale ->
  comm_read W (n_comm_read s + List.length stale) = Some [] ->
  (List.length stale < fuel)%nat ->
  comm_write W (n_comm_write s) = true ->
  comm_write W (S (n_comm_write s)) = true ->
  comm_read W (n_comm_read s + S (List.length stale)) = Some reply ->
  (List.length reply < sizeof_strBuf)%nat ->
  identify W fuel s =
  (Val tt,
   {| n_comm_write := S (S (n_comm_write s));
      n_comm_read := S (n_comm_read s + S (List.length stale));
      n_file_write := n_file_write s; n_tick := n_tick s;
      trace := trace s ++ EvCommWrite probe_cmd :: flush_trace stale
               ++ [EvCommWrite ver_cmd; EvSleep 100; EvCommRead (Some reply);
                   EvPrint (MsgVersion (CLib.until_nul reply))];
      sink := sink s |}).
Proof.
  intros Hok Hd He Hfuel Hw0 Hw1 Hr Hlen.
  rewrite (identify_flushes s fuel stale); try assumption.
  rewrite Hw0. unfold after_flush. run. rewrite Hw1. simpl. rewrite Hr. simpl.
  rewrite firstn_all2 by lia.
  replace (List.length reply <? sizeof_strBuf)%nat with true
    by (symmetry; apply Nat.ltb_lt; exact Hlen).
  repeat (simpl; rewrite <- app_assoc). reflexivity.
Qed.


(** The version query goes out once the input is cleared. *)
Lemma identify_queries_after_flush s fuel stale :
  Forall chunk_ok stale ->
  delivers W (n_comm_read s) stale ->
  comm_read W (n_comm_read s + List.length stale) = Some [] ->
  (List.length stale < fuel)%nat ->
  comm_write W (n_comm_write s) = true ->
  exists tr,
    trace (snd (identify W fuel s)) =
    trace s ++ EvCommWrite probe_cmd :: flush_trace stale
            ++ EvCommWrite ver_cmd :: tr.
Proof.
  intros Hok Hd He Hfuel Hw.
  rewrite (identify_flushes s fuel stale); try assumption.
  rewrite Hw. unfold after_flush. run.
  destruct (comm_write W (S (n_comm_write s))); simpl;
    [ destruct (option_map _ _) as [reply|]; simpl;
      [ destruct (List.length reply <? sizeof_strBuf)%nat; simpl | ] | ];
    eexists; repeat (simpl; rewrite <- app_assoc); reflexivity.
Qed.

(** Ready port, accepted command line: the session reaches the probe. *)
Lemma session_configured fuel c file :
  port_ready W ->
  session W fuel c file banner_state =
  (identify W fuel;; transfer W fuel c file) (configured_state c).
Proof.
  intros (H1 & H2 & H3 & H4). unfold session.
  unfold bind at 1. unfold open_port, CreateFile_port. run. rewrite H1. simpl.
  rewrite H2. simpl. rewrite H3. simpl. rewrite H4. reflexivity.
Qed.

(** With the port and the file ready, [transfer] reaches the loop. *)
Lemma transfer_armed fuel c file s :
  (String.length file + 4 < sizeof_filename - 1)%nat ->
  file_opens W = true ->
  comm_write W (n_comm_write s) = true ->
  comm_write W (S (n_comm_write s)) = true ->
  transfer W fuel c file s =
  receive W fuel
    {| n_comm_write := S (S (n_comm_write s)); n_comm_read := n_comm_read s;
       n_file_write := n_file_write s; n_tick := n_tick s;
       trace := trace s ++ [EvOpenFile (output_name file);
                            EvCommWrite (arm_cmd (address c)); EvSleep 500;
                            EvCommWrite read_cmd];
       sink := sink s |}.
Proof.
  intros Hlen Hf Hw0 Hw1. unfold transfer, add_extension, output_name.
  replace (String.length file + 4 <? sizeof_filename - 1)%nat with true
    by (symmetry; apply Nat.ltb_lt; exact Hlen).
  destruct (CLib.no_extension file); run; rewrite Hf; simpl; rewrite Hw0; simpl;
    rewrite Hw1; simpl; rewrite <- !app_assoc; reflexivity.
Qed.

End Prelude.

(** ** The sample worlds meet the assumptions *)

Lemma sample_accepted : accepted sample_argv default_config "out.bmp".
Proof.
  exists 1%nat. unfold sample_argv, default_config, argc. simpl.
  repeat split; try reflexivity; try lia.
Qed.

Lemma lab_port_ready reads : port_ready (lab_world reads).
Proof. repeat split. Qed.

Lemma lab_port_writable reads : port_writable (lab_world reads).
Proof. intro k. reflexivity. Qed.

Lemma lab_file_writable reads : file_writable (lab_world reads).
Proof. intros k n. reflexivity. Qed.

Lemma lab_clock_advances reads : clock_advances (lab_world reads).
Proof.
  intro c. exists (c + 4)%nat. split; [lia|].
  cbn [tick lab_world].
  replace (300 * Z.of_nat (c + 4) - 300 * Z.of_nat c) with 1200 by lia.
  reflexivity.
Qed.

Lemma lab_silent_from reads k :
  (List.length reads <= k)%nat -> silent_from (lab_world reads) k.
Proof. intros H j Hj. simpl. apply nth_overflow. lia. Qed.

(** ** The input-clearing loop and the version query *)

Lemma flush_trace_reads stale :
  count is_comm_read (flush_trace stale) = S (List.length stale).
Proof.
  induction stale as [|c stale IH]; [reflexivity|].
  cbn [flush_trace]. rewrite !count_cons, IH. reflexivity.
Qed.

Lemma flush_trace_bytes stale : bytes_read (flush_trace stale) = List.concat stale.
Proof.
  induction stale as [|c stale IH]; [reflexivity|].
  simpl. rewrite IH. reflexivity.
Qed.

Lemma flush_trace_one_empty stale :
  Forall chunk_ok stale ->
  count is_empty_read (flush_trace stale) = 1%nat /\
  last (flush_trace stale) EvLastError = EvCommRead (Some []).
Proof.
  induction 1 as [|c stale Hc _ [IH1 IH2]]; [split; reflexivity|].
  split.
  - cbn [flush_trace]. rewrite !count_cons, IH1.
    destruct c; [destruct Hc as [Hc _]; simpl in Hc; lia | reflexivity].
  - cbn [flush_trace]. destruct stale; exact IH2.
Qed.


(** ** Retries and resets, in every iteration *)

Section Retries.

Variable W : world.

Ltac run :=
  unfold receive_body, retry_if_silent, store_chunk, bind, GetTickCount,
    ReadFile_comm, WriteFile_comm, WriteFile_output, printf, Sleep, emit, ret, goto;
  simpl.

Ltac tally :=
  repeat (rewrite count_app || rewrite count_cons || rewrite count_nil);
  rewrite ?read_cmd_is_request; cbn [is_read_request is_data]; try lia.

Ltac run_in E :=
  unfold receive_body, retry_if_silent, store_chunk, bind, GetTickCount,
    ReadFile_comm, WriteFile_comm, WriteFile_output, printf, Sleep, emit, ret, goto in E;
  simpl in E.

Ltac req Q :=
  tally; rewrite Q;
  match goal with |- context [if ?b then _ else _] => destruct b end; lia.

Lemma retry_if_silent_once l s :
  exists tr,
    trace (snd (retry_if_silent W l s)) = trace s ++ tr /\
    count is_read_request tr = (if window_elapsed W l s then 1 else 0)%nat /\
    count is_data tr = 0%nat /\
    n_comm_read (snd (retry_if_silent W l s)) = n_comm_read s /\
    forall l1, fst (retry_if_silent W l s) = Val l1 ->
      if window_elapsed W l s
      then timeout l1 = timeout l + 1 /\
           lastTicks l1 = to_long (to_DWORD (tick W (S (n_tick s))))
      else l1 = l.
Proof.
  unfold window_elapsed. run.
  destruct (1000 <? _); [destruct (comm_write W _)|]; simpl;
    eexists; (split; [repeat (simpl; rewrite <- app_assoc); reflexivity|]);
    (split; [tally|]); (split; [tally|]);
    (split; [reflexivity|]);
    intros l1 H; inversion H; subst; try (split; reflexivity); reflexivity.
Qed.

(** One iteration, whatever the world answers: at most one request; if
    data came and the iteration completes, [timeout] is 0 and [lastTicks]
    is the latest reading of the clock; if no data came, [timeout] has
    grown by the number of requests. *)
Lemma receive_body_requests l s :
  exists tr,
    trace (snd (receive_body W l s)) = trace s ++ tr /\
    (count is_read_request tr <= 1)%nat /\
    (count is_read_request tr = (if window_elapsed W l s then 1 else 0)%nat) /\
    forall l', fst (receive_body W l s) = Val l' ->
      ((1 <= count is_data tr)%nat ->
         timeout l' = 0 /\ clock_mark W l' (snd (receive_body W l s))) /\
      (count is_data tr = 0%nat ->
         timeout l' = timeout l + Z.of_nat (count is_read_request tr)) /\
      (forall chunk, comm_read W (n_comm_read s) = Some chunk -> chunk <> [] ->
         (1 <= count is_data tr)%nat).
Proof.
  destruct (retry_if_silent_once l s) as (tr1 & T1 & Q1 & D1 & R1 & L1).
  remember (receive_body W l s) as rb eqn:E.
  unfold receive_body, bind at 1 in E.
  destruct (retry_if_silent W l s) as [[l1| | |] s1]; simpl in T1, R1, L1;
    try (subst rb; exists tr1; split; [exact T1|];
         split; [rewrite Q1; destruct (window_elapsed W l s); lia|];
         split; [exact Q1|]; intros l' H; discriminate H).
  specialize (L1 l1 eq_refl).
  unfold bind at 1, ReadFile_comm in E. rewrite R1 in E.
  destruct (comm_read W (n_comm_read s)) as [chunk|]; unfold option_map in E.
  2: { run_in E. subst rb. simpl.
       eexists. split; [rewrite T1; repeat (simpl; rewrite <- app_assoc); reflexivity|].
       split; [req Q1|]. split; [req Q1|]. intros l' H. discriminate H. }
  destruct chunk as [|b chunk].
  - rewrite firstn_nil in E. run_in E. subst rb. simpl.
    eexists. split; [rewrite T1; repeat (simpl; rewrite <- app_assoc); reflexivity|].
    split; [req Q1|]. split; [req Q1|].
    intros l' H. inversion H. subst l'. clear H. split; [|split].
    + tally.
    + intros _. tally. rewrite Q1. destruct (window_elapsed W l s).
      * destruct L1 as [L1 _]. rewrite L1. reflexivity.
      * subst l1. simpl. lia.
    + intros chunk H Hne. inversion H. subst chunk. contradiction.
  - change sizeof_strBuf with (S 1023) in E. cbn [firstn] in E.
    unfold bind at 1, store_chunk in E. cbn [List.length Nat.ltb Nat.leb] in E.
    unfold bind at 1, WriteFile_output in E. cbn [n_file_write] in E.
    destruct (file_write W _ _) as [m|].
    2: { run_in E. subst rb. simpl.
         eexists. split; [rewrite T1; repeat (simpl; rewrite <- app_assoc); reflexivity|].
         split; [req Q1|]. split; [req Q1|]. intros l' H. discriminate H. }
    destruct (Z.of_nat sizeof_strBuf <? _); run_in E; subst rb; simpl;
      (eexists; split; [rewrite T1; repeat (simpl; rewrite <- app_assoc); reflexivity|]);
      (split; [req Q1|]); (split; [req Q1|]);
      intros l' H; inversion H; subst l'; clear H;
      (split; [|split];
       [ intros _; split; [reflexivity | eexists; split; reflexivity]
       | tally
       | intros; tally ]).
Qed.

(** The whole loop, whatever the world answers and however it ends:
    every request but the last is answered by data before the next. *)
Lemma receive_loop_requests fuel : forall l s,
  timeout l = 0 ->
  exists tr,
    trace (snd (receive_loop W fuel l s)) = trace s ++ tr /\
    (count is_read_request tr <= count is_data tr + 1)%nat.
Proof.
  induction fuel as [|fuel IH]; intros l s Ht.
  - exists []. simpl. rewrite app_nil_r. split; [reflexivity | rewrite !count_nil; lia].
  - destruct (receive_body_requests l s) as (tr1 & T1 & Q1 & _ & F1).
    cbn [receive_loop]. unfold bind at 1.
    destruct (receive_body W l s) as [[l'| | |] s1]; simpl in T1, F1;
      try (exists tr1; split; [exact T1 | lia]).
    destruct (F1 l' eq_refl) as (A & B & _).
    destruct (timeout l' <? MAX_TIMEOUTS) eqn:E.
    + apply Z.ltb_lt in E. unfold MAX_TIMEOUTS in E.
      assert (H0 : timeout l' = 0 /\ (count is_read_request tr1 <= count is_data tr1)%nat).
      { destruct (count is_data tr1) as [|n] eqn:D.
        - specialize (B eq_refl). rewrite Ht in B. split; lia.
        - destruct A as [A _]; [lia|]. split; [exact A | lia]. }
      destruct H0 as [H0 H1].
      destruct (IH l' s1 H0) as (tr2 & T2 & Q2).
      exists (tr1 ++ tr2). split.
      * rewrite T2, T1, app_assoc. reflexivity.
      * rewrite !count_app. lia.
    + exists tr1. split; [exact T1 | lia].
Qed.

End Retries.

(** Silence from the start: one retry, then the terminator. *)
Lemma receive_in_silence (W : world) (s : state) :
  port_writable W -> clock_advances W ->
  silent_from W (n_comm_read s) ->
  exists fuel0 s' tr,
    (forall fuel, (fuel0 <= fuel)%nat ->
       receive W fuel s = (Val tt, s') /\
       fst ((err <- at_mainOut (receive W fuel);; cleanup err) s) = Val 0) /\
    trace s' = trace s ++ tr ++ [EvCommWrite terminator_cmd; EvPrint MsgDone] /\
    count is_read_request tr = Z.to_nat MAX_TIMEOUTS /\
    count is_colon tr = Z.to_nat MAX_TIMEOUTS /\
    sink s' = sink s.
Proof.
  intros Hw Hc Hs.
  destruct (Hc (n_tick s)) as (j & Hj & Hgap).
  destruct (silent_phase W (j - S (n_tick s)) (snd (loop_entry W s))
              (fst (loop_entry W s)) (n_tick s) Hw Hs eq_refl eq_refl)
    as (l2 & s2 & tr2 & E2 & T2 & S2 & C2 & C3 & _ & _ & _).
  { simpl. replace (S (n_tick s + (j - S (n_tick s)))) with j by lia. exact Hgap. }
  exists (S (j - S (n_tick s))). eexists.
  exists ([EvTick (to_DWORD (tick W (n_tick s)))] ++ tr2).
  split; [|split; [|split; [|split]]].
  - intros fuel Hfuel.
    assert (R : receive W fuel s = (Val tt, _))
      by (apply receive_of_loop with (l' := l2); apply E2; lia).
    split; [exact R|].
    unfold bind, at_mainOut. rewrite R. reflexivity.
  - simpl. rewrite T2. simpl. rewrite <- !app_assoc. reflexivity.
  - rewrite count_app, C2. reflexivity.
  - rewrite count_app, C3. reflexivity.
  - simpl. rewrite S2. reflexivity.
Qed.

(** ** No call of a given kind in a phase *)

Section Avoids.

Variable W : world.
Variable p : event -> bool.

Lemma avoids_ret A (a : A) : avoids p A (ret a).
Proof. intro s. exists []. rewrite app_nil_r. repeat split. Qed.

Lemma avoids_abort A : avoids p A abort.
Proof. intro s. exists []. rewrite app_nil_r. repeat split. Qed.

Lemma avoids_fuel A : avoids p A out_of_fuel.
Proof. intro s. exists []. rewrite app_nil_r. repeat split. Qed.

Lemma avoids_goto A e : avoids p A (goto e).
Proof. intro s. exists []. rewrite app_nil_r. repeat split. Qed.

Lemma avoids_emit e : p e = false -> avoids p unit (emit e).
Proof.
  intros H s. exists [e]. split; [reflexivity|]. split; [|reflexivity].
  rewrite count_cons, H. reflexivity.
Qed.

Lemma avoids_bind A B (c : M A) (k : A -> M B) :
  avoids p A c -> (forall a, avoids p B (k a)) -> avoids p B (bind c k).
Proof.
  intros Hc Hk s. unfold bind. destruct (Hc s) as (tr1 & T1 & C1 & S1).
  destruct (c s) as [[a|e| |] s1]; simpl in *;
    try (exists tr1; repeat split; assumption).
  destruct (Hk a s1) as (tr2 & T2 & C2 & S2).
  exists (tr1 ++ tr2). rewrite T2, T1, app_assoc, count_app, C1, C2.
  split; [reflexivity|]. split; [reflexivity|].
  intro H. rewrite (S2 H). apply S1, H.
Qed.

Lemma avoids_comm_write d :
  p (EvCommWrite d) = false -> avoids p bool (WriteFile_comm W d).
Proof.
  intros H s. exists [EvCommWrite d]. split; [reflexivity|]. split; [|reflexivity].
  rewrite count_cons, H. reflexivity.
Qed.

Lemma avoids_comm_read :
  (forall r, p (EvCommRead r) = false) -> avoids p _ (ReadFile_comm W).
Proof.
  intros H s. eexists [_]. split; [reflexivity|]. split; [|reflexivity].
  rewrite count_cons, H. reflexivity.
Qed.

Lemma avoids_file_write d :
  (forall d', p (EvFileWrite d') = false) -> avoids p _ (WriteFile_output W d).
Proof.
  intros H s. unfold WriteFile_output.
  destruct (file_write W _ _); eexists [_]; (split; [reflexivity|]);
    (split; [rewrite count_cons, H; reflexivity|]);
    intro H'; specialize (H' []); rewrite H in H'; discriminate H'.
Qed.

Lemma avoids_tick : (forall t, p (EvTick t) = false) -> avoids p Z (GetTickCount W).
Proof.
  intros H s. eexists [_]. split; [reflexivity|]. split; [|reflexivity].
  rewrite count_cons, H. reflexivity.
Qed.

End Avoids.

Ltac avoid :=
  first
    [ apply avoids_ret | apply avoids_abort | apply avoids_fuel | apply avoids_goto
    | apply avoids_comm_write; reflexivity
    | apply avoids_comm_read; intro; reflexivity
    | apply avoids_file_write; intro; reflexivity
    | apply avoids_tick; intro; reflexivity
    | apply avoids_emit; reflexivity
    | apply avoids_bind; [ | intro ]
    | match goal with
      | |- avoids _ _ (if ?b then _ else _) => destruct b
      | |- avoids _ _ (match ?x with _ => _ end) => destruct x
      end ].

Section Opens.

Variable W : world.

Lemma receive_loop_opens_nothing fuel : forall l,
  avoids is_open_file locals (receive_loop W fuel l).
Proof.
  induction fuel as [|fuel IH]; intro l; simpl; [avoid|].
  unfold receive_body, retry_if_silent, store_chunk, Sleep, printf.
  repeat first [apply IH | avoid].
Qed.

Lemma receive_opens_nothing fuel : avoids is_open_file unit (receive W fuel).
Proof.
  unfold receive, printf.
  repeat first [apply receive_loop_opens_nothing | avoid].
Qed.

End Opens.

(** ** The claims *)

(** C1. For any sequence of non-empty read results R1..Rn returned by the
    port during the receive loop, the bytes stored in the output file are
    R1 followed by ... followed by Rn, byte for byte: every run of the
    loop that completes has stored exactly the bytes it read, in order,
    and when the chunks are followed by silence the loop does complete,
    with their concatenation stored. *)
Theorem C1_byte_fidelity (W : world) (s : state) :
  file_writable W ->
  (forall fuel s',
      receive W fuel s = (Val tt, s') ->
      exists tr, trace s' = trace s ++ tr /\
                 sink s' = sink s ++ bytes_read tr) /\
  (forall cs,
      port_writable W -> clock_advances W ->
      Forall chunk_ok cs ->
      delivers W (n_comm_read s) cs ->
      silent_from W (n_comm_read s + List.length cs) ->
      exists fuel0 s',
        (forall fuel, (fuel0 <= fuel)%nat -> receive W fuel s = (Val tt, s')) /\
        sink s' = sink s ++ List.concat cs).
Proof.
  intro Hf. split.
  - intros fuel s' H.
    destruct (receive_inv W fuel s s' H) as (l1 & s1 & E & T & K).
    destruct (receive_loop_faithful W fuel _ _ _ _ Hf E) as (tr & T1 & K1).
    exists ([EvTick (to_DWORD (tick W (n_tick s)))] ++ tr
            ++ [EvCommWrite terminator_cmd; EvPrint MsgDone]).
    split.
    + rewrite T, T1. simpl. rewrite <- !app_assoc. reflexivity.
    + rewrite K, K1. simpl. rewrite bytes_read_app. simpl.
      rewrite app_nil_r. reflexivity.
  - intros cs Hw Hc Hcs Hd Hs.
    destruct (receive_chunks_then_silence W s cs Hw Hf Hc Hcs Hd Hs)
      as (fuel0 & s' & tr & E & _ & K & _).
    exists fuel0, s'. split; assumption.
Qed.

(** C2. If every read of the receive loop returns zero bytes from the
    start, the loop sends exactly [MAX_TIMEOUTS] (one) [+read] retry,
    ends, the terminator is sent, and [main] leaves through [mainOut]
    with [err = 0]: a run of [main] that reaches the loop in silence
    returns 0, with one retry marker printed and nothing stored. *)
Theorem C2_silence_from_start (W : world) :
  port_writable W -> clock_advances W ->
  (forall s,
     silent_from W (n_comm_read s) ->
     exists fuel0 s' tr,
       (forall fuel, (fuel0 <= fuel)%nat ->
          receive W fuel s = (Val tt, s') /\
          fst ((err <- at_mainOut (receive W fuel);; cleanup err) s) = Val 0) /\
       trace s' = trace s ++ tr ++ [EvCommWrite terminator_cmd; EvPrint MsgDone] /\
       count is_read_request tr = Z.to_nat MAX_TIMEOUTS /\
       count is_colon tr = Z.to_nat MAX_TIMEOUTS /\
       sink s' = sink s) /\
  (forall argv c file reply,
     accepted argv c file -> port_ready W -> file_opens W = true ->
     comm_read W 0 = Some [] ->
     comm_read W 1 = Some reply -> (List.length reply < sizeof_strBuf)%nat ->
     silent_from W 2 ->
     exists fuel0 s,
       (forall fuel, (fuel0 <= fuel)%nat -> main W fuel argv initial = (Val 0, s)) /\
       count is_colon (trace s) = Z.to_nat MAX_TIMEOUTS /\
       In (EvCommWrite terminator_cmd) (trace s) /\
       failures (trace s) = [] /\
       sink s = []).
Proof.
  intros Hw Hc. split.
  - intros s Hs. apply receive_in_silence; assumption.
  - intros argv c file reply Hacc Hport Hfo Hr0 Hr1 Hreply Hs.
    pose proof Hacc as (i & _ & _ & _ & _ & _ & Hlen).
    pose proof (identify_replied W (configured_state c) 1 [] reply
                  (Forall_nil _) I Hr0 (Nat.lt_0_1) (Hw _) (Hw _) Hr1 Hreply) as Hid0.
    match type of Hid0 with _ = (_, ?s1) => set (s_id := s1) in * end.
    pose proof (fun fuel => transfer_armed W fuel c file s_id Hlen Hfo (Hw _) (Hw _)) as Harm.
    match type of Harm with forall _, _ = receive _ _ ?s2 => set (s_arm := s2) in * end.
    destruct (receive_in_silence W s_arm Hw Hc Hs)
      as (fuel0 & s' & tr & E & T & _ & C & K).
    exists (S fuel0). eexists. split; [|split; [|split; [|split]]].
    + intros fuel Hfuel.
      rewrite (main_accepted W fuel argv c file Hacc).
      unfold bind at 1, at_mainOut.
      rewrite (session_configured W fuel c file Hport).
      unfold bind at 1.
      rewrite (identify_replied W (configured_state c) fuel [] reply
                 (Forall_nil _) I Hr0 (ltac:(simpl; lia)) (Hw _) (Hw _) Hr1 Hreply).
      fold s_id. rewrite Harm.
      destruct (E fuel) as [E1 _]; [lia|]. rewrite E1.
      unfold cleanup, bind, emit, printf, Sleep, ret. simpl. reflexivity.
    + simpl. rewrite T, !count_app, C. subst s_arm s_id. simpl.
      unfold count. simpl. reflexivity.
    + simpl. rewrite T. apply in_or_app. left. apply in_or_app. left.
      apply in_or_app. left. apply in_or_app. right.
      apply in_or_app. right. left. reflexivity.
    + pose proof (session_reports W (S fuel0) c file banner_state) as R.
      rewrite (session_configured W (S fuel0) c file Hport) in R.
      unfold bind at 1 in R.
      rewrite (identify_replied W (configured_state c) (S fuel0) [] reply
                 (Forall_nil _) I Hr0 (ltac:(simpl; lia)) (Hw _) (Hw _) Hr1 Hreply) in R.
      fold s_id in R. rewrite Harm in R.
      destruct (E (S fuel0)) as [E1 _]; [lia|]. rewrite E1 in R.
      simpl. rewrite !failures_app, R. reflexivity.
    + simpl. rewrite K. reflexivity.
Qed.





(** C5, as the code has it.  Address 1, baud 230400, a non-empty reply
    to the version query, then chunks of 512, 512 and 10 bytes, then
    silence: the port is set to 230400 baud, the instrument at address 1 is
    armed, [main] returns 0, one progress marker is printed, and the
    progress count left after the marker is 10.  The output file is
    opened once, before anything is written, and the run writes the 1034
    bytes of the three chunks, in order, from its start.  The file is not
    truncated: it holds exactly the 1034 bytes if it did not exist or held
    no more than 1034 bytes before, and otherwise the 1034 bytes followed
    by what it held beyond them. *)
Theorem C5_scenario_A (W : world) (argv : list string) (c : config)
    (file : string) (reply c1 c2 c3 : list byte) :
  accepted argv c file -> address c = 1 -> baud c = 230400 ->
  port_ready W -> port_writable W ->
  file_opens W = true -> file_writable W ->
  clock_advances W ->
  comm_read W 0 = Some [] ->
  comm_read W 1 = Some reply ->
  (0 < List.length reply < sizeof_strBuf)%nat ->
  delivers W 2 [c1; c2; c3] ->
  List.length c1 = 512%nat -> List.length c2 = 512%nat -> List.length c3 = 10%nat ->
  silent_from W 5 ->
  (exists fuel0 s,
     (forall fuel, (fuel0 <= fuel)%nat -> main W fuel argv initial = (Val 0, s)) /\
     sink s = c1 ++ c2 ++ c3 /\
     List.length (sink s) = 1034%nat /\
     count is_dot (trace s) = 1%nat /\
     In (EvSetCommState 230400) (trace s) /\
     In (EvCommWrite (arm_cmd 1)) (trace s) /\
     (exists pre post,
        trace s = pre ++ EvOpenFile (output_name file) :: post /\
        count is_open_file pre = 0%nat /\
        count is_file_write pre = 0%nat /\
        count is_open_file post = 0%nat) /\
     (forall old,
        file_content old s = c1 ++ c2 ++ c3 ++ skipn 1034 old) /\
     (forall old,
        (List.length old <= 1034)%nat ->
        file_content old s = c1 ++ c2 ++ c3 /\
        List.length (file_content old s) = 1034%nat)) /\
  (forall s l,
     clock_mark W l s -> timeout l = 0 -> bytesTilDot l = 0 ->
     delivers W (n_comm_read s) [c1; c2; c3] ->
     silent_from W (n_comm_read s + 3) ->
     exists fuel0 l' s',
       (forall fuel, (fuel0 <= fuel)%nat -> receive_loop W fuel l s = (Val l', s')) /\
       bytesTilDot l' = 10).
Proof.
  intros Hacc Haddr Hbaud Hport Hw Hfo Hf Hc Hr0 Hr1 Hreply Hd L1 L2 L3 Hs.
  assert (Hcs : Forall chunk_ok [c1; c2; c3]).
  { apply Forall_cons; [|apply Forall_cons; [|apply Forall_cons; [|apply Forall_nil]]];
      unfold chunk_ok; rewrite ?L1, ?L2, ?L3;
      change sizeof_strBuf with 1024%nat; lia. }
  assert (Hdots : dots 0 [c1; c2; c3] = 1%nat)
    by (cbn [dots]; rewrite L1, L2, L3; vm_compute; reflexivity).
  assert (Hrest : rest_count 0 [c1; c2; c3] = 10)
    by (cbn [rest_count]; rewrite L1, L2, L3; vm_compute; reflexivity).
  assert (Hsize : List.length (c1 ++ c2 ++ c3) = 1034%nat)
    by (rewrite !length_app, L1, L2, L3; reflexivity).
  split.
  - pose proof Hacc as (i & _ & _ & _ & _ & _ & Hlen).
    pose proof (identify_replied W (configured_state c) 1 [] reply
                  (Forall_nil _) I Hr0 (Nat.lt_0_1) (Hw _) (Hw _) Hr1 (proj2 Hreply)) as Hid0.
    match type of Hid0 with _ = (_, ?s1) => set (s_id := s1) in * end.
    pose proof (fun fuel => transfer_armed W fuel c file s_id Hlen Hfo (Hw _) (Hw _)) as Harm.
    match type of Harm with forall _, _ = receive _ _ ?s2 => set (s_arm := s2) in * end.
    destruct (receive_chunks_then_silence W s_arm [c1; c2; c3] Hw Hf Hc Hcs Hd Hs)
      as (fuel0 & s' & tr & E & T & K & D).
    assert (Hopen : count is_open_file tr = 0%nat).
    { destruct (receive_opens_nothing W fuel0 s_arm) as (tr' & T' & C' & _).
      rewrite (E fuel0 (Nat.le_refl _)) in T'. cbn [snd] in T'.
      rewrite T in T'. apply app_inv_head in T'. subst tr'. exact C'. }
    assert (Ksink : sink s' = c1 ++ c2 ++ c3)
      by (rewrite K; simpl; rewrite app_nil_r; reflexivity).
    exists (S fuel0). eexists.
    split; [|split; [|split; [|split; [|split; [|split; [|split; [|split]]]]]]].
    + intros fuel Hfuel.
      rewrite (main_accepted W fuel argv c file Hacc).
      unfold bind at 1, at_mainOut.
      rewrite (session_configured W fuel c file Hport).
      unfold bind at 1.
      rewrite (identify_replied W (configured_state c) fuel [] reply
                 (Forall_nil _) I Hr0 (ltac:(simpl; lia)) (Hw _) (Hw _) Hr1 (proj2 Hreply)).
      fold s_id. rewrite Harm, (E fuel) by lia.
      unfold cleanup, bind, emit, printf, Sleep, ret. simpl. reflexivity.
    + simpl. exact Ksink.
    + simpl. rewrite Ksink. exact Hsize.
    + simpl. rewrite T, !count_app, D, Hdots. subst s_arm s_id. simpl.
      unfold count. simpl. reflexivity.
    + simpl. rewrite T. subst s_arm s_id. simpl. rewrite Hbaud.
      right. right. left. reflexivity.
    + simpl. rewrite T. subst s_arm s_id. simpl. rewrite Haddr.
      do 13 right. left. reflexivity.
    + exists (trace s_id),
        ([EvCommWrite (arm_cmd (address c)); EvSleep 500; EvCommWrite read_cmd]
         ++ tr ++ [EvCloseComm; EvCloseFile; EvSleep 500]).
      split; [|split; [|split]].
      * simpl. rewrite T. subst s_arm. simpl. rewrite <- !app_assoc. reflexivity.
      * subst s_id. reflexivity.
      * subst s_id. reflexivity.
      * repeat (rewrite count_app || rewrite count_cons || rewrite count_nil).
        rewrite Hopen. reflexivity.
    + intro old. unfold file_content. simpl. rewrite Ksink, Hsize, <- !app_assoc.
      reflexivity.
    + intros old Hb. unfold file_content. simpl. rewrite Ksink, Hsize.
      rewrite skipn_all2 by exact Hb. rewrite app_nil_r. split; [reflexivity | exact Hsize].
  - intros s l Hm Ht Hb Hd' Hs'.
    destruct (loop_chunks_then_silence W s l [c1; c2; c3] Hw Hf Hc Hcs Hd' Hs' Hm Ht)
      as (fuel0 & l' & s' & tr & E & _ & _ & _ & B).
    exists fuel0, l', s'. split; [exact E|]. rewrite B, Hb. exact Hrest.
Qed.

(** The output file is there before the run and holds 2000 bytes: the
    run of scenario A returns 0 and leaves a file of 2000 bytes, the three
    chunks followed by the last 966 bytes of what was there. *)
Lemma C5_longer_file_kept :
  fst (main scenario_A 8 sample_argv initial) = Val 0 /\
  List.length old_file = 2000%nat /\
  List.length (file_content old_file (snd (main scenario_A 8 sample_argv initial)))
    = 2000%nat /\
  file_content old_file (snd (main scenario_A 8 sample_argv initial))
    = chunk_a ++ chunk_b ++ chunk_c ++ repeat Byte.xff 966.
Proof.
  split; [vm_compute; reflexivity|]. split; [vm_compute; reflexivity|].
  split; vm_compute; reflexivity.
Qed.

(** C6. In every iteration of the receive loop at most one [+read] retry
    is sent, and only when more than 1000 ms have passed since [lastTicks];
    the retry restarts that window.  When a read returns more than zero
    bytes and the iteration completes, [timeout] is 0 and [lastTicks] is the
    latest reading of the clock.  Over a whole run of the loop, every retry
    but the last is followed by data before the next one. *)
Theorem C6_retry_and_reset (W : world) (l : locals) (s : state) :
  (exists tr,
     trace (snd (receive_body W l s)) = trace s ++ tr /\
     (count is_read_request tr <= 1)%nat /\
     count is_read_request tr = (if window_elapsed W l s then 1 else 0)%nat) /\
  (forall l1,
     fst (retry_if_silent W l s) = Val l1 ->
     window_elapsed W l s = true ->
     timeout l1 = timeout l + 1 /\
     lastTicks l1 = to_long (to_DWORD (tick W (S (n_tick s))))) /\
  (forall chunk l',
     comm_read W (n_comm_read s) = Some chunk -> chunk <> [] ->
     fst (receive_body W l s) = Val l' ->
     timeout l' = 0 /\ clock_mark W l' (snd (receive_body W l s))) /\
  (forall fuel,
     timeout l = 0 ->
     exists tr,
       trace (snd (receive_loop W fuel l s)) = trace s ++ tr /\
       (count is_read_request tr <= count is_data tr + 1)%nat).
Proof.
  split; [|split; [|split]].
  - destruct (receive_body_requests W l s) as (tr & T & Q & Qw & _).
    exists tr. repeat split; assumption.
  - intros l1 H E.
    destruct (retry_if_silent_once W l s) as (tr & _ & _ & _ & _ & L).
    specialize (L l1 H). rewrite E in L. exact L.
  - intros chunk l' Hr Hne H.
    destruct (receive_body_requests W l s) as (tr & _ & _ & _ & F).
    destruct (F l' H) as (A & _ & C). apply A. apply (C chunk Hr Hne).
  - intros fuel Ht. apply receive_loop_requests. exact Ht.
Qed.

(** C7. With N > 0 stale bytes pending, delivered by the port as the
    chunks [stale], and nothing after them, the input-clearing loop makes
    one read per chunk and one more, the only one that returns zero bytes
    and the last; the reads have taken all N bytes; and the version query
    is written only after that. *)
Theorem C7_flush_drains (W : world) (s : state) (fuel : nat)
    (stale : list (list byte)) (N : nat) :
  Forall chunk_ok stale ->
  List.length (List.concat stale) = N -> (0 < N)%nat ->
  delivers W (n_comm_read s) stale ->
  comm_read W (n_comm_read s + List.length stale) = Some [] ->
  (List.length stale < fuel)%nat ->
  (exists s',
     flush W fuel s = (Val tt, s') /\
     trace s' = trace s ++ flush_trace stale /\
     n_comm_read s' = (n_comm_read s + List.length stale + 1)%nat) /\
  count is_comm_read (flush_trace stale) = (List.length stale + 1)%nat /\
  List.length (bytes_read (flush_trace stale)) = N /\
  count is_empty_read (flush_trace stale) = 1%nat /\
  last (flush_trace stale) EvLastError = EvCommRead (Some []) /\
  (comm_write W (n_comm_write s) = true ->
   exists tr,
     trace (snd (identify W fuel s)) =
     trace s ++ EvCommWrite probe_cmd :: flush_trace stale
             ++ EvCommWrite ver_cmd :: tr).
Proof.
  intros Hok HN Hpos Hd He Hfuel.
  destruct (flush_trace_one_empty stale Hok) as [H1 H2].
  split; [|split; [|split; [|split; [|split]]]].
  - eexists. split; [apply (flush_drains W stale); assumption|]. simpl.
    split; [reflexivity | lia].
  - rewrite flush_trace_reads. lia.
  - rewrite flush_trace_bytes. exact HN.
  - exact H1.
  - exact H2.
  - intro Hw. apply identify_queries_after_flush; assumption.
Qed.

(** C8, as the code has it.  The twelve failure kinds have twelve
    different exit codes, 1 to 12; every return of [main] with a code other
    than 0 has reported exactly one failure, and the code is the one of
    that failure's kind; and every kind occurs.  The kinds are not one to
    one with the failure branches: the command-write kind has two. *)
Theorem C8_exit_codes :
  (forall k1 k2, exit_code_of k1 = exit_code_of k2 -> k1 = k2) /\
  (forall k, 1 <= exit_code_of k <= 12) /\
  (forall W fuel argv e s,
     main W fuel argv initial = (Val e, s) ->
     (e = 0 /\ failures (trace s) = []) \/
     (exists k, e = exit_code_of k /\ failures (trace s) = [k])) /\
  (forall k,
     fst (main (fst (failing_run k)) 8 (snd (failing_run k)) initial)
       = Val (exit_code_of k) /\
     failures (trace (snd (main (fst (failing_run k)) 8 (snd (failing_run k)) initial)))
       = [k]).
Proof.
  split; [exact exit_code_of_inj|]. split; [exact exit_code_of_pos|].
  split; [intros W fuel argv e s; apply main_reports|].
  intro k. destruct k; split; vm_compute; reflexivity.
Qed.

(** The command-write kind has two failure branches, and both return 8:
    the write of the address, mode and trigger line (lines 206-209), and
    the write of the first [+read] (lines 212-215). *)
Lemma C8_two_branches_return_8 :
  let r1 := main (write_fails_at 2 (lab_world [])) 1 sample_argv initial in
  let r2 := main (write_fails_at 3 (lab_world [])) 1 sample_argv initial in
  (fst r1 = Val 8 /\ fst r2 = Val 8) /\
  (failures (trace (snd r1)) = [CommandWriteFailure] /\
   failures (trace (snd r2)) = [CommandWriteFailure]) /\
  (last_comm_write (trace (snd r1)) = Some (arm_cmd 1) /\
   last_comm_write (trace (snd r2)) = Some read_cmd) /\
  bytes_eqb (arm_cmd 1) read_cmd = false.
Proof. vm_compute. repeat split; reflexivity. Qed.

(** C9. If opening the serial port fails, [main] returns 4 and the
    output file is never opened: no [CreateFile] on the file name is among
    the calls made. *)
Theorem C9_port_open_failure (W : world) (fuel : nat) (argv : list string)
    (c : config) (file : string) :
  accepted argv c file ->
  port_opens W = false ->
  exists s,
    main W fuel argv initial = (Val 4, s) /\
    trace s = [EvPrint MsgBanner; EvOpenPort (portname c);
               EvPrint (MsgOpenPort (portname c));
               EvLastError; EvPrint MsgSystemError;
               EvCloseComm; EvCloseFile; EvSleep 500] /\
    count is_open_file (trace s) = 0%nat /\
    sink s = [].
Proof.
  intros Hacc Hport. rewrite (main_accepted W fuel argv c file Hacc).
  unfold session, open_port, CreateFile_port, bind, at_mainOut. simpl.
  rewrite Hport. simpl. eexists. split; [reflexivity|]. simpl.
  repeat split; reflexivity.
Qed.

(** C10 fails on the code: [ReadFile] is given the whole of [strBuf], so
    a reply can be [sizeof(strBuf)] bytes long, and then
    [strBuf[numBytes] = 0] writes one byte past the end of the buffer. *)
Theorem C10_reply_fills_strBuf :
  comm_read (lab_world [Some []; Some full_reply]) 1 = Some full_reply /\
  List.length full_reply = sizeof_strBuf /\
  (forall s, terminate_strBuf (List.length full_reply) s = (Abort, s)) /\
  fst (main (lab_world [Some []; Some full_reply]) 1 sample_argv initial) = Abort /\
  last (trace (snd (main (lab_world [Some []; Some full_reply]) 1 sample_argv initial)))
       EvLastError = EvCommRead (Some full_reply).
Proof.
  split; [reflexivity|]. split; [vm_compute; reflexivity|].
  split; [intro s; vm_compute; reflexivity|].
  split; vm_compute; reflexivity.
Qed.

(** ** The claims at sample inputs *)

Lemma two_chunks_ok : Forall chunk_ok two_chunks.
Proof.
  unfold two_chunks. repeat (apply Forall_cons || apply Forall_nil);
    unfold chunk_ok; change sizeof_strBuf with 1024%nat; simpl; lia.
Qed.

Lemma two_chunks_delivered : delivers two_chunks_world 0 two_chunks.
Proof. simpl. repeat split. Qed.

Lemma scenario_A_chunks :
  Forall chunk_ok [chunk_a; chunk_b; chunk_c] /\
  delivers scenario_A 2 [chunk_a; chunk_b; chunk_c].
Proof.
  split; [|simpl; repeat split].
  repeat (apply Forall_cons || apply Forall_nil);
    unfold chunk_ok, chunk_a, chunk_b, chunk_c; rewrite repeat_length;
    change sizeof_strBuf with 1024%nat; lia.
Qed.

(** Two chunks, then silence, on the sample bench. *)
Lemma C1_witness :
  file_writable two_chunks_world /\
  exists fuel0 s',
    (forall fuel, (fuel0 <= fuel)%nat ->
       receive two_chunks_world fuel initial = (Val tt, s')) /\
    sink s' = sink initial ++ List.concat two_chunks.
Proof.
  split; [apply lab_file_writable|].
  apply (proj2 (C1_byte_fidelity two_chunks_world initial (lab_file_writable _))).
  - apply lab_port_writable.
  - apply lab_clock_advances.
  - exact two_chunks_ok.
  - exact two_chunks_delivered.
  - apply lab_silent_from. simpl. lia.
Defined.

(** Silence from the start, on the sample bench. *)
Lemma C2_witness :
  exists fuel0 s,
    (forall fuel, (fuel0 <= fuel)%nat ->
       main (lab_world []) fuel sample_argv initial = (Val 0, s)) /\
    count is_colon (trace s) = Z.to_nat MAX_TIMEOUTS /\
    In (EvCommWrite terminator_cmd) (trace s) /\
    failures (trace s) = [] /\
    sink s = [].
Proof.
  assert (Hlen : (List.length (@nil byte) < sizeof_strBuf)%nat)
    by (change sizeof_strBuf with 1024%nat; simpl; lia).
  assert (Hs : silent_from (lab_world []) 2) by (apply lab_silent_from; simpl; lia).
  exact (proj2 (C2_silence_from_start (lab_world [])
                  (lab_port_writable []) (lab_clock_advances []))
               sample_argv default_config "out.bmp"%string []
               sample_accepted (lab_port_ready []) eq_refl eq_refl eq_refl Hlen Hs).
Defined.



(** Scenario A on the sample bench. *)
Lemma C5_witness :
  exists fuel0 s,
    (forall fuel, (fuel0 <= fuel)%nat ->
       main scenario_A fuel sample_argv initial = (Val 0, s)) /\
    sink s = chunk_a ++ chunk_b ++ chunk_c /\
    List.length (sink s) = 1034%nat /\
    count is_dot (trace s) = 1%nat /\
    In (EvSetCommState 230400) (trace s) /\
    In (EvCommWrite (arm_cmd 1)) (trace s) /\
    (exists pre post,
       trace s = pre ++ EvOpenFile (output_name "out.bmp") :: post /\
       count is_open_file pre = 0%nat /\
       count is_file_write pre = 0%nat /\
       count is_open_file post = 0%nat) /\
    (forall old,
       file_content old s = chunk_a ++ chunk_b ++ chunk_c ++ skipn 1034 old) /\
    (forall old,
       (List.length old <= 1034)%nat ->
       file_content old s = chunk_a ++ chunk_b ++ chunk_c /\
       List.length (file_content old s) = 1034%nat).
Proof.
  assert (Hreply : (0 < List.length [Byte.x41] < sizeof_strBuf)%nat)
    by (change sizeof_strBuf with 1024%nat; simpl; lia).
  assert (Hsilent : silent_from scenario_A 5)
    by (apply lab_silent_from; simpl; lia).
  exact (proj1 (C5_scenario_A scenario_A sample_argv default_config "out.bmp"
                  [Byte.x41] chunk_a chunk_b chunk_c
                  sample_accepted eq_refl eq_refl
                  (lab_port_ready _) (lab_port_writable _) eq_refl
                  (lab_file_writable _) (lab_clock_advances _)
                  eq_refl eq_refl Hreply (proj2 scenario_A_chunks)
                  (repeat_length _ _) (repeat_length _ _) (repeat_length _ _)
                  Hsilent)).
Defined.

(** The loop in silence, from the start of the sample bench. *)
Lemma C6_witness :
  timeout fresh_locals = 0 /\
  exists tr,
    trace (snd (receive_loop (lab_world []) 8 fresh_locals initial)) = trace initial ++ tr /\
    (count is_read_request tr <= count is_data tr + 1)%nat.
Proof.
  split; [reflexivity|].
  apply (proj2 (proj2 (proj2 (C6_retry_and_reset (lab_world []) fresh_locals initial)))).
  reflexivity.
Defined.

(** Four stale bytes in two chunks. *)
Lemma C7_witness :
  (exists s',
     flush two_chunks_world 3 initial = (Val tt, s') /\
     trace s' = trace initial ++ flush_trace two_chunks /\
     n_comm_read s' = (n_comm_read initial + List.length two_chunks + 1)%nat) /\
  count is_comm_read (flush_trace two_chunks) = (List.length two_chunks + 1)%nat /\
  List.length (bytes_read (flush_trace two_chunks)) = 4%nat /\
  count is_empty_read (flush_trace two_chunks) = 1%nat /\
  last (flush_trace two_chunks) EvLastError = EvCommRead (Some []) /\
  (comm_write two_chunks_world (n_comm_write initial) = true ->
   exists tr,
     trace (snd (identify two_chunks_world 3 initial)) =
     trace initial ++ EvCommWrite probe_cmd :: flush_trace two_chunks
                   ++ EvCommWrite ver_cmd :: tr).
Proof.
  apply (C7_flush_drains two_chunks_world initial 3 two_chunks 4).
  - exact two_chunks_ok.
  - reflexivity.
  - lia.
  - exact two_chunks_delivered.
  - reflexivity.
  - simpl. lia.
Defined.

(** A port that does not open. *)
Lemma C8_witness :
  main (port_closed (lab_world [])) 0 sample_argv initial =
    (Val 4, snd (main (port_closed (lab_world [])) 0 sample_argv initial)) /\
  ((4 = 0 /\
    failures (trace (snd (main (port_closed (lab_world [])) 0 sample_argv initial))) = []) \/
   (exists k, 4 = exit_code_of k /\
      failures (trace (snd (main (port_closed (lab_world [])) 0 sample_argv initial))) = [k])).
Proof.
  split; [reflexivity|].
  apply (proj1 (proj2 (proj2 C8_exit_codes))
           (port_closed (lab_world [])) 0%nat sample_argv 4
           (snd (main (port_closed (lab_world [])) 0 sample_argv initial))).
  reflexivity.
Defined.

(** A port that does not open, with the default settings. *)
Lemma C9_witness :
  exists s,
    main (port_closed (lab_world [])) 0 sample_argv initial = (Val 4, s) /\
    trace s = [EvPrint MsgBanner; EvOpenPort (portname default_config);
               EvPrint (MsgOpenPort (portname default_config));
               EvLastError; EvPrint MsgSystemError;
               EvCloseComm; EvCloseFile; EvSleep 500] /\
    count is_open_file (trace s) = 0%nat /\
    sink s = [].
Proof.
  apply (C9_port_open_failure (port_closed (lab_world [])) 0 sample_argv
           default_config "out.bmp" sample_accepted).
  reflexivity.
Defined.

(** ** The argument loop, word by word *)

Lemma arg_at pre x l : arg (pre ++ x :: l) (List.length pre) = Some x.
Proof.
  unfold arg. rewrite nth_error_app2 by lia. rewrite Nat.sub_diag. reflexivity.
Qed.

Lemma arg_next pre x y l : arg (pre ++ x :: y :: l) (S (List.length pre)) = Some y.
Proof.
  unfold arg. rewrite nth_error_app2 by lia.
  replace (S (List.length pre) - List.length pre)%nat with 1%nat by lia. reflexivity.
Qed.

Lemma is_option_false v :
  is_option v = false ->
  is_flag v "-p" = false /\ is_flag v "-b" = false /\ is_flag v "-a" = false.
Proof.
  unfold is_option. intro H.
  apply orb_false_iff in H. destruct H as [H H3].
  apply orb_false_iff in H. destruct H as [H1 H2]. repeat split; assumption.
Qed.

Ltac flag_eval :=
  repeat match goal with
  | |- context [String.eqb ?a ?b] =>
      let r := eval vm_compute in (String.eqb a b) in
      match r with
      | true => change (String.eqb a b) with true
      | false => change (String.eqb a b) with false
      end
  end;
  cbv iota.

(** One pass of the loop over an option and its value. *)
Lemma parse_body_opt pre f v rest c :
  item_ok (Opt f v) ->
  parse_body (pre ++ flag_name f :: v :: rest) (List.length pre) c =
  Some (S (List.length pre), set_item c (Opt f v)).
Proof.
  intros [Hv Hlen]. destruct (is_option_false v Hv) as (V1 & V2 & V3).
  unfold is_flag in V1, V2, V3.
  unfold parse_body, is_flag. rewrite arg_at.
  destruct f; cbn [flag_name set_item]; flag_eval.
  - rewrite arg_next.
    replace (String.length v + 4 <? sizeof_portname)%nat with true
      by (symmetry; apply Nat.ltb_lt; apply Hlen; reflexivity).
    rewrite arg_next, V2, arg_next, V3. reflexivity.
  - rewrite arg_at. flag_eval. rewrite arg_next, arg_next, V3. reflexivity.
  - rewrite arg_at. flag_eval. rewrite arg_at. flag_eval. rewrite arg_next. reflexivity.
Qed.

Lemma parse_body_stray pre w rest c :
  is_option w = false ->
  parse_body (pre ++ w :: rest) (List.length pre) c = Some (List.length pre, c).
Proof.
  intro Hw. destruct (is_option_false w Hw) as (V1 & V2 & V3).
  unfold parse_body. rewrite arg_at, V1, arg_at, V2, arg_at, V3. reflexivity.
Qed.

Lemma parse_loop_items file items : forall pre c n,
  Forall item_ok items ->
  (List.length items <= n)%nat ->
  parse_loop n (pre ++ flat_map item_words items ++ [file]) (List.length pre) c =
  Some ((List.length pre + List.length (flat_map item_words items))%nat,
        fold_left set_item items c).
Proof.
  induction items as [|it items IH]; intros pre c n Hok Hn.
  - simpl. destruct n; simpl;
      replace (List.length pre <? argc (pre ++ [file]) - 1)%nat with false
        by (symmetry; apply Nat.ltb_ge; unfold argc; rewrite length_app; simpl; lia);
      rewrite Nat.add_0_r; reflexivity.
  - inversion Hok as [|? ? Hit Hok']; subst.
    destruct n as [|n]; [simpl in Hn; lia|].
    cbn [flat_map parse_loop].
    replace (List.length pre <? _)%nat with true
      by (symmetry; apply Nat.ltb_lt; unfold argc; rewrite !length_app;
          destruct it; simpl; lia).
    destruct it as [f v|w]; cbn [item_words].
    + cbn [app]. rewrite (parse_body_opt pre f v _ c Hit).
      replace (pre ++ flag_name f :: v :: flat_map item_words items ++ [file])
        with ((pre ++ [flag_name f; v]) ++ flat_map item_words items ++ [file])
        by (rewrite <- app_assoc; reflexivity).
      replace (S (S (List.length pre))) with (List.length (pre ++ [flag_name f; v]))
        by (rewrite length_app; simpl; lia).
      rewrite IH; [|exact Hok'|simpl in Hn; lia].
      rewrite !length_app. simpl. f_equal. f_equal. lia.
    + cbn [app]. rewrite (parse_body_stray pre w _ c Hit).
      replace (pre ++ w :: flat_map item_words items ++ [file])
        with ((pre ++ [w]) ++ flat_map item_words items ++ [file])
        by (rewrite <- app_assoc; reflexivity).
      replace (S (List.length pre)) with (List.length (pre ++ [w]))
        by (rewrite length_app; simpl; lia).
      rewrite IH; [|exact Hok'|simpl in Hn; lia].
      rewrite !length_app. simpl. f_equal. f_equal. lia.
Qed.

Lemma length_items items : (List.length items <= List.length (flat_map item_words items))%nat.
Proof.
  induction items as [|it items IH]; simpl; [lia|].
  rewrite length_app. destruct it; simpl; lia.
Qed.

(** The loop over a command line of this shape. *)
Lemma parse_args_command_line (prog : string) (items : list item) (file : string) :
  Forall item_ok items ->
  let argv := command_line prog items file in
  parse_args argv =
    Some ((argc argv - 1)%nat, fold_left set_item items default_config) /\
  arg argv (argc argv - 1) = Some file.
Proof.
  intros Hok argv.
  assert (Hargc : argc argv = S (S (List.length (flat_map item_words items)))).
  { unfold argv, command_line, argc. simpl. rewrite length_app. simpl. lia. }
  split.
  - unfold parse_args. rewrite Hargc.
    unfold argv, command_line.
    change (prog :: flat_map item_words items ++ [file])
      with ([prog] ++ flat_map item_words items ++ [file]).
    change 1%nat with (List.length [prog]) at 1.
    rewrite parse_loop_items; [|exact Hok|pose proof (length_items items); lia].
    reflexivity.
  - rewrite Hargc. unfold argv, command_line.
    replace (S (S (List.length (flat_map item_words items))) - 1)%nat
      with (List.length (prog :: flat_map item_words items)) by (simpl; lia).
    change (prog :: flat_map item_words items ++ [file])
      with ((prog :: flat_map item_words items) ++ [file]).
    apply arg_at.
Qed.

(** Every pass of the loop ends on an argument that exists. *)
Lemma parse_body_bound argv i c i' c' :
  parse_body argv i c = Some (i', c') -> (i' < argc argv)%nat.
Proof.
  unfold parse_body.
  repeat match goal with
  | |- context [match arg ?a ?j with _ => _ end] => destruct (arg a j) eqn:?
  | |- context [if ?b then _ else _] => destruct b
  end; try discriminate;
    intro H; inversion H; subst;
    apply nth_error_Some; unfold arg in *; congruence.
Qed.

Lemma parse_loop_bound n : forall argv i c i' c',
  (i <= argc argv)%nat ->
  parse_loop n argv i c = Some (i', c') ->
  (argc argv - 1 <= i' <= argc argv)%nat.
Proof.
  induction n as [|n IH]; intros argv i c i' c' Hi; simpl;
    destruct (i <? argc argv - 1)%nat eqn:E; try discriminate;
    try (intro H; inversion H; subst; apply Nat.ltb_ge in E; lia).
  destruct (parse_body argv i c) as [[i1 c1]|] eqn:B; [|discriminate].
  apply parse_body_bound in B. apply IH. lia.
Qed.

(** ** [strtol] and decimal numerals *)

Lemma digits_acc d : forall acc,
  CLib.digits (NilEmpty.string_of_uint d) (Z.pos acc) = Z.pos (Pos.of_uint_acc d acc).
Proof.
  induction d; intro acc; cbn [NilEmpty.string_of_uint CLib.digits Pos.of_uint_acc];
    try reflexivity;
    match goal with |- context [CLib.digit_of ?c] =>
      let r := eval vm_compute in (CLib.digit_of c) in
      change (CLib.digit_of c) with r
    end; cbv iota;
    rewrite <- IHd; f_equal; lia.
Qed.

Lemma digits_uint d :
  CLib.digits (NilEmpty.string_of_uint d) 0 = Z.of_uint d.
Proof.
  unfold Z.of_uint.
  induction d; cbn [NilEmpty.string_of_uint CLib.digits Pos.of_uint];
    try reflexivity;
    match goal with |- context [CLib.digit_of ?c] =>
      let r := eval vm_compute in (CLib.digit_of c) in
      change (CLib.digit_of c) with r
    end; cbv iota.
  1: exact IHd.
  all: cbn [Z.mul Z.add Z.of_N]; apply digits_acc.
Qed.

Lemma digits_uint_nz d :
  CLib.digits (NilZero.string_of_uint d) 0 = Z.of_uint d.
Proof.
  destruct d; try apply digits_uint. reflexivity.
Qed.

(** A string that starts with a digit is read from its first character. *)
Lemma strtol_digit c s d :
  CLib.digit_of c = Some d ->
  CLib.strtol (String c s) = CLib.clamp_long (CLib.digits (String c s) 0).
Proof.
  destruct c as [[] [] [] [] [] [] [] []]; intro H; vm_compute in H;
    try discriminate H; reflexivity.
Qed.

Lemma string_of_uint_digit d :
  exists c s k, NilZero.string_of_uint d = String c s /\ CLib.digit_of c = Some k.
Proof.
  destruct d; do 3 eexists; (split; [reflexivity|]); vm_compute; reflexivity.
Qed.

Lemma clamp_long_id z : LONG_MIN <= z <= LONG_MAX -> CLib.clamp_long z = z.
Proof.
  intro H. unfold CLib.clamp_long.
  replace (LONG_MAX <? z) with false by (symmetry; apply Z.ltb_ge; lia).
  replace (z <? LONG_MIN) with false by (symmetry; apply Z.ltb_ge; lia).
  reflexivity.
Qed.

Lemma strtol_itoa z : LONG_MIN <= z <= LONG_MAX -> CLib.strtol (CLib.itoa z) = z.
Proof.
  intro H. unfold CLib.itoa.
  pose proof (DecimalZ.of_to z) as E.
  destruct (Z.to_int z) as [d|d]; cbn [NilZero.string_of_int Z.of_int] in *.
  - destruct (string_of_uint_digit d) as (c & s & k & Es & Ek).
    rewrite Es, (strtol_digit c s k Ek), <- Es, digits_uint_nz, E.
    apply clamp_long_id, H.
  - unfold CLib.strtol. cbn [CLib.skip_space].
    change (CLib.isspace "-") with false. cbv iota.
    rewrite digits_uint_nz, E. apply clamp_long_id, H.
Qed.

Lemma strtol_no_number c s : number_start c = false -> CLib.strtol (String c s) = 0.
Proof.
  destruct c as [[] [] [] [] [] [] [] []]; intro H; vm_compute in H;
    try discriminate H; reflexivity.
Qed.

Lemma digit_no_letter c k :
  CLib.digit_of c = Some k ->
  Ascii.eqb c "-" = false /\ Ascii.eqb c "p" = false /\
  Ascii.eqb c "b" = false /\ Ascii.eqb c "a" = false.
Proof.
  destruct c as [[] [] [] [] [] [] [] []]; intro H; vm_compute in H;
    try discriminate H; repeat split; reflexivity.
Qed.

Lemma itoa_no_option z : is_option (CLib.itoa z) = false.
Proof.
  unfold CLib.itoa.
  destruct (Z.to_int z) as [d|d]; cbn [NilZero.string_of_int];
    destruct (string_of_uint_digit d) as (c & s & k & Es & Ek);
    destruct (digit_no_letter c k Ek) as (E1 & E2 & E3 & E4);
    rewrite Es; unfold is_option, is_flag; cbn [String.eqb].
  - rewrite E1. reflexivity.
  - change (Ascii.eqb "-" "-") with true. rewrite E2, E3, E4. reflexivity.
Qed.

(** A command line with one option whose value is no option name. *)
Lemma parse_args_one_option prog f v file :
  is_option v = false ->
  f <> FlagP ->
  parse_args [prog; flag_name f; v; file] =
    Some (3%nat, set_item default_config (Opt f v)).
Proof.
  intros Hv Hf.
  assert (Hok : Forall item_ok [Opt f v]).
  { apply Forall_cons; [|apply Forall_nil]. split; [exact Hv|].
    intro H. contradiction. }
  exact (proj1 (parse_args_command_line prog [Opt f v] file Hok)).
Qed.

Lemma no_number_no_option c s : number_start c = false -> is_option (String c s) = false.
Proof.
  unfold number_start. intro H.
  apply orb_false_iff in H. destruct H as [H _].
  apply orb_false_iff in H. destruct H as [_ H].
  unfold is_option, is_flag. cbn [String.eqb]. rewrite H. reflexivity.
Qed.

(** ** What the session leaves to [mainOut], and the phases before the loop to the loop *)

Section MainOut.

Variable W : world.

Lemma flush_before_mainOut fuel : avoids is_mainOut_call unit (flush W fuel).
Proof.
  induction fuel as [|fuel IH]; simpl; [avoid|].
  unfold Sleep, printf. repeat first [exact IH | avoid].
Qed.

Lemma receive_loop_before_mainOut fuel : forall l,
  avoids is_mainOut_call locals (receive_loop W fuel l).
Proof.
  induction fuel as [|fuel IH]; intro l; simpl; [avoid|].
  unfold receive_body, retry_if_silent, store_chunk, Sleep, printf.
  repeat first [apply IH | avoid].
Qed.

Lemma session_before_mainOut fuel c file :
  avoids is_mainOut_call unit (session W fuel c file).
Proof.
  unfold session, open_port, configure_port, identify, transfer, add_extension,
    open_output, arm, receive, terminate_strBuf, CreateFile_port, SetCommState,
    SetCommTimeouts, SetupComm, CreateFile_output, Sleep, printf.
  repeat first [apply flush_before_mainOut | apply receive_loop_before_mainOut | avoid].
Qed.

(** Before the receive loop: no marker, nothing written to the file. *)
Lemma flush_no_output fuel : avoids is_loop_output unit (flush W fuel).
Proof.
  induction fuel as [|fuel IH]; simpl; [avoid|].
  unfold Sleep, printf. repeat first [exact IH | avoid].
Qed.

Lemma identify_no_output fuel : avoids is_loop_output unit (identify W fuel).
Proof.
  unfold identify, terminate_strBuf, Sleep, printf.
  repeat first [apply flush_no_output | avoid].
Qed.

Lemma open_port_no_output c : avoids is_loop_output unit (open_port W c).
Proof. unfold open_port, CreateFile_port, printf. repeat avoid. Qed.

Lemma configure_port_no_output c : avoids is_loop_output unit (configure_port W c).
Proof.
  unfold configure_port, SetCommState, SetCommTimeouts, SetupComm, printf.
  repeat avoid.
Qed.

Lemma add_extension_no_output file : avoids is_loop_output string (add_extension file).
Proof. unfold add_extension. repeat avoid. Qed.

Lemma open_output_no_output file : avoids is_loop_output unit (open_output W file).
Proof. unfold open_output, CreateFile_output, printf. repeat avoid. Qed.

Lemma arm_no_output c : avoids is_loop_output unit (arm W c).
Proof. unfold arm, Sleep, printf. repeat avoid. Qed.

End MainOut.

Lemma bind_val_inv A B (c : M A) (k : A -> M B) s b s' :
  bind c k s = (Val b, s') ->
  exists a s1, c s = (Val a, s1) /\ k a s1 = (Val b, s').
Proof.
  unfold bind. destruct (c s) as [[a|e| |] s1]; try discriminate.
  intro H. exists a, s1. split; [reflexivity | exact H].
Qed.

Lemma is_loop_output_file_write : forall d, is_loop_output (EvFileWrite d) = true.
Proof. reflexivity. Qed.

(** A session that completes has reached the receive loop with nothing
    stored and no marker printed. *)
Lemma session_val_inv (W : world) fuel c file s0 s' :
  session W fuel c file s0 = (Val tt, s') ->
  exists s_mid tr,
    receive W fuel s_mid = (Val tt, s') /\
    trace s_mid = trace s0 ++ tr /\
    count is_dot tr = 0%nat /\
    sink s_mid = sink s0.
Proof.
  unfold session, transfer. intro H.
  apply bind_val_inv in H. destruct H as (u1 & s1 & E1 & H).
  apply bind_val_inv in H. destruct H as (u2 & s2 & E2 & H).
  apply bind_val_inv in H. destruct H as (u3 & s3 & E3 & H).
  apply bind_val_inv in H. destruct H as (f4 & s4 & E4 & H).
  apply bind_val_inv in H. destruct H as (u5 & s5 & E5 & H).
  apply bind_val_inv in H. destruct H as (u6 & s6 & E6 & H).
  destruct (open_port_no_output W c s0) as (t1 & T1 & C1 & K1).
  destruct (configure_port_no_output W c s1) as (t2 & T2 & C2 & K2).
  destruct (identify_no_output W fuel s2) as (t3 & T3 & C3 & K3).
  destruct (add_extension_no_output file s3) as (t4 & T4 & C4 & K4).
  destruct (open_output_no_output W f4 s4) as (t5 & T5 & C5 & K5).
  destruct (arm_no_output W c s5) as (t6 & T6 & C6 & K6).
  rewrite E1 in T1, K1. rewrite E2 in T2, K2. rewrite E3 in T3, K3.
  rewrite E4 in T4, K4. rewrite E5 in T5, K5. rewrite E6 in T6, K6.
  simpl in *.
  exists s6, (t1 ++ t2 ++ t3 ++ t4 ++ t5 ++ t6).
  split; [exact H|]. split; [|split].
  - rewrite T6, T5, T4, T3, T2, T1, <- !app_assoc. reflexivity.
  - assert (Q : forall t, count is_loop_output t = 0%nat -> count is_dot t = 0%nat).
    { clear. induction t as [|e t IH]; [reflexivity|].
      rewrite !count_cons. unfold is_loop_output at 1.
      destruct (is_dot e); simpl; [discriminate|].
      destruct (is_file_write e); simpl; [discriminate | exact IH]. }
    rewrite !count_app, !Q by assumption. reflexivity.
  - rewrite K6, K5, K4, K3, K2, K1 by exact is_loop_output_file_write. reflexivity.
Qed.

(** A run of [main] that returns 0 on an accepted command line is a
    session that completed. *)
Lemma main_zero_inv (W : world) fuel argv c file s :
  accepted argv c file ->
  main W fuel argv initial = (Val 0, s) ->
  exists s1,
    session W fuel c file banner_state = (Val tt, s1) /\
    trace s = trace s1 ++ mainOut_trace 0 /\
    sink s = sink s1.
Proof.
  intros Hacc. rewrite (main_accepted W fuel argv c file Hacc).
  unfold bind at 1, at_mainOut.
  pose proof (session_leaves W fuel c file banner_state) as L.
  destruct (session W fuel c file banner_state) as [[[]|e| |] s1]; try discriminate;
    unfold cleanup, bind, emit, printf, Sleep, ret; simpl.
  - intro H. inversion H. subst. simpl. exists s1.
    rewrite <- !app_assoc. repeat split.
  - destruct (L e s1 eq_refl) as (k & Hk & He). subst e.
    replace (exit_code_of k =? 0) with false
      by (symmetry; apply Z.eqb_neq; lia).
    simpl. intro H. inversion H. lia.
Qed.

(** ** The receive loop, whatever the world answers *)

Section Iterations.

Variable W : world.

Ltac run :=
  unfold receive_body, retry_if_silent, store_chunk, bind, GetTickCount,
    ReadFile_comm, WriteFile_comm, WriteFile_output, printf, Sleep, emit, ret, goto;
  simpl.

Ltac run_in E :=
  unfold receive_body, retry_if_silent, store_chunk, bind, GetTickCount,
    ReadFile_comm, WriteFile_comm, WriteFile_output, printf, Sleep, emit, ret, goto in E;
  simpl in E.

(** An iteration that completes, taken apart. *)
Lemma receive_body_inv l s l' s' :
  receive_body W l s = (Val l', s') ->
  exists l1 s1 chunk s2 s3,
    retry_if_silent W l s = (Val l1, s1) /\
    ReadFile_comm W s1 = (Val (Some chunk), s2) /\
    store_chunk W l1 chunk s2 = (Val l', s3) /\
    s' = snd (Sleep 20 s3).
Proof.
  unfold receive_body, bind at 1.
  destruct (retry_if_silent W l s) as [[l1| | |] s1] eqn:E1; try discriminate.
  unfold bind at 1.
  destruct (ReadFile_comm W s1) as [[[chunk|]| | |] s2] eqn:R; try discriminate.
  unfold bind at 1.
  destruct (store_chunk W l1 chunk s2) as [[l2| | |] s3] eqn:E3; try discriminate.
  unfold bind, Sleep, emit, ret. intro H. inversion H. subst.
  exists l1, s1, chunk, s2, s3.
  split; [reflexivity|]. split; [exact R|]. split; [exact E3 | reflexivity].
Qed.

Lemma retry_if_silent_val l s l1 s1 :
  retry_if_silent W l s = (Val l1, s1) ->
  exists tr,
    trace s1 = trace s ++ tr /\ sink s1 = sink s /\
    bytesTilDot l1 = bytesTilDot l /\
    count is_dot tr = 0%nat /\ bytes_read tr = [] /\
    n_comm_read s1 = n_comm_read s.
Proof.
  run. destruct (1000 <? _); [destruct (comm_write W _)|]; simpl;
    intro H; inversion H; subst; clear H; simpl;
    rewrite <- ?app_assoc; eexists; repeat split; reflexivity.
Qed.

Lemma ReadFile_comm_val s chunk s2 :
  ReadFile_comm W s = (Val (Some chunk), s2) ->
  trace s2 = trace s ++ [EvCommRead (Some chunk)] /\ sink s2 = sink s /\
  (List.length chunk <= sizeof_strBuf)%nat /\
  n_comm_read s2 = S (n_comm_read s).
Proof.
  unfold ReadFile_comm.
  destruct (comm_read W (n_comm_read s)) as [c|]; simpl; [|discriminate].
  intro H. inversion H. subst. simpl.
  split; [reflexivity|]. split; [reflexivity|]. split; [|reflexivity].
  apply firstn_le_length.
Qed.

(** What a completed [if (numBytes > 0) { ... }] has done: [n] bytes
    stored, the progress count moved by [n]. *)
Lemma store_chunk_val l s chunk l2 s2 :
  0 <= bytesTilDot l <= Z.of_nat sizeof_strBuf ->
  store_chunk W l chunk s = (Val l2, s2) ->
  exists tr n,
    trace s2 = trace s ++ tr /\
    List.length (sink s2) = (List.length (sink s) + n)%nat /\
    (n <= List.length chunk)%nat /\
    bytesTilDot l2 = next_bytesTilDot (bytesTilDot l) n /\
    count is_dot tr = (if dot_due (bytesTilDot l) n then 1 else 0)%nat /\
    bytes_read tr = [].
Proof.
  intro Hb. unfold store_chunk.
  destruct chunk as [|b chunk].
  - simpl. unfold ret. intro H. inversion H. subst. exists [], 0%nat.
    rewrite !app_nil_r, Nat.add_0_r. unfold next_bytesTilDot, dot_due.
    replace (Z.of_nat sizeof_strBuf <? bytesTilDot l2 + Z.of_nat 0) with false
      by (symmetry; apply Z.ltb_ge; lia).
    repeat split; try reflexivity; simpl; lia.
  - cbn [List.length Nat.ltb Nat.leb].
    unfold bind at 1, WriteFile_output.
    destruct (file_write W _ _) as [m|]; [|run; discriminate].
    unfold next_bytesTilDot, dot_due.
    set (stored := firstn m (b :: chunk)).
    assert (Hs : (List.length stored <= List.length (b :: chunk))%nat)
      by (unfold stored; rewrite length_firstn; lia).
    destruct (Z.of_nat sizeof_strBuf <? _) eqn:E; run;
      intro H; inversion H; subst l2 s2; clear H; simpl;
      rewrite <- ?app_assoc; eexists; exists (List.length stored);
      (split; [reflexivity|]); rewrite length_app; fold stored; rewrite E;
      repeat split; try reflexivity; exact Hs.
Qed.

(** One completed iteration: [n] bytes stored, at most a buffer full;
    the progress count and the markers follow [n]. *)
Lemma receive_body_progress l s l' s' :
  0 <= bytesTilDot l <= Z.of_nat sizeof_strBuf ->
  receive_body W l s = (Val l', s') ->
  exists tr n,
    trace s' = trace s ++ tr /\
    List.length (sink s') = (List.length (sink s) + n)%nat /\
    (n <= sizeof_strBuf)%nat /\
    bytesTilDot l' = next_bytesTilDot (bytesTilDot l) n /\
    count is_dot tr = (if dot_due (bytesTilDot l) n then 1 else 0)%nat.
Proof.
  intros Hb H.
  destruct (receive_body_inv _ _ _ _ H) as (l1 & s1 & chunk & s2 & s3 & E1 & E2 & E3 & E4).
  destruct (retry_if_silent_val _ _ _ _ E1) as (tr1 & T1 & S1 & B1 & D1 & _).
  destruct (ReadFile_comm_val _ _ _ E2) as (T2 & S2 & L2 & _).
  rewrite <- B1 in Hb.
  destruct (store_chunk_val _ _ _ _ _ Hb E3) as (tr3 & n & T3 & S3 & L3 & B3 & D3 & _).
  exists (tr1 ++ [EvCommRead (Some chunk)] ++ tr3 ++ [EvSleep 20]), n.
  subst s'. simpl. rewrite T3, T2, T1, S3, S2, S1, B3, B1, <- !app_assoc.
  split; [reflexivity|]. split; [reflexivity|]. split; [lia|]. split; [reflexivity|].
  repeat (rewrite count_app || rewrite count_cons || rewrite count_nil).
  rewrite D1, D3, B1. simpl. lia.
Qed.

Lemma in_step_next total dots b n :
  in_step total dots b -> (n <= sizeof_strBuf)%nat ->
  in_step (total + n) (dots + (if dot_due b n then 1 else 0)) (next_bytesTilDot b n).
Proof.
  unfold in_step, next_bytesTilDot, dot_due.
  change sizeof_strBuf with 1024%nat.
  intros (H1 & H2 & H3) Hn.
  destruct (Z.of_nat 1024 <? b + Z.of_nat n) eqn:E;
    [apply Z.ltb_lt in E | apply Z.ltb_ge in E]; repeat split; lia.
Qed.

Lemma receive_loop_progress fuel : forall l s l' s' total dots,
  in_step total dots (bytesTilDot l) ->
  receive_loop W fuel l s = (Val l', s') ->
  exists tr n,
    trace s' = trace s ++ tr /\
    List.length (sink s') = (List.length (sink s) + n)%nat /\
    in_step (total + n) (dots + count is_dot tr) (bytesTilDot l').
Proof.
  induction fuel as [|fuel IH]; intros l s l' s' total dots Hin; simpl; [discriminate|].
  unfold bind at 1.
  destruct (receive_body W l s) as [[l1| | |] s1] eqn:E1; try discriminate.
  destruct (receive_body_progress _ _ _ _ (proj1 (proj2 Hin)) E1)
    as (tr1 & n1 & T1 & S1 & L1 & B1 & D1).
  pose proof (in_step_next _ _ _ _ Hin L1) as Hin1.
  rewrite <- B1, <- D1 in Hin1.
  destruct (timeout l1 <? MAX_TIMEOUTS).
  - intro H. destruct (IH _ _ _ _ _ _ Hin1 H) as (tr2 & n2 & T2 & S2 & Hin2).
    exists (tr1 ++ tr2), (n1 + n2)%nat.
    rewrite T2, T1, S2, S1, count_app, !app_assoc, !Nat.add_assoc.
    repeat split; try reflexivity; apply Hin2.
  - unfold ret. intro H. inversion H. subst. exists tr1, n1.
    split; [exact T1|]. split; [exact S1 | exact Hin1].
Qed.

Lemma in_step_dots total dots b :
  in_step total dots b -> dots = ((total - 1) / sizeof_strBuf)%nat.
Proof.
  unfold in_step. change sizeof_strBuf with 1024%nat. intros (H1 & H2 & H3).
  destruct total as [|total].
  - simpl. assert (dots = 0%nat) by lia. subst. reflexivity.
  - apply Nat.div_unique with (r := Z.to_nat (b - 1)); lia.
Qed.

Lemma receive_progress fuel s s' :
  receive W fuel s = (Val tt, s') ->
  exists tr n,
    trace s' = trace s ++ tr /\
    List.length (sink s') = (List.length (sink s) + n)%nat /\
    count is_dot tr = ((n - 1) / sizeof_strBuf)%nat.
Proof.
  intro H. destruct (receive_inv W fuel s s' H) as (l1 & s1 & E & T & K).
  assert (Hin : in_step 0 0 (bytesTilDot (fst (loop_entry W s)))).
  { unfold in_step. simpl. change sizeof_strBuf with 1024%nat. lia. }
  destruct (receive_loop_progress fuel _ _ _ _ _ _ Hin E) as (tr & n & T1 & S1 & Hin1).
  simpl in Hin1. apply in_step_dots in Hin1.
  exists ([EvTick (to_DWORD (tick W (n_tick s)))] ++ tr
          ++ [EvCommWrite terminator_cmd; EvPrint MsgDone]), n.
  split; [|split].
  - rewrite T, T1. simpl. rewrite <- !app_assoc. reflexivity.
  - rewrite K, S1. reflexivity.
  - repeat (rewrite count_app || rewrite count_cons || rewrite count_nil).
    simpl. rewrite Nat.add_0_r. exact Hin1.
Qed.

End Iterations.

Section Endings.

Variable W : world.

Ltac run :=
  unfold receive_body, retry_if_silent, store_chunk, bind, GetTickCount,
    ReadFile_comm, WriteFile_comm, WriteFile_output, printf, Sleep, emit, ret, goto;
  simpl.

(** The two ways the retry test completes. *)
Lemma retry_if_silent_cases l s l1 s1 :
  retry_if_silent W l s = (Val l1, s1) ->
  (l1 = l /\ trace s1 = trace s ++ [EvTick (to_DWORD (tick W (n_tick s)))] /\
   sink s1 = sink s /\ n_comm_read s1 = n_comm_read s) \/
  (timeout l1 = timeout l + 1 /\ bytesTilDot l1 = bytesTilDot l /\
   trace s1 = trace s ++ [EvTick (to_DWORD (tick W (n_tick s)));
                          EvCommWrite read_cmd;
                          EvTick (to_DWORD (tick W (S (n_tick s))));
                          EvPrint MsgColon; EvSleep 10] /\
   sink s1 = sink s /\ n_comm_read s1 = n_comm_read s).
Proof.
  run. destruct (1000 <? _); [destruct (comm_write W _)|]; simpl;
    intro H; inversion H; subst; clear H; simpl; rewrite <- ?app_assoc;
    [right | left]; repeat split; reflexivity.
Qed.

(** The two ways the storing of a chunk completes. *)
Lemma store_chunk_cases l s chunk l2 s2 :
  store_chunk W l chunk s = (Val l2, s2) ->
  (chunk = [] /\ l2 = l /\ s2 = s) \/ (chunk <> [] /\ timeout l2 = 0).
Proof.
  unfold store_chunk. destruct chunk as [|b chunk].
  - simpl. unfold ret. intro H. inversion H. left. repeat split.
  - cbn [List.length Nat.ltb Nat.leb]. unfold bind at 1, WriteFile_output.
    destruct (file_write W _ _) as [m|]; [|run; discriminate].
    destruct (Z.of_nat sizeof_strBuf <? _); run;
      intro H; inversion H; subst; right; split; [discriminate | reflexivity | discriminate | reflexivity].
Qed.

(** A completed iteration leaves [timeout] at 0, or it is the iteration
    of an unanswered retry. *)
Lemma receive_body_timeout l s l' s' :
  timeout l = 0 ->
  receive_body W l s = (Val l', s') ->
  timeout l' = 0 \/
  (timeout l' = 1 /\ bytesTilDot l' = bytesTilDot l /\
   sink s' = sink s /\ n_comm_read s' = S (n_comm_read s) /\
   exists t0 t1, trace s' = trace s ++ last_iteration t0 t1).
Proof.
  intros Ht H.
  destruct (receive_body_inv _ _ _ _ _ H) as (l1 & s1 & chunk & s2 & s3 & E1 & E2 & E3 & E4).
  destruct (store_chunk_cases _ _ _ _ _ E3) as [(Hc & Hl & Hs)|[_ H0]]; [|left; exact H0].
  subst chunk l' s3.
  destruct (retry_if_silent_cases _ _ _ _ E1) as [(Hl & _)|(T1 & B1 & R1 & K1 & N1)].
  - left. subst l1. exact Ht.
  - right. rewrite T1, Ht, B1. split; [reflexivity|]. split; [reflexivity|].
    destruct (ReadFile_comm_val _ _ _ _ E2) as (T2 & S2 & _ & N2).
    subst s'. simpl. rewrite S2, N2, T2, K1, N1, R1, <- !app_assoc.
    split; [reflexivity|]. split; [reflexivity|].
    do 2 eexists. reflexivity.
Qed.

Lemma receive_body_monotone l : monotone locals (receive_body W l).
Proof.
  apply (P_receive_body W monotone (fun _ => True));
    first [ exact I | exact monotone_ret | exact monotone_bind | exact monotone_abort
          | exact monotone_fuel | exact monotone_emit | exact monotone_fail
          | exact (monotone_comm_write W) | exact (monotone_comm_read W)
          | exact (monotone_file_write W) | exact (monotone_tick W) ].
Qed.

(** The loop ends only on the iteration of an unanswered retry. *)
Lemma receive_loop_end fuel : forall l s l' s',
  timeout l = 0 ->
  receive_loop W fuel l s = (Val l', s') ->
  timeout l' = MAX_TIMEOUTS /\
  exists tr t0 t1, trace s' = trace s ++ tr ++ last_iteration t0 t1.
Proof.
  induction fuel as [|fuel IH]; intros l s l' s' Ht; simpl; [discriminate|].
  unfold bind at 1.
  destruct (receive_body W l s) as [[l1| | |] s1] eqn:E1; try discriminate.
  pose proof (receive_body_monotone l s) as G.
  rewrite E1 in G. destruct G as [tr1 T1]. simpl in T1.
  destruct (receive_body_timeout _ _ _ _ Ht E1) as [H0|(H1 & _ & _ & _ & t0 & t1 & T)].
  - rewrite H0. simpl. intro H.
    destruct (IH _ _ _ _ H0 H) as (Hm & tr2 & t0 & t1 & T2).
    split; [exact Hm|]. exists (tr1 ++ tr2), t0, t1.
    rewrite T2, T1, <- !app_assoc. reflexivity.
  - rewrite H1. simpl. unfold ret. intro H. inversion H. subst.
    split; [exact H1|]. exists [], t0, t1. exact T.
Qed.

End Endings.

Section Silence.

Variable W : world.

(** While every read brings data the loops do not end. *)
Lemma flush_never_ends fuel : forall s,
  talking_from W (n_comm_read s) -> fst (flush W fuel s) = Fuel.
Proof.
  induction fuel as [|fuel IH]; intros s Ht; [reflexivity|].
  destruct (Ht _ (Nat.le_refl _)) as (c & Hr & Hc).
  cbn [flush]. unfold bind, Sleep, emit, ReadFile_comm. simpl.
  rewrite Hr. simpl. rewrite (firstn_chunk _ Hc).
  replace (0 <? List.length c)%nat with true by (symmetry; apply Nat.ltb_lt; apply Hc).
  apply IH. intros j Hj. apply Ht. simpl in Hj. lia.
Qed.

Lemma receive_loop_never_ends fuel : forall l s,
  port_writable W -> file_writable W ->
  talking_from W (n_comm_read s) ->
  timeout l = 0 ->
  fst (receive_loop W fuel l s) = Fuel /\
  (List.length (sink s) + fuel <= List.length (sink (snd (receive_loop W fuel l s))))%nat.
Proof.
  induction fuel as [|fuel IH]; intros l s Hw Hf Ht H0.
  - simpl. split; [reflexivity | lia].
  - destruct (Ht _ (Nat.le_refl _)) as (c & Hr & Hc).
    destruct (receive_body_data W l s c Hw Hf Hc Hr)
      as (l1 & s1 & tr1 & E1 & _ & S1 & R1 & _ & O1 & _).
    cbn [receive_loop]. rewrite (bind_val _ _ _ _ _ _ _ E1), O1. simpl.
    destruct (IH l1 s1 Hw Hf) as [F L]; [|exact O1|].
    + intros j Hj. apply Ht. lia.
    + split; [exact F|]. rewrite S1, length_app in L.
      destruct Hc as [Hc _]. lia.
Qed.

End Silence.

Section Prefix.

Variable W : world.

Ltac run_in E :=
  unfold receive_body, retry_if_silent, store_chunk, bind, GetTickCount,
    ReadFile_comm, WriteFile_comm, WriteFile_output, printf, Sleep, emit, ret, goto in E;
  simpl in E.

Lemma write_failed_iff A (r : res A) : write_failed r = true <-> r = Goto 10.
Proof.
  destruct r as [a|e| |]; simpl; split; try discriminate.
  - intro H. apply Z.eqb_eq in H. subst. reflexivity.
  - intro H. inversion H. reflexivity.
Qed.

Lemma write_failed_not A (r : res A) : write_failed r = false <-> r <> Goto 10.
Proof.
  split.
  - intros H E. apply write_failed_iff in E. congruence.
  - intro H. destruct (write_failed r) eqn:E; [|reflexivity].
    apply write_failed_iff in E. contradiction.
Qed.

Lemma retry_if_silent_any l s :
  exists tr,
    trace (snd (retry_if_silent W l s)) = trace s ++ tr /\
    bytes_read tr = [] /\
    sink (snd (retry_if_silent W l s)) = sink s /\
    write_failed (fst (retry_if_silent W l s)) = false.
Proof.
  unfold retry_if_silent, bind, GetTickCount, WriteFile_comm, printf, Sleep,
    emit, ret, goto. simpl.
  destruct (1000 <? _); [destruct (comm_write W _)|]; simpl;
    rewrite <- ?app_assoc; eexists; repeat split; reflexivity.
Qed.

(** One iteration, however it ends: the file has taken the bytes read,
    except the chunk whose write failed. *)
Lemma receive_body_prefix l s :
  whole_writes W ->
  exists tr,
    trace (snd (receive_body W l s)) = trace s ++ tr /\
    file_keeps (write_failed (fst (receive_body W l s))) s
      (snd (receive_body W l s)) tr.
Proof.
  intro Hww.
  destruct (retry_if_silent_any l s) as (tr1 & T1 & B1 & K1 & F1).
  remember (receive_body W l s) as rb eqn:E.
  unfold receive_body, bind at 1 in E.
  destruct (retry_if_silent W l s) as [[l1| | |] s1]; simpl in T1, K1, F1;
    try (subst rb; exists tr1; simpl; split; [exact T1|];
         unfold file_keeps; cbn [write_failed]; rewrite ?F1, B1, app_nil_r; exact K1).
  unfold bind at 1, ReadFile_comm in E.
  destruct (comm_read W (n_comm_read s1)) as [chunk|]; unfold option_map in E.
  2: { run_in E. subst rb. simpl.
       exists (tr1 ++ [EvCommRead None; EvPrint MsgReadData]).
       rewrite T1, K1, bytes_read_app, B1, <- !app_assoc, app_nil_r.
       split; reflexivity. }
  pose proof (firstn_le_length sizeof_strBuf chunk) as Hlen.
  remember (firstn sizeof_strBuf chunk) as ch eqn:Hch. clear Hch chunk.
  destruct ch as [|b ch].
  - run_in E. subst rb. simpl.
    exists (tr1 ++ [EvCommRead (Some []); EvSleep 20]).
    rewrite T1, K1, bytes_read_app, B1, <- !app_assoc, app_nil_r.
    split; reflexivity.
  - unfold bind at 1, store_chunk in E. cbn [List.length Nat.ltb Nat.leb] in E.
    unfold bind at 1, WriteFile_output in E. cbn [n_file_write] in E.
    destruct (file_write W _ _) as [m|] eqn:F.
    2: { run_in E. subst rb. simpl.
         exists (tr1 ++ failed_store (b :: ch)).
         rewrite T1, K1, <- !app_assoc.
         split; [reflexivity|].
         exists tr1, (b :: ch).
         split; [reflexivity|]. split; [discriminate|]. split; [exact Hlen|].
         rewrite B1, app_nil_r. reflexivity. }
    apply Hww in F. rewrite (firstn_all2 (n := m) (b :: ch)) in E by exact F.
    destruct (Z.of_nat sizeof_strBuf <? _); run_in E; subst rb; simpl;
      eexists (tr1 ++ EvCommRead (Some (b :: ch)) :: _);
      rewrite T1, K1, bytes_read_app, B1, <- !app_assoc;
      (split; [reflexivity|]); simpl; rewrite ?app_nil_r; reflexivity.
Qed.

Lemma file_keeps_app f s s1 s2 tr1 tr2 :
  file_keeps false s s1 tr1 -> file_keeps f s1 s2 tr2 ->
  file_keeps f s s2 (tr1 ++ tr2).
Proof.
  unfold file_keeps. intro K1. destruct f.
  - intros (pre & lost & T & N & L & K2).
    exists (tr1 ++ pre), lost. rewrite T, K2, K1, bytes_read_app, !app_assoc.
    repeat split; assumption.
  - intro K2. rewrite K2, K1, bytes_read_app, app_assoc. reflexivity.
Qed.

Lemma receive_loop_prefix fuel : forall l s,
  whole_writes W ->
  exists tr,
    trace (snd (receive_loop W fuel l s)) = trace s ++ tr /\
    file_keeps (write_failed (fst (receive_loop W fuel l s))) s
      (snd (receive_loop W fuel l s)) tr.
Proof.
  induction fuel as [|fuel IH]; intros l s Hww.
  - exists []. simpl. rewrite !app_nil_r. split; reflexivity.
  - destruct (receive_body_prefix l s Hww) as (tr1 & T1 & K1).
    cbn [receive_loop]. unfold bind at 1 2 3.
    destruct (receive_body W l s) as [[l1|e| |] s1]; simpl in T1, K1;
      try (exists tr1; split; assumption).
    destruct (timeout l1 <? MAX_TIMEOUTS).
    + destruct (IH l1 s1 Hww) as (tr2 & T2 & K2).
      exists (tr1 ++ tr2). split.
      * rewrite T2, T1, app_assoc. reflexivity.
      * apply file_keeps_app with (s1 := s1); assumption.
    + exists tr1. split; assumption.
Qed.

Lemma receive_prefix fuel s :
  whole_writes W ->
  exists tr,
    trace (snd (receive W fuel s)) = trace s ++ tr /\
    file_keeps (write_failed (fst (receive W fuel s))) s (snd (receive W fuel s)) tr.
Proof.
  intro Hww. remember (receive W fuel s) as r eqn:E.
  unfold receive, bind at 1 in E. simpl in E. unfold bind at 1 in E.
  match type of E with context [receive_loop W fuel ?l0 ?s0] =>
    destruct (receive_loop_prefix fuel l0 s0 Hww) as (tr & T & K);
    assert (K0 : file_keeps false s s0 [EvTick (to_DWORD (tick W (n_tick s)))])
      by (unfold file_keeps; simpl; rewrite app_nil_r; reflexivity);
    pose proof (file_keeps_app _ _ _ _ _ _ K0 K) as K';
    destruct (receive_loop W fuel l0 s0) as [[l1|e| |] s1]
  end; simpl in T, K';
    unfold bind, WriteFile_comm, printf, emit in E; simpl in E; subst r; simpl.
  - exists ([EvTick (to_DWORD (tick W (n_tick s)))] ++ tr
            ++ [EvCommWrite terminator_cmd; EvPrint MsgDone]).
    rewrite T, <- !app_assoc. split; [reflexivity|].
    unfold file_keeps in *. simpl in *.
    rewrite K', !bytes_read_app. simpl. rewrite app_nil_r. reflexivity.
  - exists ([EvTick (to_DWORD (tick W (n_tick s)))] ++ tr).
    rewrite T, <- !app_assoc. split; [reflexivity | exact K'].
  - exists ([EvTick (to_DWORD (tick W (n_tick s)))] ++ tr).
    rewrite T, <- !app_assoc. split; [reflexivity | exact K'].
  - exists ([EvTick (to_DWORD (tick W (n_tick s)))] ++ tr).
    rewrite T, <- !app_assoc. split; [reflexivity | exact K'].
Qed.

End Prefix.

(** ** Failures before the receive loop *)

Section Failures.

Variable W : world.

Ltac run :=
  unfold open_port, configure_port, identify, transfer, add_extension, open_output,
    arm, terminate_strBuf, CreateFile_port, CreateFile_output, SetCommState,
    SetCommTimeouts, SetupComm, bind, GetTickCount,
    ReadFile_comm, WriteFile_comm, WriteFile_output, printf, Sleep, emit, ret, goto;
  simpl.

(** With the port ready and the version query answered, what is left of
    [main] is the transfer and [mainOut]. *)
Lemma main_identified fuel argv c file stale reply :
  accepted argv c file -> port_ready W ->
  Forall chunk_ok stale -> delivers W 0 stale ->
  comm_read W (List.length stale) = Some [] ->
  (List.length stale < fuel)%nat ->
  comm_write W 0 = true -> comm_write W 1 = true ->
  comm_read W (S (List.length stale)) = Some reply ->
  (List.length reply < sizeof_strBuf)%nat ->
  main W fuel argv initial =
  (err <- at_mainOut (transfer W fuel c file);; cleanup err)
    (identified_state c stale reply).
Proof.
  intros Hacc Hport Hok Hd He Hfuel Hw0 Hw1 Hr Hlen.
  rewrite (main_accepted W fuel argv c file Hacc).
  unfold bind at 1, at_mainOut.
  rewrite (session_configured W fuel c file Hport).
  unfold bind at 1.
  rewrite (identify_replied W (configured_state c) fuel stale reply
             Hok Hd He Hfuel Hw0 Hw1 Hr Hlen).
  reflexivity.
Qed.

Lemma flush_fails stale : forall s fuel,
  Forall chunk_ok stale ->
  delivers W (n_comm_read s) stale ->
  comm_read W (n_comm_read s + List.length stale) = None ->
  (List.length stale < fuel)%nat ->
  flush W fuel s =
  (Goto 12,
   {| n_comm_write := n_comm_write s;
      n_comm_read := n_comm_read s + S (List.length stale);
      n_file_write := n_file_write s; n_tick := n_tick s;
      trace := trace s ++ flush_fail_trace stale; sink := sink s |}).
Proof.
  induction stale as [|c stale IH]; intros s [|fuel] Hok Hd He Hfuel;
    try (simpl in Hfuel; lia).
  - simpl in *. rewrite Nat.add_0_r in He. run. rewrite He. simpl.
    rewrite <- !app_assoc. repeat f_equal. lia.
  - inversion Hok as [|? ? Hc Hok']; subst. destruct Hd as [Hr Hd].
    cbn [flush]. run. rewrite Hr. simpl. rewrite (firstn_chunk _ Hc).
    replace (0 <? List.length c)%nat with true
      by (symmetry; apply Nat.ltb_lt; apply Hc).
    rewrite IH; simpl; try assumption.
    + rewrite <- !app_assoc. simpl. repeat f_equal. lia.
    + rewrite <- He. f_equal. simpl. lia.
    + simpl in Hfuel. lia.
Qed.

End Failures.

(** ** The name of the output file and the trigger line *)

Lemma ext_scan_app a b f :
  CLib.ext_scan (a ++ b) f = CLib.ext_scan b (CLib.ext_scan a f).
Proof.
  revert f. induction a as [|c a IH]; intro f; simpl; [reflexivity|].
  destruct (Ascii.eqb c "."); [apply IH|].
  destruct (Ascii.eqb c "\" || Ascii.eqb c " "); apply IH.
Qed.

Lemma arm_cmd_small n :
  (n <= 30)%nat ->
  CLib.until_nul (arm_cmd (Z.of_nat n)) = arm_cmd (Z.of_nat n) /\
  (List.length (arm_cmd (Z.of_nat n)) <= 30)%nat.
Proof.
  intro H.
  do 31 (destruct n as [|n]; [vm_compute; split; [reflexivity | lia]|]).
  lia.
Qed.

(** A command line that passes the checks of lines 93-106 reaches the
    session, whether or not the file name leaves room for an extension. *)
Lemma main_checked (W : world) fuel argv i c file :
  (1 < argc argv)%nat ->
  parse_args argv = Some (i, c) ->
  arg argv i = Some file ->
  0 <= address c <= 30 ->
  0 <= baud c <= 6000000 ->
  (String.length file < sizeof_filename - 1)%nat ->
  main W fuel argv initial =
  (err <- at_mainOut (session W fuel c file);; cleanup err) banner_state.
Proof.
  intros Hargc Hparse Harg Haddr Hbaud Hlen.
  unfold main, bind at 1. simpl.
  apply Nat.leb_gt in Hargc. rewrite Hargc, Hparse.
  assert (Hi : (argc argv <=? i)%nat = false).
  { apply Nat.leb_gt. apply nth_error_Some. unfold arg in Harg. congruence. }
  rewrite Hi.
  replace (30 <? address c) with false by (symmetry; apply Z.ltb_ge; lia).
  replace (address c <? 0) with false by (symmetry; apply Z.ltb_ge; lia).
  replace (baud c <? 0) with false by (symmetry; apply Z.ltb_ge; lia).
  replace (6000000 <? baud c) with false by (symmetry; apply Z.ltb_ge; lia).
  simpl. rewrite Harg. unfold copy_filename.
  replace (String.length file <? sizeof_filename - 1)%nat with true
    by (symmetry; apply Nat.ltb_lt; exact Hlen).
  reflexivity.
Qed.

(** ** Further properties of the program *)

(** X1. On a command line made of the program name, then options with
    their values and words that are no options, in any order and any
    number, then one last argument, the argument loop makes the
    assignments of the options from left to right (a later option
    overrides an earlier one of the same name), skips the other words, and
    stops at the last argument, which is the file name whatever it is.
    The values and the skipped words are not themselves option names, and
    a port name fits [portname]. *)
Theorem X1_options_in_any_order (prog : string) (items : list item) (file : string) :
  Forall item_ok items ->
  let argv := command_line prog items file in
  parse_args argv =
    Some ((argc argv - 1)%nat, fold_left set_item items default_config) /\
  arg argv (argc argv - 1) = Some file.
Proof. apply parse_args_command_line. Qed.

(** X2. The three [if]s of one pass test [argv[i]] again after each
    [i++], so a value that is itself an option name is also taken as that
    option.  In [-p -a v file] the port is named ["-a"] and the address
    is read from [v].  In [-b -a file] the baud rate is read from ["-a"]
    (giving 0), the file name is consumed as the address, and [main]
    returns 1 after "Filename required". *)
Theorem X2_value_read_as_option (W : world) (fuel : nat) (prog v file : string) :
  parse_args [prog; "-p"; "-a"; v; file]%string =
    Some (4%nat, {| portname := device_prefix ++ "-a"; baud := 230400;
                    address := CLib.strtol v |}) /\
  parse_args [prog; "-b"; "-a"; file]%string =
    Some (4%nat, {| portname := portname default_config; baud := 0;
                    address := CLib.strtol file |}) /\
  main W fuel [prog; "-b"; "-a"; file]%string initial =
    (Val 1, snd (printf MsgFilenameRequired banner_state)).
Proof.
  split; [reflexivity|]. split; [reflexivity|].
  unfold main, bind at 1. simpl.
  change (parse_args [prog; "-b"; "-a"; file]%string)
    with (Some (4%nat, {| portname := portname default_config; baud := 0;
                          address := CLib.strtol file |})).
  reflexivity.
Qed.

(** X3. Whenever the argument loop ends, it ends on the last argument
    or one past it; so the file name [main] goes on with, if there is one,
    is the last argument of the command line. *)
Theorem X3_file_is_last_argument (argv : list string) (i : nat) (c : config) :
  (1 < argc argv)%nat ->
  parse_args argv = Some (i, c) ->
  (i = argc argv - 1 \/ i = argc argv)%nat /\
  ((i < argc argv)%nat -> arg argv i = Some (last argv EmptyString)).
Proof.
  intros Hargc H. unfold parse_args in H.
  apply parse_loop_bound in H; [|lia].
  split; [lia|]. intro Hi.
  assert (E : i = (argc argv - 1)%nat) by lia. subst i.
  unfold arg, argc. clear - Hargc.
  destruct (exists_last (l := argv)) as (pre & x & E).
  { intro E. subst argv. simpl in Hargc. lia. }
  subst argv. rewrite last_last, length_app. simpl.
  rewrite nth_error_app2 by lia.
  replace (List.length pre + 1 - 1 - List.length pre)%nat with 0%nat by lia.
  reflexivity.
Qed.

(** X4. A value that starts with a character [strtol] cannot start a
    number with (no white space, sign or digit) is read as 0: as the value
    of [-a] it gives address 0, as the value of [-b] baud rate 0, and both
    pass the sanity checks when the file name fits. *)
Theorem X4_value_without_digits (prog file : string) (c0 : ascii) (rest : string) :
  number_start c0 = false ->
  CLib.strtol (String c0 rest) = 0 /\
  parse_args [prog; "-a"; String c0 rest; file]%string =
    Some (3%nat, {| portname := portname default_config; baud := 230400;
                    address := 0 |}) /\
  parse_args [prog; "-b"; String c0 rest; file]%string =
    Some (3%nat, {| portname := portname default_config; baud := 0;
                    address := 1 |}) /\
  ((String.length file + 4 < sizeof_filename - 1)%nat ->
   accepted [prog; "-a"; String c0 rest; file]%string
     {| portname := portname default_config; baud := 230400; address := 0 |} file /\
   accepted [prog; "-b"; String c0 rest; file]%string
     {| portname := portname default_config; baud := 0; address := 1 |} file).
Proof.
  intro H. pose proof (strtol_no_number c0 rest H) as E.
  pose proof (no_number_no_option c0 rest H) as O.
  assert (Pa : parse_args [prog; "-a"; String c0 rest; file]%string =
    Some (3%nat, {| portname := portname default_config; baud := 230400;
                    address := 0 |})).
  { pose proof (parse_args_one_option prog FlagA _ file O) as P.
    cbn [flag_name set_item] in P. rewrite P, E by discriminate. reflexivity. }
  assert (Pb : parse_args [prog; "-b"; String c0 rest; file]%string =
    Some (3%nat, {| portname := portname default_config; baud := 0;
                    address := 1 |})).
  { pose proof (parse_args_one_option prog FlagB _ file O) as P.
    cbn [flag_name set_item] in P. rewrite P, E by discriminate. reflexivity. }
  split; [exact E|]. split; [exact Pa|]. split; [exact Pb|].
  intro Hlen. split; exists 3%nat;
    (split; [unfold argc; simpl; lia|]);
    (split; [assumption|]); (split; [reflexivity|]);
    (split; [simpl; lia|]); (split; [simpl; lia|]); exact Hlen.
Qed.

(** X5. The decimal numeral of a [long] is read back by [strtol] as
    that number, and it is no option name: given as the value of [-a] or
    [-b] it sets the address or the baud rate to that number. *)
Theorem X5_decimal_values (prog file : string) (n : Z) :
  LONG_MIN <= n <= LONG_MAX ->
  CLib.strtol (CLib.itoa n) = n /\
  is_option (CLib.itoa n) = false /\
  parse_args [prog; "-a"; CLib.itoa n; file]%string =
    Some (3%nat, {| portname := portname default_config; baud := 230400;
                    address := n |}) /\
  parse_args [prog; "-b"; CLib.itoa n; file]%string =
    Some (3%nat, {| portname := portname default_config; baud := n;
                    address := 1 |}).
Proof.
  intro H. pose proof (strtol_itoa n H) as E. pose proof (itoa_no_option n) as O.
  split; [exact E|]. split; [exact O|]. split.
  - pose proof (parse_args_one_option prog FlagA _ file O) as P.
    cbn [flag_name set_item] in P. rewrite P, E by discriminate. reflexivity.
  - pose proof (parse_args_one_option prog FlagB _ file O) as P.
    cbn [flag_name set_item] in P. rewrite P, E by discriminate. reflexivity.
Qed.

(** X6. [main] makes a system call only on a command line that passes
    all the checks of lines 54-106: more than one argument, the loop
    ending on an argument, the address in [0, 30], the baud rate in
    [0, 6000000], a file name shorter than 255 characters.  The first call
    is then the opening of the port under the parsed name. *)
Theorem X6_calls_need_valid_line (W : world) (fuel : nat) (argv : list string) :
  forallb is_print (trace (snd (main W fuel argv initial))) = false ->
  exists i c file tr,
    (1 < argc argv)%nat /\
    parse_args argv = Some (i, c) /\
    arg argv i = Some file /\
    0 <= address c <= 30 /\
    0 <= baud c <= 6000000 /\
    (String.length file < sizeof_filename - 1)%nat /\
    trace (snd (main W fuel argv initial)) =
      EvPrint MsgBanner :: EvOpenPort (portname c) :: tr.
Proof.
  intro H. remember (main W fuel argv initial) as r eqn:Hr.
  unfold main, bind at 1 in Hr. simpl in Hr.
  destruct (argc argv <=? 1)%nat eqn:E1; [subst r; discriminate H|].
  destruct (parse_args argv) as [[i c]|]; [|subst r; discriminate H].
  destruct (argc argv <=? i)%nat eqn:E2; [subst r; discriminate H|].
  destruct ((30 <? address c) || (address c <? 0)) eqn:E3; [subst r; discriminate H|].
  destruct ((baud c <? 0) || (6000000 <? baud c)) eqn:E4; [subst r; discriminate H|].
  destruct (arg argv i) as [a|] eqn:Ea; [|subst r; discriminate H].
  unfold copy_filename in Hr.
  destruct (String.length a <? sizeof_filename - 1)%nat eqn:E5; [|subst r; discriminate H].
  clear H.
  apply Nat.leb_gt in E1. apply Nat.ltb_lt in E5.
  apply orb_false_iff in E3. destruct E3 as [E3 E3'].
  apply orb_false_iff in E4. destruct E4 as [E4 E4'].
  apply Z.ltb_ge in E3, E3', E4, E4'.
  unfold bind at 1, ret at 1 in Hr. unfold bind at 1, at_mainOut in Hr.
  destruct (session_opens_port W fuel c a
              {| n_comm_write := 0; n_comm_read := 0; n_file_write := 0;
                 n_tick := 0; trace := [EvPrint MsgBanner]; sink := [] |})
    as [tr T].
  exists i, c, a.
  destruct (session W fuel c a _) as [[[]|e| |] s1]; simpl in T;
    unfold cleanup, bind, emit, printf, Sleep, ret in Hr;
    [ exists (tr ++ mainOut_trace 0)
    | exists (tr ++ mainOut_trace e)
    | exists tr | exists tr ];
    (split; [exact E1|]); (split; [reflexivity|]); (split; [exact Ea|]);
    (split; [lia|]); (split; [lia|]); (split; [exact E5|]);
    unfold mainOut_trace; try destruct (e =? 0); simpl in Hr; subst r; simpl;
    rewrite T; simpl; rewrite <- ?app_assoc; reflexivity.
Qed.

(** X7. If the port opens and [SetCommState], [SetCommTimeouts] or
    [SetupComm] fails, [main] returns 5.  The calls after the failing one
    are not made ([err = err && ...]), nothing is written to or read from
    the port, nothing is stored, and [mainOut] reports the system error
    and closes both handles. *)
Theorem X7_configuration_refused (W : world) (fuel : nat) (argv : list string)
    (c : config) (file : string) :
  accepted argv c file ->
  port_opens W = true ->
  comm_state_ok W && comm_timeouts_ok W && setup_comm_ok W = false ->
  exists s,
    main W fuel argv initial = (Val 5, s) /\
    trace s = [EvPrint MsgBanner; EvOpenPort (portname c)]
              ++ configure_trace W c
              ++ EvPrint (MsgConfigPort (portname c)) :: mainOut_trace 5 /\
    sink s = [].
Proof.
  intros Hacc Hport Hcfg. rewrite (main_accepted W fuel argv c file Hacc).
  unfold session, open_port, configure_port, CreateFile_port, SetCommState,
    SetCommTimeouts, SetupComm, configure_trace, bind, at_mainOut.
  simpl. rewrite Hport. simpl.
  destruct (comm_state_ok W); simpl;
    [destruct (comm_timeouts_ok W); simpl;
     [destruct (setup_comm_ok W); [discriminate Hcfg|]; simpl|]|];
    eexists; (split; [reflexivity|]); split; reflexivity.
Qed.

(** X8. Every return of [main] on an accepted command line goes
    through [mainOut]: the trace ends with the system error text exactly
    when the code is not 0, then [CloseHandle] on the port, [CloseHandle]
    on the file and [Sleep(500)]; and none of these calls, nor the system
    error text, occurs earlier in the run.  Both handles are closed once,
    also when they were never opened. *)
Theorem X8_mainOut_closes_once (W : world) (fuel : nat) (argv : list string)
    (c : config) (file : string) (e : Z) (s : state) :
  accepted argv c file ->
  main W fuel argv initial = (Val e, s) ->
  exists tr,
    trace s = tr ++ mainOut_trace e /\ count is_mainOut_call tr = 0%nat.
Proof.
  intros Hacc. rewrite (main_accepted W fuel argv c file Hacc).
  unfold bind at 1, at_mainOut.
  destruct (session_before_mainOut W fuel c file banner_state) as (tr & T & C & _).
  destruct (session W fuel c file banner_state) as [[[]|e'| |] s1];
    simpl in T; try discriminate;
    unfold cleanup, bind, emit, printf, Sleep, ret; simpl.
  - intro H. inversion H. subst. simpl. exists (trace s1).
    rewrite <- !app_assoc. split; [reflexivity|]. rewrite T. exact C.
  - destruct (e' =? 0) eqn:E; simpl; intro H; inversion H; subst; simpl;
      unfold mainOut_trace; rewrite E; exists (trace s1);
      rewrite <- !app_assoc; (split; [reflexivity|]); rewrite T; exact C.
Qed.

(** X9. The progress markers count the bytes stored.  A receive phase
    that completes having stored [n] bytes has printed [(n - 1) / 1024]
    markers: one each time the count passes a multiple of
    [sizeof(strBuf)], none for 1024 bytes or fewer.  And a run of [main]
    that returns 0 on an accepted command line has printed
    [(size of the data stored - 1) / 1024] markers in all. *)
Theorem X9_progress_markers (W : world) :
  (forall fuel s s',
     receive W fuel s = (Val tt, s') ->
     exists tr n,
       trace s' = trace s ++ tr /\
       List.length (sink s') = (List.length (sink s) + n)%nat /\
       count is_dot tr = ((n - 1) / sizeof_strBuf)%nat) /\
  (forall fuel argv c file s,
     accepted argv c file ->
     main W fuel argv initial = (Val 0, s) ->
     count is_dot (trace s) = ((List.length (sink s) - 1) / sizeof_strBuf)%nat).
Proof.
  split; [apply receive_progress|].
  intros fuel argv c file s Hacc H.
  destruct (main_zero_inv W fuel argv c file s Hacc H) as (s1 & E1 & T1 & K1).
  destruct (session_val_inv W fuel c file _ _ E1) as (s_mid & tr0 & E2 & T2 & C2 & K2).
  destruct (receive_progress W fuel _ _ E2) as (tr & n & T3 & S3 & D3).
  rewrite T1, T3, T2, K1, S3, K2. simpl.
  repeat (rewrite count_app || rewrite count_cons || rewrite count_nil).
  rewrite C2, D3. simpl. rewrite Nat.add_0_r. reflexivity.
Qed.

(** X10. The counters of the receive loop stay in range.  Starting
    from [timeout = 0] and [bytesTilDot] in [0, 1024], an iteration that
    completes leaves [timeout] at 0 or at [MAX_TIMEOUTS] and [bytesTilDot]
    in [0, 1024] (so the comparison with the unsigned [sizeof(strBuf)]
    never meets a negative count), and the loop, when it ends, ends with
    [timeout = MAX_TIMEOUTS] and [bytesTilDot] in [0, 1024]. *)
Theorem X10_loop_counters_in_range (W : world) (l : locals) (s : state) :
  timeout l = 0 ->
  0 <= bytesTilDot l <= Z.of_nat sizeof_strBuf ->
  (forall l' s',
     receive_body W l s = (Val l', s') ->
     (timeout l' = 0 \/ timeout l' = MAX_TIMEOUTS) /\
     0 <= bytesTilDot l' <= Z.of_nat sizeof_strBuf) /\
  (forall fuel l' s',
     receive_loop W fuel l s = (Val l', s') ->
     timeout l' = MAX_TIMEOUTS /\
     0 <= bytesTilDot l' <= Z.of_nat sizeof_strBuf).
Proof.
  intros Ht Hb.
  assert (Hin : in_step (Z.to_nat (bytesTilDot l)) 0 (bytesTilDot l)).
  { unfold in_step. repeat split; lia. }
  split.
  - intros l' s' H. split.
    + destruct (receive_body_timeout W _ _ _ _ Ht H) as [H0|[H1 _]];
        [left; exact H0 | right; exact H1].
    + destruct (receive_body_progress W _ _ _ _ Hb H) as (tr & n & _ & _ & Ln & B & _).
      rewrite B. apply (in_step_next _ _ _ _ Hin Ln).
  - intros fuel l' s' H. split.
    + apply (receive_loop_end W fuel _ _ _ _ Ht H).
    + destruct (receive_loop_progress W fuel _ _ _ _ _ _ Hin H) as (tr & n & _ & _ & Hin').
      apply Hin'.
Qed.

(** X11. The receive loop ends only on an unanswered retry: its last
    iteration reads the clock, writes [+read], reads the clock, prints
    ":", sleeps 10 ms, and gets a read of zero bytes.  A run of [main]
    that returns 0 on an accepted command line ends with that iteration,
    the terminator, "Done" and [mainOut]. *)
Theorem X11_done_after_unanswered_retry (W : world) :
  (forall fuel l s l' s',
     timeout l = 0 ->
     receive_loop W fuel l s = (Val l', s') ->
     exists tr t0 t1, trace s' = trace s ++ tr ++ last_iteration t0 t1) /\
  (forall fuel argv c file s,
     accepted argv c file ->
     main W fuel argv initial = (Val 0, s) ->
     exists tr t0 t1,
       trace s = tr ++ last_iteration t0 t1
                 ++ [EvCommWrite terminator_cmd; EvPrint MsgDone]
                 ++ mainOut_trace 0).
Proof.
  split.
  - intros fuel l s l' s' Ht H. apply (receive_loop_end W fuel _ _ _ _ Ht H).
  - intros fuel argv c file s Hacc H.
    destruct (main_zero_inv W fuel argv c file s Hacc H) as (s1 & E1 & T1 & _).
    destruct (session_val_inv W fuel c file _ _ E1) as (s_mid & tr0 & E2 & _).
    destruct (receive_inv W fuel _ _ E2) as (l2 & s2 & E3 & T3 & _).
    assert (Ht : timeout (fst (loop_entry W s_mid)) = 0) by reflexivity.
    destruct (receive_loop_end W fuel _ _ _ _ Ht E3) as (_ & tr & t0 & t1 & T4).
    exists (trace (snd (loop_entry W s_mid)) ++ tr), t0, t1.
    rewrite T1, T3, T4, <- !app_assoc. reflexivity.
Qed.

(** X12. Silence ends the transfer, whatever would come later.  If
    [timeout] is 0, the next [d + 1] reads bring nothing, the next write to
    the port succeeds, and the window since [lastTicks] has elapsed by the
    [d]-th next reading of the clock, then the loop ends after one retry,
    with nothing stored and at most [d + 1] reads made.  Nothing is
    assumed of the reads after those, and none of them is made. *)
Theorem X12_late_data_is_not_read (W : world) (d : nat) (s : state) (l : locals)
    (c : nat) :
  comm_write W (n_comm_write s) = true ->
  (forall j, (n_comm_read s <= j <= n_comm_read s + d)%nat -> comm_read W j = Some []) ->
  timeout l = 0 ->
  lastTicks l = to_long (to_DWORD (tick W c)) ->
  1000 < to_DWORD (tick W (n_tick s + d) - tick W c) ->
  exists l' s' tr,
    (forall fuel, (d < fuel)%nat -> receive_loop W fuel l s = (Val l', s')) /\
    trace s' = trace s ++ tr /\
    sink s' = sink s /\
    (n_comm_read s' <= n_comm_read s + d + 1)%nat /\
    count is_read_request tr = 1%nat.
Proof.
  revert s l c. induction d as [|d IH]; intros s l c Hw Hs Ht Hl Hd;
    assert (Hr0 : comm_read W (n_comm_read s) = Some []) by (apply Hs; lia);
    destruct (1000 <? to_DWORD (to_DWORD (tick W (n_tick s)) - lastTicks l)) eqn:E.
  1, 3: (do 3 eexists; split;
    [ intros [|fuel] Hfuel; [lia|]; simpl;
      rewrite (bind_val _ _ _ _ _ _ _
                 (receive_body_retry W l s Hr0 E Hw));
      simpl; rewrite Ht; reflexivity
    | simpl; repeat split; try reflexivity; lia ]).
  - rewrite Hl, elapsed_eq, Nat.add_0_r in *. apply Z.ltb_ge in E. lia.
  - pose proof (receive_body_wait W l s Hr0 E) as B.
    match type of B with _ = (_, ?s1) => set (s1' := s1) in * end.
    destruct (IH s1' l c) as (l' & s' & tr & R & T & K & N & C); try assumption.
    + intros j Hj. apply Hs. simpl in Hj. lia.
    + simpl. rewrite Nat.add_succ_r in Hd. exact Hd.
    + exists l', s', ([EvTick (to_DWORD (tick W (n_tick s))); EvCommRead (Some []); EvSleep 20] ++ tr).
      split.
      { intros [|fuel] Hfuel; [lia|]. simpl.
        rewrite (bind_val _ _ _ _ _ _ _ B), Ht. simpl. apply R. lia. }
      rewrite T. simpl. rewrite <- app_assoc.
      repeat split; try assumption; try reflexivity. simpl in N. lia.
Qed.

(** X13. Neither loop has a bound of its own.  While every read
    brings data, the input-clearing loop does not end; and, with writes
    that succeed, the receive loop does not end either, whatever the
    clock says, and stores at least one byte in every iteration. *)
Theorem X13_loops_have_no_bound (W : world) (s : state) :
  talking_from W (n_comm_read s) ->
  (forall fuel, fst (flush W fuel s) = Fuel) /\
  (forall fuel l,
     port_writable W -> file_writable W -> timeout l = 0 ->
     fst (receive_loop W fuel l s) = Fuel /\
     (List.length (sink s) + fuel
      <= List.length (sink (snd (receive_loop W fuel l s))))%nat).
Proof.
  intro Ht. split.
  - intro fuel. apply flush_never_ends, Ht.
  - intros fuel l Hw Hf H0. apply receive_loop_never_ends; assumption.
Qed.

(** X14. However the receive phase ends (completed, a failed read, a
    failed retry, a failed write to the file, or still running), the
    output file has taken the bytes read from the port, in order, from the
    first on.  Unless the write to the file failed it has taken all of
    them.  When the write failed (code 10) the phase ends there: its last
    calls are the read that brought a chunk, not empty and no larger than
    [strBuf], the failed write and the message; and the file has taken
    exactly the bytes read before that chunk.  A write to the file that
    succeeds is assumed to store all its bytes. *)
Theorem X14_file_holds_what_was_read (W : world) (fuel : nat) (s : state) :
  whole_writes W ->
  exists tr,
    trace (snd (receive W fuel s)) = trace s ++ tr /\
    ((fst (receive W fuel s) <> Goto 10 /\
      sink (snd (receive W fuel s)) = sink s ++ bytes_read tr) \/
     (fst (receive W fuel s) = Goto 10 /\
      exists pre lost,
        tr = pre ++ failed_store lost /\
        lost <> [] /\
        (List.length lost <= sizeof_strBuf)%nat /\
        sink (snd (receive W fuel s)) = sink s ++ bytes_read pre)).
Proof.
  intro Hww. destruct (receive_prefix W fuel s Hww) as (tr & T & K).
  exists tr. split; [exact T|].
  unfold file_keeps in K.
  destruct (write_failed (fst (receive W fuel s))) eqn:F.
  - right. split; [apply write_failed_iff, F | exact K].
  - left. split; [apply write_failed_not, F | exact K].
Qed.

(** X15. If the output file cannot be opened, [main] returns 7 and
    the instrument is not triggered: after the version query nothing is
    written to the port, and nothing is stored. *)
Theorem X15_no_trigger_without_file (W : world) (fuel : nat) (argv : list string)
    (c : config) (file : string) (stale : list (list byte)) (reply : list byte) :
  accepted argv c file -> port_ready W ->
  Forall chunk_ok stale -> delivers W 0 stale ->
  comm_read W (List.length stale) = Some [] ->
  (List.length stale < fuel)%nat ->
  comm_write W 0 = true -> comm_write W 1 = true ->
  comm_read W (S (List.length stale)) = Some reply ->
  (List.length reply < sizeof_strBuf)%nat ->
  file_opens W = false ->
  exists s,
    main W fuel argv initial = (Val 7, s) /\
    trace s = trace (identified_state c stale reply)
              ++ [EvOpenFile (output_name file);
                  EvPrint (MsgOpenFile (output_name file))]
              ++ mainOut_trace 7 /\
    n_comm_write s = 2%nat /\
    sink s = [].
Proof.
  intros Hacc Hport Hok Hd He Hfuel Hw0 Hw1 Hr Hlen Hfile.
  rewrite (main_identified W fuel argv c file stale reply) by assumption.
  destruct Hacc as (i & _ & _ & _ & _ & _ & Hl).
  unfold transfer, add_extension, output_name.
  replace (String.length file + 4 <? sizeof_filename - 1)%nat with true
    by (symmetry; apply Nat.ltb_lt; exact Hl).
  destruct (CLib.no_extension file);
    unfold open_output, CreateFile_output, bind, at_mainOut, cleanup, emit, printf,
      Sleep, ret, goto; simpl; rewrite Hfile; simpl;
    eexists; (split; [reflexivity|]); simpl; rewrite <- !app_assoc;
    repeat split; reflexivity.
Qed.

(** X16. If the write of the address, mode and trigger line fails, or
    the write of the first [+read] after it, [main] returns 8.  The output
    file has been opened by then, and nothing is stored in it.  In the
    first case no [+read] is written; in the second the trigger line and
    the pause of 500 ms come first. *)
Theorem X16_trigger_write_fails (W : world) (fuel : nat) (argv : list string)
    (c : config) (file : string) (stale : list (list byte)) (reply : list byte) :
  accepted argv c file -> port_ready W ->
  Forall chunk_ok stale -> delivers W 0 stale ->
  comm_read W (List.length stale) = Some [] ->
  (List.length stale < fuel)%nat ->
  comm_write W 0 = true -> comm_write W 1 = true ->
  comm_read W (S (List.length stale)) = Some reply ->
  (List.length reply < sizeof_strBuf)%nat ->
  file_opens W = true ->
  (comm_write W 2 = false ->
   exists s,
     main W fuel argv initial = (Val 8, s) /\
     trace s = trace (identified_state c stale reply)
               ++ [EvOpenFile (output_name file);
                   EvCommWrite (arm_cmd (address c));
                   EvPrint MsgWriteCommand]
               ++ mainOut_trace 8 /\
     sink s = []) /\
  (comm_write W 2 = true -> comm_write W 3 = false ->
   exists s,
     main W fuel argv initial = (Val 8, s) /\
     trace s = trace (identified_state c stale reply)
               ++ [EvOpenFile (output_name file);
                   EvCommWrite (arm_cmd (address c)); EvSleep 500;
                   EvCommWrite read_cmd; EvPrint MsgWriteCommand]
               ++ mainOut_trace 8 /\
     sink s = []).
Proof.
  intros Hacc Hport Hok Hd He Hfuel Hw0 Hw1 Hr Hlen Hfile.
  rewrite (main_identified W fuel argv c file stale reply) by assumption.
  destruct Hacc as (i & _ & _ & _ & _ & _ & Hl).
  unfold transfer, add_extension, output_name.
  replace (String.length file + 4 <? sizeof_filename - 1)%nat with true
    by (symmetry; apply Nat.ltb_lt; exact Hl).
  split; [intro Hw2 | intros Hw2 Hw3];
    destruct (CLib.no_extension file);
    unfold open_output, arm, CreateFile_output, WriteFile_comm, bind, at_mainOut,
      cleanup, emit, printf, Sleep, ret, goto; simpl; rewrite Hfile; simpl;
    rewrite Hw2; simpl; rewrite ?Hw3; simpl;
    eexists; (split; [reflexivity|]); simpl; rewrite <- !app_assoc;
    repeat split; reflexivity.
Qed.

(** X17. If a read fails while the input is cleared, [main] returns
    12, whether or not the probe before it was written: the [+ver] request
    is not written, the output file is not opened, nothing is stored. *)
Theorem X17_input_clearing_fails (W : world) (fuel : nat) (argv : list string)
    (c : config) (file : string) (stale : list (list byte)) :
  accepted argv c file -> port_ready W ->
  Forall chunk_ok stale -> delivers W 0 stale ->
  comm_read W (List.length stale) = None ->
  (List.length stale < fuel)%nat ->
  exists s,
    main W fuel argv initial = (Val 12, s) /\
    trace s = trace (configured_state c)
              ++ EvCommWrite probe_cmd :: flush_fail_trace stale
              ++ mainOut_trace 12 /\
    sink s = [].
Proof.
  intros Hacc Hport Hok Hd He Hfuel.
  rewrite (main_accepted W fuel argv c file Hacc).
  unfold bind at 1, at_mainOut.
  rewrite (session_configured W fuel c file Hport).
  unfold bind at 1, identify, bind at 1, WriteFile_comm at 1.
  unfold bind at 1.
  rewrite (flush_fails W stale); try assumption.
  unfold cleanup, bind, emit, printf, Sleep, ret. simpl.
  eexists. split; [reflexivity|]. simpl. rewrite <- ?app_assoc. simpl.
  rewrite <- ?app_assoc. split; reflexivity.
Qed.

(** X18. The version query short-circuits.  A failed write of the
    probe is acted on only after the input has been cleared: the clearing
    reads are made, [+ver] is not written, no reply is read, and [main]
    returns 6.  A failed write of [+ver] returns 6 as well, without a read
    of the reply. *)
Theorem X18_version_query_short_circuit (W : world) (fuel : nat)
    (argv : list string) (c : config) (file : string) (stale : list (list byte)) :
  accepted argv c file -> port_ready W ->
  Forall chunk_ok stale -> delivers W 0 stale ->
  comm_read W (List.length stale) = Some [] ->
  (List.length stale < fuel)%nat ->
  (comm_write W 0 = false ->
   exists s,
     main W fuel argv initial = (Val 6, s) /\
     trace s = trace (configured_state c)
               ++ EvCommWrite probe_cmd :: flush_trace stale
               ++ [EvSleep 100; EvPrint MsgTestPort] ++ mainOut_trace 6) /\
  (comm_write W 0 = true -> comm_write W 1 = false ->
   exists s,
     main W fuel argv initial = (Val 6, s) /\
     trace s = trace (configured_state c)
               ++ EvCommWrite probe_cmd :: flush_trace stale
               ++ [EvCommWrite ver_cmd; EvSleep 100; EvPrint MsgTestPort]
               ++ mainOut_trace 6).
Proof.
  intros Hacc Hport Hok Hd He Hfuel.
  pose proof (main_accepted W fuel argv c file Hacc) as E.
  unfold bind at 1, at_mainOut in E.
  rewrite (session_configured W fuel c file Hport) in E.
  unfold bind at 1 in E.
  rewrite (identify_flushes W (configured_state c) fuel stale) in E by assumption.
  unfold after_flush in E.
  split; [intro Hw0 | intros Hw0 Hw1]; rewrite E; clear E;
    unfold WriteFile_comm, ReadFile_comm, cleanup, bind, emit, printf, Sleep, ret, goto;
    simpl; rewrite Hw0; simpl; rewrite ?Hw1; simpl;
    eexists; (split; [reflexivity|]); simpl; rewrite <- !app_assoc; simpl;
    rewrite <- ?app_assoc; reflexivity.
Qed.

(** X19. The extension is added at most once: the name the output
    file is opened under is left as it is by a second pass of lines
    187-189; a name that ends in "." is kept; only the part after the
    last backslash counts; and a name without extension that leaves room
    for it gets ".bmp" appended. *)
Theorem X19_extension_added_once (file : string) :
  output_name (output_name file) = output_name file /\
  output_name (file ++ ".") = (file ++ ".")%string /\
  (forall dir, CLib.no_extension (dir ++ String "\" file) = CLib.no_extension file) /\
  (CLib.no_extension file = true ->
   (String.length file + 4 < sizeof_filename - 1)%nat ->
   forall s, add_extension file s = (Val (file ++ ".bmp")%string, s)).
Proof.
  split; [|split; [|split]].
  - unfold output_name at 2 3. destruct (CLib.no_extension file) eqn:E.
    + unfold output_name, CLib.no_extension. rewrite ext_scan_app.
      destruct (CLib.ext_scan file false); reflexivity.
    + unfold output_name. rewrite E. reflexivity.
  - unfold output_name, CLib.no_extension. rewrite ext_scan_app.
    destruct (CLib.ext_scan file false); reflexivity.
  - intro dir. unfold CLib.no_extension. rewrite ext_scan_app. reflexivity.
  - intros E Hlen s. unfold add_extension. rewrite E.
    replace (String.length file + 4 <? sizeof_filename - 1)%nat with true
      by (symmetry; apply Nat.ltb_lt; exact Hlen).
    reflexivity.
Qed.

(** X20. For every address that passes the check, the address, mode
    and trigger line that [sprintf_s] formats is shorter than the 1023
    bytes it may take and holds no NUL byte: [strlen] gives its whole
    length, and the whole line is written. *)
Theorem X20_trigger_line_fits (a : Z) :
  0 <= a <= 30 ->
  CLib.until_nul (arm_cmd a) = arm_cmd a /\
  (List.length (arm_cmd a) < sizeof_strBuf - 1)%nat.
Proof.
  intro H. destruct (arm_cmd_small (Z.to_nat a)) as [H1 H2]; [lia|].
  rewrite Z2Nat.id in H1, H2 by lia.
  split; [exact H1|]. change sizeof_strBuf with 1024%nat. lia.
Qed.

(** X21. The result of the last write, the terminator, is not looked
    at: when the receive loop has ended, the receive phase completes and
    [main] leaves with code 0 also if that write fails, and no failure is
    reported. *)
Theorem X21_terminator_result_ignored (W : world) (fuel : nat) (s : state)
    (l' : locals) (s1 : state) :
  receive_loop W fuel (fst (loop_entry W s)) (snd (loop_entry W s)) = (Val l', s1) ->
  comm_write W (n_comm_write s1) = false ->
  exists s',
    receive W fuel s = (Val tt, s') /\
    trace s' = trace s1 ++ [EvCommWrite terminator_cmd; EvPrint MsgDone] /\
    failures (trace s') = failures (trace s1) /\
    fst ((err <- at_mainOut (receive W fuel);; cleanup err) s) = Val 0.
Proof.
  intros H _. pose proof (receive_of_loop W fuel s l' s1 H) as R.
  eexists. split; [exact R|]. split; [reflexivity|]. split.
  - simpl. rewrite failures_app. simpl. apply app_nil_r.
  - unfold bind, at_mainOut. rewrite R. reflexivity.
Qed.

(** X22. Exit code 0 has two meanings.  A run of [main] that returns
    0 either had no argument, and then it printed the banner and the
    usage text and made no system call; or it had arguments and ended a
    transfer: its trace ends with the terminator, "Done", the closing of
    both handles and the pause of 500 ms, with no system error text. *)
Theorem X22_exit_code_zero (W : world) (fuel : nat) (argv : list string) (s : state) :
  main W fuel argv initial = (Val 0, s) ->
  ((argc argv <= 1)%nat /\ trace s = [EvPrint MsgBanner; EvPrint MsgUsage]) \/
  ((1 < argc argv)%nat /\
   exists tr,
     trace s = tr ++ [EvCommWrite terminator_cmd; EvPrint MsgDone] ++ mainOut_trace 0).
Proof.
  unfold main, bind at 1. simpl.
  destruct (argc argv <=? 1)%nat eqn:E1.
  { intro H. inversion H. left. split; [apply Nat.leb_le, E1 | reflexivity]. }
  apply Nat.leb_gt in E1.
  destruct (parse_args argv) as [[i c]|]; [|discriminate].
  destruct (argc argv <=? i)%nat; [discriminate|].
  destruct ((30 <? address c) || (address c <? 0)); [discriminate|].
  destruct ((baud c <? 0) || (6000000 <? baud c)); [discriminate|].
  destruct (arg argv i) as [a|]; [|discriminate].
  unfold copy_filename. destruct (_ <? _)%nat; [|discriminate].
  unfold bind at 1, ret at 1. unfold bind at 1, at_mainOut.
  match goal with |- context [session W fuel c a ?s0] =>
    pose proof (session_leaves W fuel c a s0) as L;
    destruct (session W fuel c a s0) as [[[]|e| |] s1] eqn:ES
  end; try discriminate; unfold cleanup, bind, emit, printf, Sleep, ret; simpl.
  - intro H. inversion H. subst. simpl. right. split; [exact E1|].
    destruct (session_val_inv W fuel c a _ _ ES) as (s_mid & tr0 & E2 & _).
    destruct (receive_inv W fuel _ _ E2) as (l2 & s2 & _ & T & _).
    exists (trace s2). rewrite T, <- !app_assoc. reflexivity.
  - destruct (L e s1 eq_refl) as (k & Hk & He). subst e.
    replace (exit_code_of k =? 0) with false by (symmetry; apply Z.eqb_neq; lia).
    simpl. intro H. inversion H. lia.
Qed.

(** X23. The length of the file name is checked by the CRT, not by
    [main], and a violation ends the program in the CRT's handler
    ([Abort]).  A name of 255 characters or more ends it in [strcpy_s]
    (line 106), before any system call.  A name without extension of 251
    to 254 characters passes line 106 and ends it in [strcat_s] (line
    188), after the port has been opened, configured and asked for its
    version: the output file is not opened and [mainOut] is not reached,
    so the handles are not closed. *)
Theorem X23_file_name_too_long (W : world) (fuel : nat) (argv : list string)
    (i : nat) (c : config) (file : string) :
  (1 < argc argv)%nat ->
  parse_args argv = Some (i, c) ->
  arg argv i = Some file ->
  0 <= address c <= 30 ->
  0 <= baud c <= 6000000 ->
  ((sizeof_filename - 1 <= String.length file)%nat ->
   main W fuel argv initial = (Abort, banner_state)) /\
  (forall stale reply,
     (String.length file < sizeof_filename - 1)%nat ->
     (sizeof_filename - 1 <= String.length file + 4)%nat ->
     CLib.no_extension file = true ->
     port_ready W ->
     Forall chunk_ok stale -> delivers W 0 stale ->
     comm_read W (List.length stale) = Some [] ->
     (List.length stale < fuel)%nat ->
     comm_write W 0 = true -> comm_write W 1 = true ->
     comm_read W (S (List.length stale)) = Some reply ->
     (List.length reply < sizeof_strBuf)%nat ->
     main W fuel argv initial = (Abort, identified_state c stale reply)).
Proof.
  intros Hargc Hparse Harg Haddr Hbaud. split.
  - intro Hlen. unfold main, bind at 1. simpl.
    apply Nat.leb_gt in Hargc. rewrite Hargc, Hparse.
    assert (Hi : (argc argv <=? i)%nat = false).
    { apply Nat.leb_gt. apply nth_error_Some. unfold arg in Harg. congruence. }
    rewrite Hi.
    replace (30 <? address c) with false by (symmetry; apply Z.ltb_ge; lia).
    replace (address c <? 0) with false by (symmetry; apply Z.ltb_ge; lia).
    replace (baud c <? 0) with false by (symmetry; apply Z.ltb_ge; lia).
    replace (6000000 <? baud c) with false by (symmetry; apply Z.ltb_ge; lia).
    simpl. rewrite Harg. unfold copy_filename.
    replace (String.length file <? sizeof_filename - 1)%nat with false
      by (symmetry; apply Nat.ltb_ge; exact Hlen).
    reflexivity.
  - intros stale reply Hlen Hroom Hext Hport Hok Hd He Hfuel Hw0 Hw1 Hr Hreply.
    rewrite (main_checked W fuel argv i c file) by assumption.
    unfold bind at 1, at_mainOut.
    rewrite (session_configured W fuel c file Hport).
    unfold bind at 1.
    rewrite (identify_replied W (configured_state c) fuel stale reply
               Hok Hd He Hfuel Hw0 Hw1 Hr Hreply).
    unfold transfer, add_extension, bind. rewrite Hext.
    replace (String.length file + 4 <? sizeof_filename - 1)%nat with false
      by (symmetry; apply Nat.ltb_ge; exact Hroom).
    reflexivity.
Qed.

(** X24. The retry test is safe across the wrap of the tick count.
    With [lastTicks] taken from a reading of the clock at time [t0]
    (kept in a signed [long]) and the clock now less than 2^32 ms later,
    the test of line 221 holds exactly when more than 1000 ms have passed,
    also when the 32-bit count has wrapped in between or [lastTicks] is
    negative; and the iteration writes a [+read] exactly then. *)
Theorem X24_window_across_the_wrap (W : world) (l : locals) (s : state) (t0 : Z) :
  lastTicks l = to_long (to_DWORD t0) ->
  0 <= tick W (n_tick s) - t0 < DWORD_mod ->
  window_elapsed W l s = (1000 <? tick W (n_tick s) - t0) /\
  exists tr,
    trace (snd (receive_body W l s)) = trace s ++ tr /\
    count is_read_request tr =
      if 1000 <? tick W (n_tick s) - t0 then 1%nat else 0%nat.
Proof.
  intros Hl Hd.
  assert (E : window_elapsed W l s = (1000 <? tick W (n_tick s) - t0)).
  { unfold window_elapsed. rewrite Hl, elapsed_eq.
    unfold to_DWORD. rewrite Z.mod_small by exact Hd. reflexivity. }
  split; [exact E|].
  destruct (receive_body_requests W l s) as (tr & T & _ & Q & _).
  exists tr. split; [exact T|]. rewrite Q, E. reflexivity.
Qed.

(** ** The further properties at sample inputs *)

Lemma sample_items_ok : Forall item_ok sample_items.
Proof.
  unfold sample_items.
  repeat (apply Forall_cons || apply Forall_nil); simpl;
    try reflexivity; (split; [reflexivity|]); intro H;
    try discriminate H; unfold sizeof_portname; simpl; lia.
Qed.

Lemma replying_port_ready : port_ready replying_world.
Proof. repeat split. Qed.

Lemma one_byte_reply : (List.length [Byte.x41] < sizeof_strBuf)%nat.
Proof. change sizeof_strBuf with 1024%nat. simpl. lia. Qed.

Lemma no_stale_lt_1 : (List.length (@nil (list byte)) < 1)%nat.
Proof. simpl. lia. Qed.

Lemma chatty_talking : talking_from chatty_world 0.
Proof.
  intros j _. exists [Byte.x41]. split; [reflexivity|].
  unfold chunk_ok. change sizeof_strBuf with 1024%nat. simpl. lia.
Qed.

Lemma late_world_silent j :
  (0 <= j <= 0 + 3)%nat -> comm_read late_world j = Some [].
Proof. intro H. do 4 (destruct j as [|j]; [reflexivity|]). lia. Qed.

(** [-a 5 -p COM3 verbose -a 7 out.bmp]: port COM3, address 7. *)
Lemma X1_witness :
  parse_args (command_line "tekcap" sample_items "out.bmp") =
    Some (8%nat, {| portname := device_prefix ++ "COM3"; baud := 230400;
                    address := 7 |}) /\
  arg (command_line "tekcap" sample_items "out.bmp") 8 = Some "out.bmp"%string.
Proof.
  exact (X1_options_in_any_order "tekcap" sample_items "out.bmp" sample_items_ok).
Defined.

(** [-a 31 out.bmp]: the loop ends on the last argument. *)
Lemma X3_witness :
  (3 = argc argv_address_31 - 1 \/ 3 = argc argv_address_31)%nat /\
  ((3 < argc argv_address_31)%nat ->
   arg argv_address_31 3 = Some (last argv_address_31 EmptyString)).
Proof.
  assert (H : (1 < argc argv_address_31)%nat) by (unfold argc; simpl; lia).
  exact (X3_file_is_last_argument argv_address_31 3
           {| portname := portname default_config; baud := 230400; address := 31 |}
           H eq_refl).
Defined.

(** [-a xyz out.bmp] and [-b xyz out.bmp]. *)
Lemma X4_witness :
  CLib.strtol "xyz" = 0 /\
  parse_args ["tekcap"; "-a"; "xyz"; "out.bmp"]%string =
    Some (3%nat, {| portname := portname default_config; baud := 230400;
                    address := 0 |}) /\
  parse_args ["tekcap"; "-b"; "xyz"; "out.bmp"]%string =
    Some (3%nat, {| portname := portname default_config; baud := 0;
                    address := 1 |}).
Proof.
  pose proof (X4_value_without_digits "tekcap" "out.bmp" "x" "yz" eq_refl) as H.
  exact (conj (proj1 H) (conj (proj1 (proj2 H)) (proj1 (proj2 (proj2 H))))).
Defined.

(** The numeral of 5. *)
Lemma X5_witness :
  CLib.strtol (CLib.itoa 5) = 5 /\
  is_option (CLib.itoa 5) = false /\
  parse_args ["tekcap"; "-a"; CLib.itoa 5; "out.bmp"]%string =
    Some (3%nat, {| portname := portname default_config; baud := 230400;
                    address := 5 |}) /\
  parse_args ["tekcap"; "-b"; CLib.itoa 5; "out.bmp"]%string =
    Some (3%nat, {| portname := portname default_config; baud := 5;
                    address := 1 |}).
Proof.
  assert (H : LONG_MIN <= 5 <= LONG_MAX) by (unfold LONG_MIN, LONG_MAX; lia).
  exact (X5_decimal_values "tekcap" "out.bmp" 5 H).
Defined.

(** The default command line on the sample bench. *)
Lemma X6_witness :
  exists i c file tr,
    (1 < argc sample_argv)%nat /\
    parse_args sample_argv = Some (i, c) /\
    arg sample_argv i = Some file /\
    0 <= address c <= 30 /\
    0 <= baud c <= 6000000 /\
    (String.length file < sizeof_filename - 1)%nat /\
    trace (snd (main (lab_world []) 8 sample_argv initial)) =
      EvPrint MsgBanner :: EvOpenPort (portname c) :: tr.
Proof.
  assert (H : forallb is_print (trace (snd (main (lab_world []) 8 sample_argv initial)))
              = false) by (vm_compute; reflexivity).
  exact (X6_calls_need_valid_line (lab_world []) 8 sample_argv H).
Defined.

(** A port that refuses its settings at the first call. *)
Lemma X7_witness :
  exists s,
    main (config_refused (lab_world [])) 0 sample_argv initial = (Val 5, s) /\
    trace s = [EvPrint MsgBanner; EvOpenPort (portname default_config)]
              ++ configure_trace (config_refused (lab_world [])) default_config
              ++ EvPrint (MsgConfigPort (portname default_config)) :: mainOut_trace 5 /\
    sink s = [].
Proof.
  exact (X7_configuration_refused (config_refused (lab_world [])) 0 sample_argv
           default_config "out.bmp" sample_accepted eq_refl eq_refl).
Defined.

(** A port that does not open: [mainOut] with code 4. *)
Lemma X8_witness :
  exists tr,
    trace (snd (main (port_closed (lab_world [])) 0 sample_argv initial)) =
      tr ++ mainOut_trace 4 /\
    count is_mainOut_call tr = 0%nat.
Proof.
  exact (X8_mainOut_closes_once (port_closed (lab_world [])) 0 sample_argv
           default_config "out.bmp" 4
           (snd (main (port_closed (lab_world [])) 0 sample_argv initial))
           sample_accepted eq_refl).
Defined.

(** Scenario A: 1034 bytes, one marker. *)
Lemma X9_witness :
  main scenario_A 8 sample_argv initial =
    (Val 0, snd (main scenario_A 8 sample_argv initial)) /\
  List.length (sink (snd (main scenario_A 8 sample_argv initial))) = 1034%nat /\
  count is_dot (trace (snd (main scenario_A 8 sample_argv initial))) =
    ((List.length (sink (snd (main scenario_A 8 sample_argv initial))) - 1)
     / sizeof_strBuf)%nat.
Proof.
  assert (H : main scenario_A 8 sample_argv initial =
              (Val 0, snd (main scenario_A 8 sample_argv initial)))
    by (vm_compute; reflexivity).
  split; [exact H|]. split; [vm_compute; reflexivity|].
  exact (proj2 (X9_progress_markers scenario_A) 8%nat sample_argv default_config
           "out.bmp"%string _ sample_accepted H).
Defined.

(** The loop in silence, from the start of the sample bench. *)
Lemma X10_witness :
  (forall l' s',
     receive_body (lab_world []) fresh_locals initial = (Val l', s') ->
     (timeout l' = 0 \/ timeout l' = MAX_TIMEOUTS) /\
     0 <= bytesTilDot l' <= Z.of_nat sizeof_strBuf) /\
  (forall fuel l' s',
     receive_loop (lab_world []) fuel fresh_locals initial = (Val l', s') ->
     timeout l' = MAX_TIMEOUTS /\
     0 <= bytesTilDot l' <= Z.of_nat sizeof_strBuf).
Proof.
  assert (H : 0 <= bytesTilDot fresh_locals <= Z.of_nat sizeof_strBuf)
    by (change sizeof_strBuf with 1024%nat; simpl; lia).
  exact (X10_loop_counters_in_range (lab_world []) fresh_locals initial eq_refl H).
Defined.

(** The default command line on the sample bench returns 0. *)
Lemma X11_witness :
  exists tr t0 t1,
    trace (snd (main (lab_world []) 8 sample_argv initial)) =
      tr ++ last_iteration t0 t1
      ++ [EvCommWrite terminator_cmd; EvPrint MsgDone]
      ++ mainOut_trace 0.
Proof.
  assert (H : main (lab_world []) 8 sample_argv initial =
              (Val 0, snd (main (lab_world []) 8 sample_argv initial)))
    by (vm_compute; reflexivity).
  exact (proj2 (X11_done_after_unanswered_retry (lab_world [])) 8%nat sample_argv
           default_config "out.bmp"%string _ sample_accepted H).
Defined.

(** Four silent reads, then a byte that is never read. *)
Lemma X12_witness :
  comm_read late_world 4 = Some [Byte.x41] /\
  exists l' s' tr,
    (forall fuel, (3 < fuel)%nat ->
       receive_loop late_world fuel (fst (loop_entry late_world initial))
         (snd (loop_entry late_world initial)) = (Val l', s')) /\
    trace s' = trace (snd (loop_entry late_world initial)) ++ tr /\
    sink s' = sink (snd (loop_entry late_world initial)) /\
    (n_comm_read s' <= n_comm_read (snd (loop_entry late_world initial)) + 3 + 1)%nat /\
    count is_read_request tr = 1%nat.
Proof.
  split; [reflexivity|].
  assert (H : 1000 < to_DWORD (tick late_world
                                 (n_tick (snd (loop_entry late_world initial)) + 3)
                               - tick late_world 0))
    by (vm_compute; reflexivity).
  exact (X12_late_data_is_not_read late_world 3 (snd (loop_entry late_world initial))
           (fst (loop_entry late_world initial)) 0
           eq_refl late_world_silent eq_refl eq_refl H).
Defined.

(** A port that has a byte for every read. *)
Lemma X13_witness :
  (forall fuel, fst (flush chatty_world fuel initial) = Fuel) /\
  (forall fuel,
     fst (receive_loop chatty_world fuel fresh_locals initial) = Fuel /\
     (List.length (sink initial) + fuel
      <= List.length (sink (snd (receive_loop chatty_world fuel fresh_locals initial))))%nat).
Proof.
  pose proof (X13_loops_have_no_bound chatty_world initial chatty_talking) as H.
  split; [exact (proj1 H)|].
  intro fuel.
  assert (Hw : port_writable chatty_world) by (intro k; reflexivity).
  assert (Hf : file_writable chatty_world) by (intros k n; reflexivity).
  exact (proj2 H fuel fresh_locals Hw Hf eq_refl).
Defined.

(** A file that cannot be written: the first chunk is lost, code 10. *)
Lemma X14_witness :
  fst (receive (file_read_only (lab_world [Some [Byte.x41]])) 8 initial) = Goto 10 /\
  exists tr,
    trace (snd (receive (file_read_only (lab_world [Some [Byte.x41]])) 8 initial))
      = trace initial ++ tr /\
    ((fst (receive (file_read_only (lab_world [Some [Byte.x41]])) 8 initial) <> Goto 10 /\
      sink (snd (receive (file_read_only (lab_world [Some [Byte.x41]])) 8 initial))
        = sink initial ++ bytes_read tr) \/
     (fst (receive (file_read_only (lab_world [Some [Byte.x41]])) 8 initial) = Goto 10 /\
      exists pre lost,
        tr = pre ++ failed_store lost /\
        lost <> [] /\
        (List.length lost <= sizeof_strBuf)%nat /\
        sink (snd (receive (file_read_only (lab_world [Some [Byte.x41]])) 8 initial))
          = sink initial ++ bytes_read pre)).
Proof.
  split; [vm_compute; reflexivity|].
  assert (H : whole_writes (file_read_only (lab_world [Some [Byte.x41]])))
    by (intros k n m E; discriminate E).
  exact (X14_file_holds_what_was_read _ 8 initial H).
Defined.

(** An output file that does not open. *)
Lemma X15_witness :
  exists s,
    main (file_closed replying_world) 1 sample_argv initial = (Val 7, s) /\
    trace s = trace (identified_state default_config [] [Byte.x41])
              ++ [EvOpenFile (output_name "out.bmp");
                  EvPrint (MsgOpenFile (output_name "out.bmp"))]
              ++ mainOut_trace 7 /\
    n_comm_write s = 2%nat /\
    sink s = [].
Proof.
  exact (X15_no_trigger_without_file (file_closed replying_world) 1 sample_argv
           default_config "out.bmp" [] [Byte.x41]
           sample_accepted replying_port_ready (Forall_nil _) I eq_refl
           no_stale_lt_1 eq_refl eq_refl eq_refl one_byte_reply eq_refl).
Defined.

(** A trigger line that cannot be written. *)
Lemma X16_witness :
  exists s,
    main (write_fails_at 2 replying_world) 1 sample_argv initial = (Val 8, s) /\
    trace s = trace (identified_state default_config [] [Byte.x41])
              ++ [EvOpenFile (output_name "out.bmp");
                  EvCommWrite (arm_cmd (address default_config));
                  EvPrint MsgWriteCommand]
              ++ mainOut_trace 8 /\
    sink s = [].
Proof.
  exact (proj1 (X16_trigger_write_fails (write_fails_at 2 replying_world) 1 sample_argv
                  default_config "out.bmp" [] [Byte.x41]
                  sample_accepted replying_port_ready (Forall_nil _) I eq_refl
                  no_stale_lt_1 eq_refl eq_refl eq_refl one_byte_reply eq_refl)
               eq_refl).
Defined.

(** A first clearing read that fails. *)
Lemma X17_witness :
  exists s,
    main (lab_world [None]) 1 sample_argv initial = (Val 12, s) /\
    trace s = trace (configured_state default_config)
              ++ EvCommWrite probe_cmd :: flush_fail_trace []
              ++ mainOut_trace 12 /\
    sink s = [].
Proof.
  exact (X17_input_clearing_fails (lab_world [None]) 1 sample_argv
           default_config "out.bmp" []
           sample_accepted (lab_port_ready _) (Forall_nil _) I eq_refl no_stale_lt_1).
Defined.

(** A probe that cannot be written. *)
Lemma X18_witness :
  exists s,
    main (write_fails_at 0 (lab_world [])) 1 sample_argv initial = (Val 6, s) /\
    trace s = trace (configured_state default_config)
              ++ EvCommWrite probe_cmd :: flush_trace []
              ++ [EvSleep 100; EvPrint MsgTestPort] ++ mainOut_trace 6.
Proof.
  exact (proj1 (X18_version_query_short_circuit (write_fails_at 0 (lab_world [])) 1
                  sample_argv default_config "out.bmp" []
                  sample_accepted (conj eq_refl (conj eq_refl (conj eq_refl eq_refl)))
                  (Forall_nil _) I eq_refl no_stale_lt_1)
               eq_refl).
Defined.

(** Address 1. *)
Lemma X20_witness :
  CLib.until_nul (arm_cmd 1) = arm_cmd 1 /\
  (List.length (arm_cmd 1) < sizeof_strBuf - 1)%nat.
Proof.
  assert (H : 0 <= 1 <= 30) by lia.
  exact (X20_trigger_line_fits 1 H).
Defined.

(** A terminator that cannot be written, after a loop in silence. *)
Lemma X21_witness :
  comm_write (write_fails_at 1 (lab_world [])) 1 = false /\
  exists s',
    receive (write_fails_at 1 (lab_world [])) 8 initial = (Val tt, s') /\
    trace s' =
      trace (snd (receive_loop (write_fails_at 1 (lab_world [])) 8
                    (fst (loop_entry (write_fails_at 1 (lab_world [])) initial))
                    (snd (loop_entry (write_fails_at 1 (lab_world [])) initial))))
      ++ [EvCommWrite terminator_cmd; EvPrint MsgDone] /\
    failures (trace s') =
      failures (trace (snd (receive_loop (write_fails_at 1 (lab_world [])) 8
                    (fst (loop_entry (write_fails_at 1 (lab_world [])) initial))
                    (snd (loop_entry (write_fails_at 1 (lab_world [])) initial))))) /\
    fst ((err <- at_mainOut (receive (write_fails_at 1 (lab_world [])) 8);;
          cleanup err) initial) = Val 0.
Proof.
  split; [reflexivity|].
  assert (H : receive_loop (write_fails_at 1 (lab_world [])) 8
                (fst (loop_entry (write_fails_at 1 (lab_world [])) initial))
                (snd (loop_entry (write_fails_at 1 (lab_world [])) initial)) =
              (Val {| lastTicks := 1500; bytesTilDot := 0; timeout := 1 |},
               snd (receive_loop (write_fails_at 1 (lab_world [])) 8
                      (fst (loop_entry (write_fails_at 1 (lab_world [])) initial))
                      (snd (loop_entry (write_fails_at 1 (lab_world [])) initial)))))
    by (vm_compute; reflexivity).
  assert (Hw : comm_write (write_fails_at 1 (lab_world []))
                 (n_comm_write
                    (snd (receive_loop (write_fails_at 1 (lab_world [])) 8
                      (fst (loop_entry (write_fails_at 1 (lab_world [])) initial))
                      (snd (loop_entry (write_fails_at 1 (lab_world [])) initial)))))
               = false)
    by (vm_compute; reflexivity).
  exact (X21_terminator_result_ignored (write_fails_at 1 (lab_world [])) 8 initial
           _ _ H Hw).
Defined.

(** No argument: the usage text. *)
Lemma X22_witness :
  ((argc ["tekcap"%string] <= 1)%nat /\
   trace (snd (main (lab_world []) 0 ["tekcap"%string] initial))
     = [EvPrint MsgBanner; EvPrint MsgUsage]) \/
  ((1 < argc ["tekcap"%string])%nat /\
   exists tr,
     trace (snd (main (lab_world []) 0 ["tekcap"%string] initial))
       = tr ++ [EvCommWrite terminator_cmd; EvPrint MsgDone] ++ mainOut_trace 0).
Proof.
  exact (X22_exit_code_zero (lab_world []) 0 ["tekcap"%string]
           (snd (main (lab_world []) 0 ["tekcap"%string] initial)) eq_refl).
Defined.

(** Names of 255 and of 252 characters. *)
Lemma X23_witness :
  main (lab_world []) 0 ["tekcap"%string; name_of_length 255] initial
    = (Abort, banner_state) /\
  main replying_world 1 ["tekcap"%string; name_of_length 252] initial
    = (Abort, identified_state default_config [] [Byte.x41]).
Proof.
  assert (H1 : (1 < argc ["tekcap"%string; name_of_length 255])%nat)
    by (unfold argc; simpl; lia).
  assert (H2 : (1 < argc ["tekcap"%string; name_of_length 252])%nat)
    by (unfold argc; simpl; lia).
  assert (Ha : 0 <= address default_config <= 30) by (simpl; lia).
  assert (Hb : 0 <= baud default_config <= 6000000) by (simpl; lia).
  assert (L1 : (sizeof_filename - 1 <= String.length (name_of_length 255))%nat)
    by (vm_compute; lia).
  assert (L2 : (String.length (name_of_length 252) < sizeof_filename - 1)%nat)
    by (vm_compute; lia).
  assert (L3 : (sizeof_filename - 1 <= String.length (name_of_length 252) + 4)%nat)
    by (vm_compute; lia).
  assert (L4 : CLib.no_extension (name_of_length 252) = true)
    by (vm_compute; reflexivity).
  split.
  - exact (proj1 (X23_file_name_too_long (lab_world []) 0
                    ["tekcap"%string; name_of_length 255] 1 default_config
                    (name_of_length 255) H1 eq_refl eq_refl Ha Hb) L1).
  - exact (proj2 (X23_file_name_too_long replying_world 1
                    ["tekcap"%string; name_of_length 252] 1 default_config
                    (name_of_length 252) H2 eq_refl eq_refl Ha Hb)
                 [] [Byte.x41] L2 L3 L4 replying_port_ready (Forall_nil _) I
                 eq_refl no_stale_lt_1 eq_refl eq_refl eq_refl one_byte_reply).
Defined.

(** Data last seen 500 ms before the wrap, the clock 600 ms after it. *)
Lemma X24_witness :
  lastTicks wrap_locals = -500 /\
  to_DWORD (tick wrapped_world 0) = 600 /\
  window_elapsed wrapped_world wrap_locals initial = true /\
  exists tr,
    trace (snd (receive_body wrapped_world wrap_locals initial)) = trace initial ++ tr /\
    count is_read_request tr = 1%nat.
Proof.
  split; [vm_compute; reflexivity|]. split; [vm_compute; reflexivity|].
  assert (H : 0 <= tick wrapped_world (n_tick initial) - (2 ^ 32 - 500) < DWORD_mod)
    by (vm_compute; split; [discriminate | reflexivity]).
  exact (X24_window_across_the_wrap wrapped_world wrap_locals initial
           (2 ^ 32 - 500) eq_refl H).
Defined.
